(** * Membership progression and aggregate consistency

    A shallow embedding of the membership-tracking application:

    - [supabase/schema.sql]: the tables, the views [guest_meeting_counts]
      and [pipeliner_eligibility], the plpgsql helper functions
      [refresh_guest_meeting_count] / [refresh_pipeliner_eligibility] and the
      row triggers that call them;
    - [PromoteToPipelinerDialog] ([handleConfirm]), [usePipeliners]
      ([normalizePipelinerPayload], [promotePipelinerToMember]) and
      [PromoteToMemberDialog] ([handleConfirm]): the client-side promotion
      workflows with their compensating deletes;
    - [src/lib/membershipStats.ts]: the monthly statistics.

    Tables are finite maps from primary key to row.  SQL [NULL] is [None];
    comparisons against [NULL] follow SQL's three-valued logic.  A [uuid]
    is its 128-bit value; its text form is never the empty string, so the
    JavaScript truthiness test on an id succeeds exactly when the id is
    there.  JavaScript strings are sequences of UTF-16 code units, and
    JavaScript numbers are binary64 doubles: every arithmetic operation
    rounds its exact result to the nearest double. *)

From Stdlib Require Import ZArith QArith Qcanon Qround Qpower Lqa.
From Stdlib Require SpecFloat.
From stdpp Require Import gmap list strings sorting.

Local Close Scope Qc_scope.
Local Close Scope Q_scope.
Local Open Scope Z_scope.

Set Default Proof Using "Type".

(* ===================================================================== *)
(** ** JavaScript strings *)
(* ===================================================================== *)

Module Js.

  (** A string is its list of UTF-16 code units. *)
Abbreviation text := (list N).

  (** An ASCII literal as a JavaScript string. *)
Definition lit (s : string) : text :=
    (λ c, N.of_nat (Ascii.nat_of_ascii c)) <$> String.list_ascii_of_string s.

  (** ECMAScript [WhiteSpace] and [LineTerminator] code points, the
      characters [String.prototype.trim] strips (all of them are in the
      basic multilingual plane, so a code unit decides it). *)
Definition isWhiteSpace (c : N) : bool :=
    bool_decide (c ∈ [9; 10; 11; 12; 13; 32; 160; 5760; 8232; 8233; 8239;
                      8287; 12288; 65279]%N)
    || ((8192 <=? c)%N && (c <=? 8202)%N).

Fixpoint trimStart (s : text) : text :=
    match s with
    | c :: s' => if isWhiteSpace c then trimStart s' else s
    | [] => []
    end.

Definition trimEnd (s : text) : text := reverse (trimStart (reverse s)).

Definition trim (s : text) : text := trimEnd (trimStart s).

  (** Truthiness of a string: non-empty. *)
Definition truthy (s : text) : bool :=
    match s with [] => false | _ => true end.

  (** [s || null] on a string. *)
Definition or_null (s : text) : option text :=
    if truthy s then Some s else None.

End Js.

Abbreviation text := Js.text.
Abbreviation uuid := N.
(** [timestamptz] and [date] values are points on a line; only their order
    and equality are used. *)
Abbreviation timestamp := N.
Abbreviation date := N.

(* ===================================================================== *)
(** ** SQL three-valued logic *)
(* ===================================================================== *)

Module Sql.

  (** A nullable boolean: [None] is [NULL]. *)
Abbreviation bool3 := (option bool).

Definition is_not_null {A} (a : option A) : bool3 :=
    Some (match a with Some _ => true | None => false end).

  (** [a <> b]: [NULL] as soon as one side is [NULL]. *)
Definition neq `{EqDecision A} (a b : option A) : bool3 :=
    match a, b with
    | Some x, Some y => Some (negb (bool_decide (x = y)))
    | _, _ => None
    end.

  (** [a = b]. *)
Definition eq `{EqDecision A} (a b : option A) : bool3 :=
    match a, b with
    | Some x, Some y => Some (bool_decide (x = y))
    | _, _ => None
    end.

Definition and (a b : bool3) : bool3 :=
    match a, b with
    | Some false, _ | _, Some false => Some false
    | Some true, Some true => Some true
    | _, _ => None
    end.

  (** [IF c THEN] and [WHERE c]: taken only when [c] is true; [NULL] counts
      as not taken. *)
Definition holds (c : bool3) : bool :=
    match c with Some true => true | _ => false end.

End Sql.

(* ===================================================================== *)
(** ** Schema: rows *)
(* ===================================================================== *)

(** [status text not null check (status in ('present','apology','absent'))] *)
Inductive AttendanceStatus := present | apology | absent.

#[global] Instance AttendanceStatus_eq_dec : EqDecision AttendanceStatus.
Proof. solve_decision. Defined.

(** Each module holds the row type of one table, without its primary key
    [id] (the key of the table map) and without [created_at] and
    [profile_photo_url], which no statement of the application reads back. *)

Module Member.
Record Row := {
    full_name : text;
    email : text;                    (* not null unique *)
    phone : option text;
    member_number : option text;     (* unique *)
    join_date : text;
    status : text;
  }.
End Member.

Module Meeting.
Record Row := {
    meeting_date : date;
    meeting_type : text;
  }.
End Meeting.

Module Guest.
Record Row := {
    full_name : text;
    email : option text;
    phone : option text;
    invited_by : option uuid;        (* references members(id) *)
    status : text;
    total_meetings : Z;
    updated_at : timestamp;
  }.
End Guest.

Module Pipeliner.
Record Row := {
    full_name : text;
    email : option text;
    phone : option text;
    promoted_from_guest_date : option date;
    guest_meetings_count : Z;
    business_meetings_count : Z;
    charity_events_count : Z;
    is_eligible_for_membership : bool;
    status : text;
    sponsored_by : option uuid;      (* references members(id) *)
    notes : option text;
    updated_at : timestamp;
  }.
End Pipeliner.

Module Attendance.
Record Row := {
    meeting_id : uuid;               (* not null, on delete cascade *)
    member_id : option uuid;         (* on delete cascade *)
    guest_id : option uuid;          (* on delete cascade *)
    pipeliner_id : option uuid;      (* on delete cascade *)
    status : AttendanceStatus;
    notes : option text;
  }.
End Attendance.

Module CharityEvent.
Record Row := {
    event_name : text;
    event_date : date;
    participant_ids : option (list uuid);   (* uuid[] *)
  }.
End CharityEvent.

Module GuestEvent.
Record Row := {
    guest_id : uuid;                 (* not null, on delete cascade *)
    event_name : text;
    event_date : date;
  }.
End GuestEvent.

(** The database: one finite map per table. *)
Record Database := {
  members : gmap uuid Member.Row;
  meetings : gmap uuid Meeting.Row;
  guests : gmap uuid Guest.Row;
  pipeliners : gmap uuid Pipeliner.Row;
  attendance : gmap uuid Attendance.Row;
  charity_events : gmap uuid CharityEvent.Row;
  guest_events : gmap uuid GuestEvent.Row;
}.

Definition set_members (t : gmap uuid Member.Row) (db : Database) : Database :=
  {| members := t; meetings := meetings db; guests := guests db;
     pipeliners := pipeliners db; attendance := attendance db;
     charity_events := charity_events db; guest_events := guest_events db |}.

Definition set_guests (t : gmap uuid Guest.Row) (db : Database) : Database :=
  {| members := members db; meetings := meetings db; guests := t;
     pipeliners := pipeliners db; attendance := attendance db;
     charity_events := charity_events db; guest_events := guest_events db |}.

Definition set_pipeliners (t : gmap uuid Pipeliner.Row) (db : Database) : Database :=
  {| members := members db; meetings := meetings db; guests := guests db;
     pipeliners := t; attendance := attendance db;
     charity_events := charity_events db; guest_events := guest_events db |}.

Definition set_attendance (t : gmap uuid Attendance.Row) (db : Database) : Database :=
  {| members := members db; meetings := meetings db; guests := guests db;
     pipeliners := pipeliners db; attendance := t;
     charity_events := charity_events db; guest_events := guest_events db |}.

Definition set_charity_events (t : gmap uuid CharityEvent.Row) (db : Database) : Database :=
  {| members := members db; meetings := meetings db; guests := guests db;
     pipeliners := pipeliners db; attendance := attendance db;
     charity_events := t; guest_events := guest_events db |}.

Definition empty_db : Database :=
  {| members := ∅; meetings := ∅; guests := ∅; pipeliners := ∅;
     attendance := ∅; charity_events := ∅; guest_events := ∅ |}.

(** [select count( * ) from t where c]: the number of rows of [t] that
    satisfy [c]. *)
Definition count_where {A} (c : A → bool) (t : gmap uuid A) : Z :=
  Z.of_nat (size (filter (λ kv, c kv.2 = true) t)).

(* ===================================================================== *)
(** ** Views *)
(* ===================================================================== *)

(** The business rule both views spell out inline:
    [coalesce(present, 0) >= 3 and coalesce(events, 0) >= 1]. *)
Definition meets_thresholds (meeting_count event_count : Z) : bool :=
  (3 <=? meeting_count) && (1 <=? event_count).

Module GuestMeetingCounts.
  (** A row of the view [guest_meeting_counts]. *)
Record Row := {
    id : uuid;
    full_name : text;
    email : option text;
    phone : option text;
    invited_by : option uuid;
    status : text;
    total_meetings : Z;
    updated_at : timestamp;
    meeting_count : Z;
    present_count : Z;
    apology_count : Z;
    absent_count : Z;
    event_count : Z;
    eligible_for_pipeliner : bool;
  }.
End GuestMeetingCounts.

(** [guest_stats]: the attendance rows of one guest, by status. *)
Definition guest_attendance_count (db : Database) (g : uuid)
    (c : AttendanceStatus → bool) : Z :=
  count_where
    (λ a, bool_decide (Attendance.guest_id a = Some g) && c (Attendance.status a))
    (attendance db).

Definition is_status (s : AttendanceStatus) : AttendanceStatus → bool :=
  λ s', bool_decide (s' = s).

(** [event_stats]: the [guest_events] rows of one guest. *)
Definition guest_event_count (db : Database) (g : uuid) : Z :=
  count_where (λ e, bool_decide (GuestEvent.guest_id e = g)) (guest_events db).

Definition guest_meeting_counts_row (db : Database) (g : uuid) (r : Guest.Row)
    : GuestMeetingCounts.Row :=
  let present_count := guest_attendance_count db g (is_status present) in
  let event_count := guest_event_count db g in
  {| GuestMeetingCounts.id := g;
     GuestMeetingCounts.full_name := Guest.full_name r;
     GuestMeetingCounts.email := Guest.email r;
     GuestMeetingCounts.phone := Guest.phone r;
     GuestMeetingCounts.invited_by := Guest.invited_by r;
     GuestMeetingCounts.status := Guest.status r;
     GuestMeetingCounts.total_meetings := Guest.total_meetings r;
     GuestMeetingCounts.updated_at := Guest.updated_at r;
     GuestMeetingCounts.meeting_count := guest_attendance_count db g (λ _, true);
     GuestMeetingCounts.present_count := present_count;
     GuestMeetingCounts.apology_count := guest_attendance_count db g (is_status apology);
     GuestMeetingCounts.absent_count := guest_attendance_count db g (is_status absent);
     GuestMeetingCounts.event_count := event_count;
     GuestMeetingCounts.eligible_for_pipeliner :=
       meets_thresholds present_count event_count |}.

(** [create view guest_meeting_counts]: one row per guest. *)
Definition guest_meeting_counts (db : Database) : gmap uuid GuestMeetingCounts.Row :=
  map_imap (λ g r, Some (guest_meeting_counts_row db g r)) (guests db).

Module PipelinerEligibility.
  (** A row of the view [pipeliner_eligibility]. *)
Record Row := {
    id : uuid;
    full_name : text;
    email : option text;
    phone : option text;
    promoted_from_guest_date : option date;
    guest_meetings_count : Z;
    business_meetings_count : Z;
    charity_events_count : Z;
    is_eligible_for_membership : bool;
    status : text;
    sponsored_by : option uuid;
    notes : option text;
    updated_at : timestamp;
    meeting_count : Z;
    charity_event_count : Z;
    meets_requirements : bool;
  }.
End PipelinerEligibility.

(** [meeting_stats]: the present rows of one pipeliner. *)
Definition pipeliner_present_count (db : Database) (p : uuid) : Z :=
  count_where
    (λ a, bool_decide (Attendance.pipeliner_id a = Some p)
          && bool_decide (Attendance.status a = present))
    (attendance db).

(** [coalesce(ce.participant_ids, '{}')] *)
Definition participants (e : CharityEvent.Row) : list uuid :=
  default [] (CharityEvent.participant_ids e).

(** [charity_stats]: the view unnests every array and counts the elements
    equal to the pipeliner, so an id listed twice in one event counts
    twice. *)
Definition unnest_count (db : Database) (p : uuid) : Z :=
  map_fold
    (λ _ e acc, acc + Z.of_nat (length (filter (λ q, q = p) (participants e))))
    0 (charity_events db).

Definition pipeliner_eligibility_row (db : Database) (p : uuid) (r : Pipeliner.Row)
    : PipelinerEligibility.Row :=
  let meeting_count := pipeliner_present_count db p in
  let charity_event_count := unnest_count db p in
  {| PipelinerEligibility.id := p;
     PipelinerEligibility.full_name := Pipeliner.full_name r;
     PipelinerEligibility.email := Pipeliner.email r;
     PipelinerEligibility.phone := Pipeliner.phone r;
     PipelinerEligibility.promoted_from_guest_date := Pipeliner.promoted_from_guest_date r;
     PipelinerEligibility.guest_meetings_count := Pipeliner.guest_meetings_count r;
     PipelinerEligibility.business_meetings_count := Pipeliner.business_meetings_count r;
     PipelinerEligibility.charity_events_count := Pipeliner.charity_events_count r;
     PipelinerEligibility.is_eligible_for_membership := Pipeliner.is_eligible_for_membership r;
     PipelinerEligibility.status := Pipeliner.status r;
     PipelinerEligibility.sponsored_by := Pipeliner.sponsored_by r;
     PipelinerEligibility.notes := Pipeliner.notes r;
     PipelinerEligibility.updated_at := Pipeliner.updated_at r;
     PipelinerEligibility.meeting_count := meeting_count;
     PipelinerEligibility.charity_event_count := charity_event_count;
     PipelinerEligibility.meets_requirements :=
       meets_thresholds meeting_count charity_event_count |}.

(** [create view pipeliner_eligibility]: one row per pipeliner. *)
Definition pipeliner_eligibility (db : Database) : gmap uuid PipelinerEligibility.Row :=
  map_imap (λ p r, Some (pipeliner_eligibility_row db p r)) (pipeliners db).

(* ===================================================================== *)
(** ** Trigger functions *)
(* ===================================================================== *)

(** [refresh_guest_meeting_count(p_guest_id)].  With a [NULL] argument both
    [where] clauses compare against [NULL] and select nothing, so the call
    changes nothing. *)
Definition refresh_guest_meeting_count (now : timestamp) (p_guest_id : option uuid)
    (db : Database) : Database :=
  match p_guest_id with
  | None => db
  | Some g =>
    let meeting_count := guest_attendance_count db g (is_status present) in
    set_guests
      (alter (λ r, {| Guest.full_name := Guest.full_name r;
                      Guest.email := Guest.email r;
                      Guest.phone := Guest.phone r;
                      Guest.invited_by := Guest.invited_by r;
                      Guest.status := Guest.status r;
                      Guest.total_meetings := meeting_count;
                      Guest.updated_at := now |})
             g (guests db))
      db
  end.

(** What a row trigger sees: [tg_op] with [NEW] and [OLD]. *)
Inductive TriggerEvent :=
| INSERT (new : Attendance.Row)
| UPDATE (old new : Attendance.Row)
| DELETE (old : Attendance.Row).

(** [update_guest_meeting_count()] *)
Definition update_guest_meeting_count (now : timestamp) (ev : TriggerEvent)
    (db : Database) : Database :=
  match ev with
  | INSERT new =>
    if Sql.holds (Sql.is_not_null (Attendance.guest_id new))
    then refresh_guest_meeting_count now (Attendance.guest_id new) db
    else db
  | UPDATE old new =>
    let db1 :=
      if Sql.holds (Sql.is_not_null (Attendance.guest_id new))
      then refresh_guest_meeting_count now (Attendance.guest_id new) db
      else db in
    if Sql.holds (Sql.and (Sql.is_not_null (Attendance.guest_id old))
                          (Sql.neq (Attendance.guest_id old) (Attendance.guest_id new)))
    then refresh_guest_meeting_count now (Attendance.guest_id old) db1
    else db1
  | DELETE old =>
    if Sql.holds (Sql.is_not_null (Attendance.guest_id old))
    then refresh_guest_meeting_count now (Attendance.guest_id old) db
    else db
  end.

(** [ce.participant_ids @> array[p]] counted over the events. *)
Definition charity_event_count_of (db : Database) (p : uuid) : Z :=
  count_where (λ e, bool_decide (p ∈ participants e)) (charity_events db).

(** [refresh_pipeliner_eligibility(p_pipeliner_id)] *)
Definition refresh_pipeliner_eligibility (now : timestamp) (p_pipeliner_id : option uuid)
    (db : Database) : Database :=
  match p_pipeliner_id with
  | None => db
  | Some p =>
    let meeting_count := pipeliner_present_count db p in
    let charity_event_count := charity_event_count_of db p in
    set_pipeliners
      (alter (λ r, {| Pipeliner.full_name := Pipeliner.full_name r;
                      Pipeliner.email := Pipeliner.email r;
                      Pipeliner.phone := Pipeliner.phone r;
                      Pipeliner.promoted_from_guest_date := Pipeliner.promoted_from_guest_date r;
                      Pipeliner.guest_meetings_count := Pipeliner.guest_meetings_count r;
                      Pipeliner.business_meetings_count := meeting_count;
                      Pipeliner.charity_events_count := charity_event_count;
                      Pipeliner.is_eligible_for_membership :=
                        meets_thresholds meeting_count charity_event_count;
                      Pipeliner.status := Pipeliner.status r;
                      Pipeliner.sponsored_by := Pipeliner.sponsored_by r;
                      Pipeliner.notes := Pipeliner.notes r;
                      Pipeliner.updated_at := now |})
             p (pipeliners db))
      db
  end.

(** [update_pipeliner_eligibility()] *)
Definition update_pipeliner_eligibility (now : timestamp) (ev : TriggerEvent)
    (db : Database) : Database :=
  match ev with
  | INSERT new =>
    if Sql.holds (Sql.is_not_null (Attendance.pipeliner_id new))
    then refresh_pipeliner_eligibility now (Attendance.pipeliner_id new) db
    else db
  | UPDATE old new =>
    let db1 :=
      if Sql.holds (Sql.is_not_null (Attendance.pipeliner_id new))
      then refresh_pipeliner_eligibility now (Attendance.pipeliner_id new) db
      else db in
    if Sql.holds (Sql.and (Sql.is_not_null (Attendance.pipeliner_id old))
                          (Sql.neq (Attendance.pipeliner_id old)
                                   (Attendance.pipeliner_id new)))
    then refresh_pipeliner_eligibility now (Attendance.pipeliner_id old) db1
    else db1
  | DELETE old =>
    if Sql.holds (Sql.is_not_null (Attendance.pipeliner_id old))
    then refresh_pipeliner_eligibility now (Attendance.pipeliner_id old) db
    else db
  end.

(** [foreach pipeliner in array ... loop perform refresh_pipeliner_eligibility] *)
Definition refresh_each (now : timestamp) (ids : list uuid) (db : Database) : Database :=
  foldl (λ acc p, refresh_pipeliner_eligibility now (Some p) acc) db ids.

(** What the charity-event trigger sees. *)
Inductive CharityTriggerEvent :=
| CE_INSERT (new : CharityEvent.Row)
| CE_UPDATE (old new : CharityEvent.Row)
| CE_DELETE (old : CharityEvent.Row).

(** [update_pipeliner_eligibility_from_charity()] *)
Definition update_pipeliner_eligibility_from_charity (now : timestamp)
    (ev : CharityTriggerEvent) (db : Database) : Database :=
  match ev with
  | CE_INSERT new => refresh_each now (participants new) db
  | CE_UPDATE old new =>
    refresh_each now (participants new) (refresh_each now (participants old) db)
  | CE_DELETE old => refresh_each now (participants old) db
  end.
Arguments update_pipeliner_eligibility_from_charity : simpl never.

(** The two [after insert or update or delete on attendance for each row]
    triggers, fired in name order. *)
Definition attendance_row_triggers (now : timestamp) (ev : TriggerEvent)
    (db : Database) : Database :=
  update_pipeliner_eligibility now ev (update_guest_meeting_count now ev db).
Arguments attendance_row_triggers : simpl never.

(* ===================================================================== *)
(** ** Statements *)
(* ===================================================================== *)

(** What the store reports when a statement fails.  A failed statement
    leaves the database as it was. *)
Inductive PgError :=
| unique_violation
| foreign_key_violation
| store_failure (code : N).   (* any failure not caused by the data:
                                 connection, timeout, policy, ... *)

Inductive result (A : Type) :=
| Ok (a : A)
| Err (e : PgError).
Arguments Ok {A} a.
Arguments Err {A} e.

#[global] Instance result_ret : MRet result := λ A a, Ok a.
#[global] Instance result_bind : MBind result :=
  λ A B f m, match m with Ok a => f a | Err e => Err e end.

(** [guard c e]: go on when the constraint [c] holds, fail with [e]
    otherwise. *)
Definition guard_or (c : bool) (e : PgError) : result unit :=
  if c then Ok () else Err e.

(** A nullable foreign key: [NULL] or the key of a row of [t]. *)
Definition references {A} (k : option uuid) (t : gmap uuid A) : bool :=
  match k with
  | None => true
  | Some i => bool_decide (is_Some (t !! i))
  end.

(** *** attendance *)

(** The foreign keys of an attendance row. *)
Definition attendance_fk (r : Attendance.Row) (db : Database) : bool :=
  references (Some (Attendance.meeting_id r)) (meetings db)
  && references (Attendance.member_id r) (members db)
  && references (Attendance.guest_id r) (guests db)
  && references (Attendance.pipeliner_id r) (pipeliners db).

(** Two rows that one of the partial unique indexes
    [attendance_meeting_member_key], [attendance_meeting_guest_key],
    [attendance_meeting_pipeliner_key] keeps apart. *)
Definition same_meeting_subject (r r' : Attendance.Row) : bool :=
  bool_decide (Attendance.meeting_id r = Attendance.meeting_id r')
  && (Sql.holds (Sql.eq (Attendance.member_id r) (Attendance.member_id r'))
      || Sql.holds (Sql.eq (Attendance.guest_id r) (Attendance.guest_id r'))
      || Sql.holds (Sql.eq (Attendance.pipeliner_id r) (Attendance.pipeliner_id r'))).

(** The unique indexes accept [r] under key [i]. *)
Definition attendance_unique (i : uuid) (r : Attendance.Row) (db : Database) : bool :=
  bool_decide
    (map_Forall (λ j r', j = i ∨ same_meeting_subject r r' = false) (attendance db)).

(** [insert into attendance] of one row. *)
Definition attendance_insert (now : timestamp) (i : uuid) (r : Attendance.Row)
    (db : Database) : result Database :=
  _ ← guard_or (bool_decide (attendance db !! i = None)) unique_violation;
  _ ← guard_or (attendance_fk r db) foreign_key_violation;
  _ ← guard_or (attendance_unique i r db) unique_violation;
  Ok (attendance_row_triggers now (INSERT r)
        (set_attendance (<[i := r]> (attendance db)) db)).

(** [update attendance set ... where id = i]: [new] is the row after the
    assignments (the key itself is not reassigned).  No row with that key:
    nothing is updated and no trigger fires. *)
Definition attendance_update (now : timestamp) (i : uuid) (new : Attendance.Row)
    (db : Database) : result Database :=
  match attendance db !! i with
  | None => Ok db
  | Some old =>
    _ ← guard_or (attendance_fk new db) foreign_key_violation;
    _ ← guard_or (attendance_unique i new db) unique_violation;
    Ok (attendance_row_triggers now (UPDATE old new)
          (set_attendance (<[i := new]> (attendance db)) db))
  end.

(** [delete from attendance where id = i] *)
Definition attendance_delete (now : timestamp) (i : uuid) (db : Database)
    : result Database :=
  match attendance db !! i with
  | None => Ok db
  | Some old =>
    Ok (attendance_row_triggers now (DELETE old)
          (set_attendance (delete i (attendance db)) db))
  end.

(** [on delete cascade]: the rows selected by [c] go, then the row triggers
    fire once per deleted row. *)
Definition attendance_cascade (now : timestamp) (c : Attendance.Row → bool)
    (db : Database) : Database :=
  let gone := filter (λ kv, c kv.2 = true) (attendance db) in
  let kept := filter (λ kv, c kv.2 ≠ true) (attendance db) in
  map_fold (λ _ old acc, attendance_row_triggers now (DELETE old) acc)
           (set_attendance kept db) gone.

(** *** charity_events *)

Definition charity_events_insert (now : timestamp) (i : uuid) (r : CharityEvent.Row)
    (db : Database) : result Database :=
  _ ← guard_or (bool_decide (charity_events db !! i = None)) unique_violation;
  Ok (update_pipeliner_eligibility_from_charity now (CE_INSERT r)
        (set_charity_events (<[i := r]> (charity_events db)) db)).

Definition charity_events_update (now : timestamp) (i : uuid) (new : CharityEvent.Row)
    (db : Database) : result Database :=
  match charity_events db !! i with
  | None => Ok db
  | Some old =>
    Ok (update_pipeliner_eligibility_from_charity now (CE_UPDATE old new)
          (set_charity_events (<[i := new]> (charity_events db)) db))
  end.

Definition charity_events_delete (now : timestamp) (i : uuid) (db : Database)
    : result Database :=
  match charity_events db !! i with
  | None => Ok db
  | Some old =>
    Ok (update_pipeliner_eligibility_from_charity now (CE_DELETE old)
          (set_charity_events (delete i (charity_events db)) db))
  end.

(** *** pipeliners *)

Definition pipeliners_insert (i : uuid) (r : Pipeliner.Row) (db : Database)
    : result Database :=
  _ ← guard_or (bool_decide (pipeliners db !! i = None)) unique_violation;
  _ ← guard_or (references (Pipeliner.sponsored_by r) (members db))
               foreign_key_violation;
  Ok (set_pipeliners (<[i := r]> (pipeliners db)) db).

(** [update pipeliners set ... where id = i]: [f] makes the assignments.
    The foreign key is checked again only when [sponsored_by] changes. *)
Definition pipeliners_update (i : uuid) (f : Pipeliner.Row → Pipeliner.Row)
    (db : Database) : result Database :=
  match pipeliners db !! i with
  | None => Ok db
  | Some old =>
    _ ← guard_or (bool_decide (Pipeliner.sponsored_by (f old) = Pipeliner.sponsored_by old)
                  || references (Pipeliner.sponsored_by (f old)) (members db))
                 foreign_key_violation;
    Ok (set_pipeliners (<[i := f old]> (pipeliners db)) db)
  end.

(** [delete from pipeliners where id = i]; the attendance rows of the
    pipeliner go with it. *)
Definition pipeliners_delete (now : timestamp) (i : uuid) (db : Database)
    : result Database :=
  match pipeliners db !! i with
  | None => Ok db
  | Some _ =>
    Ok (attendance_cascade now
          (λ a, bool_decide (Attendance.pipeliner_id a = Some i))
          (set_pipeliners (delete i (pipeliners db)) db))
  end.

(** *** members *)

(** [email text not null unique] and [member_number text unique]; a [NULL]
    member number collides with nothing. *)
Definition members_unique (r : Member.Row) (db : Database) : bool :=
  bool_decide
    (map_Forall
       (λ _ r', Member.email r' ≠ Member.email r
                ∧ Sql.holds (Sql.eq (Member.member_number r')
                                    (Member.member_number r)) = false)
       (members db)).

Definition members_insert (i : uuid) (r : Member.Row) (db : Database)
    : result Database :=
  _ ← guard_or (bool_decide (members db !! i = None)) unique_violation;
  _ ← guard_or (members_unique r db) unique_violation;
  Ok (set_members (<[i := r]> (members db)) db).

(** A member that a guest ([invited_by]) or a pipeliner ([sponsored_by])
    still refers to cannot be deleted: those keys have no [on delete]
    action. *)
Definition member_unreferenced (i : uuid) (db : Database) : bool :=
  bool_decide (map_Forall (λ _ g, Guest.invited_by g ≠ Some i) (guests db))
  && bool_decide (map_Forall (λ _ p, Pipeliner.sponsored_by p ≠ Some i) (pipeliners db)).

(** [delete from members where id = i]; the attendance rows of the member
    go with it. *)
Definition members_delete (now : timestamp) (i : uuid) (db : Database)
    : result Database :=
  match members db !! i with
  | None => Ok db
  | Some _ =>
    _ ← guard_or (member_unreferenced i db) foreign_key_violation;
    Ok (attendance_cascade now
          (λ a, bool_decide (Attendance.member_id a = Some i))
          (set_members (delete i (members db)) db))
  end.

(** *** guests *)

(** [update guests set ... where id = i]: [f] makes the assignments.  The
    foreign key is checked again only when [invited_by] changes. *)
Definition guests_update (i : uuid) (f : Guest.Row → Guest.Row) (db : Database)
    : result Database :=
  match guests db !! i with
  | None => Ok db
  | Some old =>
    _ ← guard_or (bool_decide (Guest.invited_by (f old) = Guest.invited_by old)
                  || references (Guest.invited_by (f old)) (members db))
                 foreign_key_violation;
    Ok (set_guests (<[i := f old]> (guests db)) db)
  end.

(** The foreign keys hold throughout the database. *)
Definition fk_consistent (db : Database) : Prop :=
  map_Forall (λ _ a, attendance_fk a db = true) (attendance db)
  ∧ map_Forall (λ _ g, references (Guest.invited_by g) (members db) = true) (guests db)
  ∧ map_Forall (λ _ p, references (Pipeliner.sponsored_by p) (members db) = true)
               (pipeliners db)
  ∧ map_Forall (λ _ e, references (Some (GuestEvent.guest_id e)) (guests db) = true)
               (guest_events db).

(* ===================================================================== *)
(** ** The client: calls to the store *)
(* ===================================================================== *)

(** One [await supabase.from(...)...] call.  The client never throws: it
    resolves to [{ data, error }].  [fault] is what the environment does to
    the call: [Some e] makes it report [e] without touching the database,
    [None] lets the statement run (it may still fail on a constraint). *)
Definition supabase {A} (fault : option PgError) (stmt : result A) : result A :=
  match fault with
  | Some e => Err e
  | None => stmt
  end.

(** What the environment contributes to a two-step promotion: the fate of
    the insert, of the update and of the compensating delete, the key the
    store generates for the inserted row ([uuid_generate_v4()]), the
    browser's date and time and the store's clock. *)
Record Environment := {
  insert_fault : option PgError;
  update_fault : option PgError;
  delete_fault : option PgError;
  generated_id : uuid;
  today : date;
  js_now : timestamp;
  pg_now : timestamp;
}.

(** How a handler ends. *)
Inductive Outcome (E : Type) :=
| Ignored                    (* returned at once, nothing shown *)
| Refused (message : string) (* [toast.error] of a validation message *)
| Failed (error : E)         (* [toast.error] of a caught error *)
| Done (id : uuid).          (* success toast; the key of the new row *)
Arguments Ignored {E}.
Arguments Refused {E} message.
Arguments Failed {E} error.
Arguments Done {E} id.

(* ===================================================================== *)
(** ** PromoteToPipelinerDialog *)
(* ===================================================================== *)

Module PromoteToPipelinerDialog.

(** [const eligible = guest ? guest.meeting_count >= 3 ||
    guest.eligible_for_pipeliner : false]; it colours the badge. *)
Definition eligible (guest : option GuestMeetingCounts.Row) : bool :=
  match guest with
  | Some guest =>
    (3 <=? GuestMeetingCounts.meeting_count guest)
    || GuestMeetingCounts.eligible_for_pipeliner guest
  | None => false
  end.

(** The row [handleConfirm] inserts into [pipeliners];
    [charity_events_count] and [updated_at] take the column defaults. *)
Definition payload (guest : GuestMeetingCounts.Row) (sponsorId : uuid) (notes : text)
    (env : Environment) : Pipeliner.Row :=
  {| Pipeliner.full_name := GuestMeetingCounts.full_name guest;
     Pipeliner.email := GuestMeetingCounts.email guest;
     Pipeliner.phone := GuestMeetingCounts.phone guest;
     Pipeliner.promoted_from_guest_date := Some (today env);
     Pipeliner.guest_meetings_count := Z.max (GuestMeetingCounts.meeting_count guest) 3;
     Pipeliner.business_meetings_count := GuestMeetingCounts.present_count guest;
     Pipeliner.charity_events_count := 0;
     Pipeliner.is_eligible_for_membership := false;
     Pipeliner.status := Js.lit "active";
     Pipeliner.sponsored_by := Some sponsorId;
     Pipeliner.notes := Js.or_null (Js.trim notes);
     Pipeliner.updated_at := pg_now env |}.

(** The assignments of the update of [guests]. *)
Definition guest_update (guest : GuestMeetingCounts.Row) (env : Environment)
    (r : Guest.Row) : Guest.Row :=
  {| Guest.full_name := Guest.full_name r;
     Guest.email := Guest.email r;
     Guest.phone := Guest.phone r;
     Guest.invited_by := Guest.invited_by r;
     Guest.status := Js.lit "became_pipeliner";
     Guest.total_meetings := Z.max (GuestMeetingCounts.total_meetings guest) 3;
     Guest.updated_at := js_now env |}.

(** [handleConfirm], from its first line to the success toast.  [guest] is
    the dialog's prop (a row of the view as the page last fetched it),
    [sponsorId] the selected member ([None] for the empty selection) and
    [notes] the text area.  [Done] is the call of [toast.success]; what
    the [try] block does after it is in [handleConfirmSettled] below. *)
Definition handleConfirm (guest : option GuestMeetingCounts.Row)
    (sponsorId : option uuid) (notes : text) (env : Environment) (db : Database)
    : Outcome PgError * Database :=
  match guest with
  | None => (Ignored, db)
  | Some guest =>
    match sponsorId with
    | None => (Refused "Please select a sponsoring member.", db)
    | Some sponsorId =>
      let inserted := generated_id env in
      match supabase (insert_fault env)
              (pipeliners_insert inserted (payload guest sponsorId notes env) db) with
      | Err insertError => (Failed insertError, db)
      | Ok db1 =>
        match supabase (update_fault env)
                (guests_update (GuestMeetingCounts.id guest)
                               (guest_update guest env) db1) with
        | Err guestUpdateError =>
          (* the result of the compensating delete is not looked at *)
          let db2 :=
            match supabase (delete_fault env)
                    (pipeliners_delete (pg_now env) inserted db1) with
            | Ok db2 => db2
            | Err _ => db1
            end in
          (Failed guestUpdateError, db2)
        | Ok db2 => (Done inserted, db2)
        end
      end
    end
  end.
Arguments handleConfirm : simpl never.

(** What an error toast of [handleConfirm] shows: the validation message,
    an error of the store caught from one of the two writes, or whatever
    was thrown after the success toast. *)
Inductive ErrorToast (T : Type) :=
| validation (message : string)
| caught_write (error : PgError)
| caught_later (thrown : T).
Arguments validation {T} message.
Arguments caught_write {T} error.
Arguments caught_later {T} thrown.

(** What the user has seen when [handleConfirm] settles. *)
Record Shown (T : Type) := {
  success_toast : bool;                (* [toast.success] was called *)
  error_toast : option (ErrorToast T); (* [toast.error] was called *)
  navigated : bool;                    (* [router.push("/pipeliners")] was reached *)
}.
Arguments success_toast {T} _.
Arguments error_toast {T} _.
Arguments navigated {T} _.

(** The whole of [handleConfirm].  After the success toast the [try] block
    goes on: [await triggerConfetti()] (a dynamic import of
    canvas-confetti), [await Promise.resolve(onPromoted?.())],
    [handleClose(false)] and [router.push].  [later] is what one of these
    throws, if any does: the [catch] of the same [try] then shows it in an
    error toast, after the success toast and with both writes done. *)
Definition handleConfirmSettled {T} (later : option T)
    (guest : option GuestMeetingCounts.Row) (sponsorId : option uuid) (notes : text)
    (env : Environment) (db : Database) : Shown T * Database :=
  match handleConfirm guest sponsorId notes env db with
  | (Ignored, db') =>
    ({| success_toast := false; error_toast := None; navigated := false |}, db')
  | (Refused message, db') =>
    ({| success_toast := false; error_toast := Some (validation message);
        navigated := false |}, db')
  | (Failed error, db') =>
    ({| success_toast := false; error_toast := Some (caught_write error);
        navigated := false |}, db')
  | (Done _, db') =>
    match later with
    | Some thrown =>
      ({| success_toast := true; error_toast := Some (caught_later thrown);
          navigated := false |}, db')
    | None =>
      ({| success_toast := true; error_toast := None; navigated := true |}, db')
    end
  end.

End PromoteToPipelinerDialog.

(* ===================================================================== *)
(** ** lib/pipelinerEligibility *)
(* ===================================================================== *)

(** The exports of [@/lib/pipelinerEligibility] that [usePipeliners] and
    [PromoteToMemberDialog] import.  The module itself is not part of the
    sources at hand, so the code that uses it is stated for any
    implementation. *)
Class PipelinerEligibilityLib := {
  BUSINESS_MEETING_TARGET : Z;
  CHARITY_EVENT_TARGET : Z;
  getPipelinerBusinessMeetingCount : PipelinerEligibility.Row → Z;
  getPipelinerCharityEventCount : PipelinerEligibility.Row → Z;
  hasMetMembershipRequirements : PipelinerEligibility.Row → bool;
}.

(** Modelled from the spec: the module [@/lib/pipelinerEligibility] is
    missing; the specification names the thresholds (3 meetings, 1 charity
    event) and defines [pipelinerEligibleForMembership(businessMeetingsCount,
    charityEventsCount)] as [businessMeetingsCount >= 3 AND
    charityEventsCount >= 1] over the pipeliner's counters. *)
Definition pipelinerEligibleForMembership (businessMeetingsCount charityEventsCount : Z)
    : bool :=
  (3 <=? businessMeetingsCount) && (1 <=? charityEventsCount).

(** Modelled from the spec: [guestEligibleForPipeliner(presentCount,
    charityEventCount)] is [presentCount >= 3 AND charityEventCount >= 1];
    the function is missing from the sources. *)
Definition guestEligibleForPipeliner (presentCount charityEventCount : Z) : bool :=
  (3 <=? presentCount) && (1 <=? charityEventCount).

(** Modelled from the spec: an implementation of the missing module
    [@/lib/pipelinerEligibility] that reads the pipeliner's stored
    counters, as the specification's data model describes them. *)
Definition spec_lib : PipelinerEligibilityLib :=
  {| BUSINESS_MEETING_TARGET := 3;
     CHARITY_EVENT_TARGET := 1;
     getPipelinerBusinessMeetingCount := PipelinerEligibility.business_meetings_count;
     getPipelinerCharityEventCount := PipelinerEligibility.charity_events_count;
     hasMetMembershipRequirements := λ p,
       pipelinerEligibleForMembership
         (PipelinerEligibility.business_meetings_count p)
         (PipelinerEligibility.charity_events_count p) |}.

(* ===================================================================== *)
(** ** usePipeliners *)
(* ===================================================================== *)

Module usePipeliners.

(** [PipelinerFormValues]; an optional or nullable field is an option. *)
Record PipelinerFormValues := {
  full_name : text;
  email : option text;
  phone : option text;
  promoted_from_guest_date : option date;
  guest_meetings_count : option Z;
  business_meetings_count : option Z;
  charity_events_count : option Z;
  is_eligible_for_membership : option bool;
  status : option text;
  sponsored_by : option uuid;
  notes : option text;
}.

(** [PromotePipelinerToMemberPayload] *)
Record PromotePipelinerToMemberPayload := {
  member_number : text;
  join_date : text;
}.

(** [v?.trim() || null] *)
Definition trim_or_null (v : option text) : option text :=
  v ≫= λ s, Js.or_null (Js.trim s).

(** [normalizePipelinerPayload]; [updated_at] is not part of the payload:
    an insert takes the column default, an update keeps the stored value. *)
Definition normalizePipelinerPayload (values : PipelinerFormValues)
    (updated_at : timestamp) : Pipeliner.Row :=
  {| Pipeliner.full_name := Js.trim (full_name values);
     Pipeliner.email := trim_or_null (email values);
     Pipeliner.phone := trim_or_null (phone values);
     Pipeliner.promoted_from_guest_date := promoted_from_guest_date values;
     Pipeliner.guest_meetings_count := default 3 (guest_meetings_count values);
     Pipeliner.business_meetings_count := default 0 (business_meetings_count values);
     Pipeliner.charity_events_count := default 0 (charity_events_count values);
     Pipeliner.is_eligible_for_membership :=
       default false (is_eligible_for_membership values);
     Pipeliner.status := default (Js.lit "active") (status values);
     Pipeliner.sponsored_by := sponsored_by values;
     Pipeliner.notes := trim_or_null (notes values);
     Pipeliner.updated_at := updated_at |}.

(** [createPipeliner]: the new database, or the error it rethrows. *)
Definition createPipeliner (values : PipelinerFormValues) (env : Environment)
    (db : Database) : result Database :=
  supabase (insert_fault env)
    (pipeliners_insert (generated_id env)
       (normalizePipelinerPayload values (pg_now env)) db).

(** [updatePipeliner].  The update ends in [.select("*").single()]: when
    it matched no row the client reports the error PGRST116, which the
    hook rethrows; the database is then as it was. *)
Definition updatePipeliner (id : uuid) (values : PipelinerFormValues)
    (env : Environment) (db : Database) : result Database :=
  db' ← supabase (update_fault env)
          (pipeliners_update id
             (λ old, normalizePipelinerPayload values (Pipeliner.updated_at old)) db);
  if bool_decide (is_Some (pipeliners db !! id)) then Ok db'
  else Err (store_failure 116).

(** What [promotePipelinerToMember] throws. *)
Inductive PromotionError :=
| pipeliner_not_found         (* "Pipeliner not found." *)
| still_needs (business charity : option Z)
                              (* "Pipeliner still needs ... before promotion." *)
| requirements_not_met        (* "Pipeliner has not yet met the membership
                                  requirements." *)
| member_number_required      (* "Member number is required." *)
| join_date_required          (* "Join date is required." *)
| email_required              (* "Email address is required before promoting
                                  to member." *)
| store_error (e : PgError).  (* [memberError], [pipelinerUpdateError] *)

Section with_lib.
Context `{PipelinerEligibilityLib}.

(** [fetchPipeliners]: the rows of the view, each with [meets_requirements]
    recomputed by the client.  (The [order by full_name] is left out: the
    rows are only ever looked up by [id].) *)
Definition fetchPipeliners (db : Database) : list PipelinerEligibility.Row :=
  (λ kv : uuid * PipelinerEligibility.Row,
     let pipeliner := kv.2 in
     {| PipelinerEligibility.id := PipelinerEligibility.id pipeliner;
        PipelinerEligibility.full_name := PipelinerEligibility.full_name pipeliner;
        PipelinerEligibility.email := PipelinerEligibility.email pipeliner;
        PipelinerEligibility.phone := PipelinerEligibility.phone pipeliner;
        PipelinerEligibility.promoted_from_guest_date :=
          PipelinerEligibility.promoted_from_guest_date pipeliner;
        PipelinerEligibility.guest_meetings_count :=
          PipelinerEligibility.guest_meetings_count pipeliner;
        PipelinerEligibility.business_meetings_count :=
          PipelinerEligibility.business_meetings_count pipeliner;
        PipelinerEligibility.charity_events_count :=
          PipelinerEligibility.charity_events_count pipeliner;
        PipelinerEligibility.is_eligible_for_membership :=
          PipelinerEligibility.is_eligible_for_membership pipeliner;
        PipelinerEligibility.status := PipelinerEligibility.status pipeliner;
        PipelinerEligibility.sponsored_by := PipelinerEligibility.sponsored_by pipeliner;
        PipelinerEligibility.notes := PipelinerEligibility.notes pipeliner;
        PipelinerEligibility.updated_at := PipelinerEligibility.updated_at pipeliner;
        PipelinerEligibility.meeting_count := PipelinerEligibility.meeting_count pipeliner;
        PipelinerEligibility.charity_event_count :=
          PipelinerEligibility.charity_event_count pipeliner;
        PipelinerEligibility.meets_requirements :=
          hasMetMembershipRequirements pipeliner |})
  <$> map_to_list (pipeliner_eligibility db).

(** [a < target ? target - a : null] *)
Definition missing (completed target : Z) : option Z :=
  if completed <? target then Some (target - completed) else None.

(** The checks of [promotePipelinerToMember] that come before the first
    write, in the order of the code. *)
Definition validate (pipeliner : PipelinerEligibility.Row)
    (payload : PromotePipelinerToMemberPayload) : option PromotionError :=
  let businessMeetingsCompleted := getPipelinerBusinessMeetingCount pipeliner in
  let charityEventsCompleted := getPipelinerCharityEventCount pipeliner in
  let meetsRequirements :=
    hasMetMembershipRequirements pipeliner
    || PipelinerEligibility.is_eligible_for_membership pipeliner in
  if negb meetsRequirements then
    let missingBusiness := missing businessMeetingsCompleted BUSINESS_MEETING_TARGET in
    let missingCharity := missing charityEventsCompleted CHARITY_EVENT_TARGET in
    match missingBusiness, missingCharity with
    | None, None => Some requirements_not_met
    | _, _ => Some (still_needs missingBusiness missingCharity)
    end
  else if negb (Js.truthy (Js.trim (member_number payload))) then
    Some member_number_required
  else if negb (Js.truthy (join_date payload)) then
    Some join_date_required
  else if negb (match PipelinerEligibility.email pipeliner with
                | Some e => Js.truthy e
                | None => false
                end) then
    Some email_required
  else None.

(** [memberPayload] *)
Definition memberPayload (pipeliner : PipelinerEligibility.Row)
    (payload : PromotePipelinerToMemberPayload) : Member.Row :=
  {| Member.full_name := PipelinerEligibility.full_name pipeliner;
     Member.email := default [] (PipelinerEligibility.email pipeliner);
     Member.phone := PipelinerEligibility.phone pipeliner;
     Member.member_number := Some (Js.trim (member_number payload));
     Member.join_date := join_date payload;
     Member.status := Js.lit "active" |}.

(** The assignments of the update of [pipeliners]. *)
Definition became_member (r : Pipeliner.Row) : Pipeliner.Row :=
  {| Pipeliner.full_name := Pipeliner.full_name r;
     Pipeliner.email := Pipeliner.email r;
     Pipeliner.phone := Pipeliner.phone r;
     Pipeliner.promoted_from_guest_date := Pipeliner.promoted_from_guest_date r;
     Pipeliner.guest_meetings_count := Pipeliner.guest_meetings_count r;
     Pipeliner.business_meetings_count := Pipeliner.business_meetings_count r;
     Pipeliner.charity_events_count := Pipeliner.charity_events_count r;
     Pipeliner.is_eligible_for_membership := false;
     Pipeliner.status := Js.lit "became_member";
     Pipeliner.sponsored_by := Pipeliner.sponsored_by r;
     Pipeliner.notes := Pipeliner.notes r;
     Pipeliner.updated_at := Pipeliner.updated_at r |}.

(** [promotePipelinerToMember].  [cached] is [state.pipeliners], the rows as
    the hook last fetched them.  The result is the key of the new member,
    or what is thrown. *)
Definition promotePipelinerToMember (cached : list PipelinerEligibility.Row)
    (pipelinerId : uuid) (payload : PromotePipelinerToMemberPayload)
    (env : Environment) (db : Database) : (PromotionError + uuid) * Database :=
  match List.find (λ item, bool_decide (PipelinerEligibility.id item = pipelinerId))
                  cached with
  | None => (inl pipeliner_not_found, db)
  | Some pipeliner =>
    match validate pipeliner payload with
    | Some error => (inl error, db)
    | None =>
      let member := generated_id env in
      match supabase (insert_fault env)
              (members_insert member (memberPayload pipeliner payload) db) with
      | Err memberError => (inl (store_error memberError), db)
      | Ok db1 =>
        match supabase (update_fault env)
                (pipeliners_update pipelinerId became_member db1) with
        | Err pipelinerUpdateError =>
          (* the result of the compensating delete is not looked at *)
          let db2 :=
            match supabase (delete_fault env)
                    (members_delete (pg_now env) member db1) with
            | Ok db2 => db2
            | Err _ => db1
            end in
          (inl (store_error pipelinerUpdateError), db2)
        | Ok db2 => (inr member, db2)
        end
      end
    end
  end.
Arguments promotePipelinerToMember : simpl never.

End with_lib.

End usePipeliners.

(* ===================================================================== *)
(** ** PromoteToMemberDialog *)
(* ===================================================================== *)

Module PromoteToMemberDialog.

Section with_lib.
Context `{PipelinerEligibilityLib}.

(** The [eligible] memo. *)
Definition eligible (pipeliner : option PipelinerEligibility.Row) : bool :=
  match pipeliner with
  | None => false
  | Some pipeliner =>
    if bool_decide (PipelinerEligibility.status pipeliner = Js.lit "became_member")
    then false
    else hasMetMembershipRequirements pipeliner
         || PipelinerEligibility.is_eligible_for_membership pipeliner
  end.

(** [handleConfirm].  [onPromote] is the prop the page passes in; it acts
    on the database and either returns or throws. *)
Definition handleConfirm {E} (pipeliner : option PipelinerEligibility.Row)
    (memberNumber joinDate : text)
    (onPromote : usePipeliners.PromotePipelinerToMemberPayload →
                 Database → (E + uuid) * Database)
    (db : Database) : Outcome E * Database :=
  match pipeliner with
  | None => (Ignored, db)
  | Some _ =>
    if negb (eligible pipeliner) then
      (Refused "This pipeliner has not met the membership requirements yet.", db)
    else if negb (Js.truthy (Js.trim memberNumber)) then
      (Refused "Member number is required.", db)
    else if negb (Js.truthy joinDate) then
      (Refused "Official join date is required.", db)
    else
      match onPromote {| usePipeliners.member_number := Js.trim memberNumber;
                         usePipeliners.join_date := joinDate |} db with
      | (inr member, db') => (Done member, db')
      | (inl error, db') => (Failed error, db')
      end
  end.

End with_lib.

End PromoteToMemberDialog.

(* ===================================================================== *)
(** ** JavaScript numbers *)
(* ===================================================================== *)

(** Binary64, the format of a JavaScript number: 53 significant bits,
    exponents of the last place from -1074 upwards, results rounded to the
    nearest double with ties to even. *)
Module Binary64.

(** [2^k] *)
Definition pow2 (k : Z) : Q := ((2 # 1) ^ k)%Q.

(** The exponent of the binade of a positive rational:
    [2^ilog2 q <= q < 2^(ilog2 q + 1)]. *)
Definition ilog2 (q : Q) : Z :=
  let e0 := Z.log2 (Qnum q) - Z.log2 (Zpos (Qden q)) in
  if Qle_bool (pow2 e0) q then e0 else e0 - 1.

(** The nearest integer, ties to even. *)
Definition nearest_even (t : Q) : Z :=
  let f := Qfloor t in
  match (t - inject_Z f ?= 1 # 2)%Q with
  | Lt => f
  | Gt => f + 1
  | Eq => if Z.even f then f else f + 1
  end.

(** The exponent of the last place of the doubles of the binade of [q]:
    52 places below the leading one, and never below [2^-1074]. *)
Definition ulp_exponent (q : Q) : Z := Z.max (ilog2 q - 52) (-1074).

(** A positive rational rounded to 53 significant bits. *)
Definition round_pos (q : Q) : Q :=
  let c := ulp_exponent q in
  (inject_Z (nearest_even (q / pow2 c)) * pow2 c)%Q.

(** A positive double: [n * 2^k] with [n] of at most 53 bits and [k] not
    below the exponent of the subnormal numbers. *)
Definition representable (b : Q) : Prop :=
  ∃ n k, 0 < n < 2 ^ 53 ∧ -1074 ≤ k ∧ (b == inject_Z n * pow2 k)%Q.

End Binary64.

Module JsNumber.
Import Binary64.

(** A number is a double, given by the rational it stands for, or one of
    the special values.  The sign of zero is not modelled: every operand
    below is a count or made of counts. *)
Inductive number :=
| finite (q : Qc)
| infinity (negative : bool)
| NaN.

#[global] Instance number_eq_dec : EqDecision number.
Proof. solve_decision. Defined.

(** The double nearest to the rational [q], ties to even; a result beyond
    the largest double is infinite. *)
Definition round64 (q : Q) : number :=
  match Qnum q with
  | Z0 => finite 0%Qc
  | Zpos _ =>
    let r := round_pos q in
    if Qle_bool (pow2 1024) r then infinity false else finite (Q2Qc r)
  | Zneg _ =>
    let r := round_pos (- q) in
    if Qle_bool (pow2 1024) r then infinity true else finite (Q2Qc (- r))
  end.

(** An integer as a number: itself when it is a double (as every count
    and every literal below is), else the nearest double. *)
Definition of_Z (z : Z) : number := round64 (inject_Z z).
Definition of_nat (n : nat) : number := of_Z (Z.of_nat n).

Definition is_negative (q : Qc) : bool := bool_decide (q < 0)%Qc.
Definition is_zero (q : Qc) : bool := bool_decide (q = 0%Qc).

(** [Number.isFinite] *)
Definition isFinite (x : number) : bool :=
  match x with finite _ => true | _ => false end.

(** [x / y] *)
Definition div (x y : number) : number :=
  match x, y with
  | NaN, _ | _, NaN => NaN
  | infinity _, infinity _ => NaN
  | infinity s, finite b => infinity (xorb s (is_negative b))
  | finite _, infinity _ => finite 0%Qc
  | finite a, finite b =>
    if is_zero b then
      if is_zero a then NaN else infinity (is_negative a)
    else round64 (a / b)
  end.

(** [x * y] *)
Definition mul (x y : number) : number :=
  match x, y with
  | NaN, _ | _, NaN => NaN
  | infinity s, infinity t => infinity (xorb s t)
  | infinity s, finite b =>
    if is_zero b then NaN else infinity (xorb s (is_negative b))
  | finite a, infinity t =>
    if is_zero a then NaN else infinity (xorb (is_negative a) t)
  | finite a, finite b => round64 (a * b)
  end.

(** [x + y] *)
Definition add (x y : number) : number :=
  match x, y with
  | NaN, _ | _, NaN => NaN
  | infinity s, infinity t => if eqb s t then infinity s else NaN
  | infinity s, finite _ => infinity s
  | finite _, infinity t => infinity t
  | finite a, finite b => round64 (a + b)
  end.

(** [Math.round]: the nearest integer, halves upwards; the result is
    computed exactly (a double of magnitude [2^52] or more is an integer
    already). *)
Definition round (x : number) : number :=
  match x with
  | finite q => of_Z (Qfloor (q + (1 # 2)))
  | _ => x
  end.

(** A value of the Standard Library's specification of IEEE 754 floats
    ([SpecFloat], here at 53 bits and exponents below 1024) as a number. *)
Definition of_spec_float (x : SpecFloat.spec_float) : number :=
  match x with
  | SpecFloat.S754_zero _ => finite 0%Qc
  | SpecFloat.S754_infinity s => infinity s
  | SpecFloat.S754_nan => NaN
  | SpecFloat.S754_finite s m e =>
    finite (Q2Qc ((if s then - inject_Z (Zpos m) else inject_Z (Zpos m)) * pow2 e))
  end.

End JsNumber.

(* ===================================================================== *)
(** ** lib/membershipStats *)
(* ===================================================================== *)

Module membershipStats.

Import JsNumber.

(** The numeric fields of [MembershipStats] (the three that only format
    the month are left out). *)
Module MembershipStats.
Record t := {
  activeMembers : nat;
  attendedLastMeeting : nat;
  attendanceRate : number;
  yearlyAverage : number;
  pipelinerPresentCount : nat;
  pipelinerAttendanceRate : number;
  pipeliners : nat;
  meetingAttendanceCount : nat;
  meetingAttendancePercentage : number;
}.
End MembershipStats.

(** [roundToTwoDecimals] *)
Definition roundToTwoDecimals (value : number) : number :=
  if isFinite value then div (round (mul value (of_Z 100))) (of_Z 100)
  else of_Z 0.

(** The dates [fetchMembershipStats] derives from its [month] argument
    with date-fns ([startOfMonth], [endOfMonth], [startOfYear]) and the
    current date.  Dates are written [yyyy-MM-dd], so comparing the strings
    compares the dates. *)
Record Window := {
  monthStart : date;
  monthEnd : date;
  yearStart : date;
  todayString : date;
}.

(** What the environment does to the six queries; [count_missing] is a
    response without a count, for which the client reports [null]. *)
Record Faults := {
  activeMembersError : option PgError;
  pipelinersError : option PgError;
  count_missing : bool;
  monthMeetingsError : option PgError;
  yearMeetingsError : option PgError;
  monthAttendanceError : option PgError;
  yearAttendanceError : option PgError;
}.

(** [from("members").select("id").eq("status", "active")
     .not("member_number", "is", null)] *)
Definition select_active_members (db : Database) : list uuid :=
  (map_to_list
     (filter (λ kv : uuid * Member.Row,
                Member.status kv.2 = Js.lit "active"
                ∧ Member.member_number kv.2 ≠ None)
             (members db))).*1.

(** [from("pipeliners").select("id", { count: "exact", head: true })
     .eq("status", "active")] *)
Definition count_active_pipeliners (db : Database) : nat :=
  size (filter (λ kv : uuid * Pipeliner.Row,
                  Pipeliner.status kv.2 = Js.lit "active")
               (pipeliners db)).

(** [from("meetings").select(...).gte("meeting_date", from)
     .lte("meeting_date", to)] *)
Definition select_meetings (from to : date) (db : Database)
    : list (uuid * Meeting.Row) :=
  map_to_list
    (filter (λ kv : uuid * Meeting.Row,
               (from ≤ Meeting.meeting_date kv.2)%N
               ∧ (Meeting.meeting_date kv.2 ≤ to)%N)
            (meetings db)).

(** [from("attendance").select(...).in("meeting_id", ids)
     .eq("status", "present")] *)
Definition select_month_attendance (ids : list uuid) (db : Database)
    : list Attendance.Row :=
  (map_to_list
     (filter (λ kv : uuid * Attendance.Row,
                Attendance.meeting_id kv.2 ∈ ids
                ∧ Attendance.status kv.2 = present)
             (attendance db))).*2.

(** [from("attendance").select(...).in("meeting_id", ids)
     .not("member_id", "is", null)] *)
Definition select_year_attendance (ids : list uuid) (db : Database)
    : list Attendance.Row :=
  (map_to_list
     (filter (λ kv : uuid * Attendance.Row,
                Attendance.meeting_id kv.2 ∈ ids
                ∧ Attendance.member_id kv.2 ≠ None)
             (attendance db))).*2.

(** The three collections the loop over [monthAttendance] fills. *)
Record MonthTally := {
  uniqueMonthlyAttendees : gset uuid;
  attendanceByMeeting : gmap uuid (gset uuid);
  pipelinerMonthlyAttendance : gmap uuid nat;
}.

Definition tally_entry (t : MonthTally) (entry : Attendance.Row) : MonthTally :=
  let t1 :=
    match Attendance.member_id entry with
    | Some member_id =>
      {| uniqueMonthlyAttendees := {[member_id]} ∪ uniqueMonthlyAttendees t;
         attendanceByMeeting :=
           match attendanceByMeeting t !! Attendance.meeting_id entry with
           | Some existing =>
             <[Attendance.meeting_id entry := {[member_id]} ∪ existing]>
               (attendanceByMeeting t)
           | None =>
             <[Attendance.meeting_id entry := {[member_id]}]> (attendanceByMeeting t)
           end;
         pipelinerMonthlyAttendance := pipelinerMonthlyAttendance t |}
    | None => t
    end in
  match Attendance.pipeliner_id entry with
  | Some pipeliner_id =>
    {| uniqueMonthlyAttendees := uniqueMonthlyAttendees t1;
       attendanceByMeeting := attendanceByMeeting t1;
       pipelinerMonthlyAttendance :=
         <[pipeliner_id :=
             (default 0 (pipelinerMonthlyAttendance t1 !! pipeliner_id) + 1)%nat]>
           (pipelinerMonthlyAttendance t1) |}
  | None => t1
  end.

Definition month_tally (monthAttendance : list Attendance.Row) : MonthTally :=
  foldl tally_entry
        {| uniqueMonthlyAttendees := ∅; attendanceByMeeting := ∅;
           pipelinerMonthlyAttendance := ∅ |}
        monthAttendance.

(** [Array.from(m.values()).reduce((sum, value) => sum + value, 0)] *)
Definition sum_values (m : gmap uuid nat) : nat :=
  map_fold (λ _ value sum, (sum + value)%nat) 0%nat m.

(** [a.meeting_date.localeCompare(b.meeting_date) <= 0] *)
Definition not_later (a b : uuid * Meeting.Row) : Prop :=
  (Meeting.meeting_date a.2 ≤ Meeting.meeting_date b.2)%N.

#[global] Instance not_later_dec : RelDecision not_later.
Proof. intros a b. unfold not_later. apply _. Defined.

(** The meeting whose attendance is reported as [attendedLastMeeting]: the
    last business meeting of the month by date, or else the last meeting. *)
Definition lastMeeting (monthMeetingRecords : list (uuid * Meeting.Row))
    : option (uuid * Meeting.Row) :=
  let sortedMeetings :=
    merge_sort not_later monthMeetingRecords in
  let businessMeetings :=
    filter (λ meeting : uuid * Meeting.Row,
              Meeting.meeting_type meeting.2 = Js.lit "business")
           sortedMeetings in
  match last businessMeetings with
  | Some m => Some m
  | None => last sortedMeetings
  end.

(** A JavaScript [Map] as the list of its entries in the order of
    insertion: [get] finds the entry of a key, [set] replaces the value of
    a key where it stands or appends a new entry.  ([forEach] visits the
    entries in this order, and a sum of doubles depends on the order of
    its terms.) *)
Definition map_get {V} (m : list (uuid * V)) (k : uuid) : option V :=
  snd <$> List.find (λ kv : uuid * V, bool_decide (kv.1 = k)) m.

Fixpoint map_set {V} (m : list (uuid * V)) (k : uuid) (v : V) : list (uuid * V) :=
  match m with
  | [] => [(k, v)]
  | kv :: m' =>
    if bool_decide (kv.1 = k) then (k, v) :: m' else kv :: map_set m' k v
  end.

(** The loop over [yearAttendance]: per active member, the rows counted
    and the rows with status present. *)
Definition year_entry (activeMemberSet : gset uuid)
    (m : list (uuid * (nat * nat))) (entry : Attendance.Row)
    : list (uuid * (nat * nat)) :=
  match Attendance.member_id entry with
  | None => m
  | Some memberId =>
    if bool_decide (memberId ∈ activeMemberSet) then
      let stats := default (0, 0)%nat (map_get m memberId) in
      let total := (stats.2 + 1)%nat in
      let present_ :=
        if bool_decide (Attendance.status entry = present)
        then (stats.1 + 1)%nat else stats.1 in
      map_set m memberId (present_, total)
    else m
  end.

(** [memberAverages]: one percentage per member with at least one row, in
    the order of the [Map]. *)
Definition memberAverages (m : list (uuid * (nat * nat))) : list number :=
  omap (λ kv : uuid * (nat * nat),
          let '(present_, total) := kv.2 in
          if (0 <? total)%nat
          then Some (mul (div (of_nat present_) (of_nat total)) (of_Z 100))
          else None)
       m.

(** The variables of [fetchMembershipStats] as they stand at its [return]. *)
Record Locals := {
  l_activeMembers : nat;
  l_pipelinersCount : option nat;
  l_meetingAttendanceCount : nat;
  l_meetingAttendancePercentage : number;
  l_attendedLastMeeting : nat;
  l_pipelinerPresentTotal : nat;
  l_pipelinerAttendanceRate : number;
  l_yearlyAverageAttendance : number;
}.

(** The [if (monthMeetingIds.length > 0)] block: the five variables it
    assigns. *)
Definition month_block (activeMembers : nat) (pipelinersCount : option nat)
    (monthMeetingRecords : list (uuid * Meeting.Row))
    (monthAttendance : list Attendance.Row)
    : nat * number * nat * nat * number :=
  let monthMeetingIds := monthMeetingRecords.*1 in
  let t := month_tally monthAttendance in
  let meetingAttendanceCount := size (uniqueMonthlyAttendees t) in
  let meetingAttendancePercentage :=
    if (0 <? activeMembers)%nat
    then mul (div (of_nat (size (uniqueMonthlyAttendees t))) (of_nat activeMembers))
             (of_Z 100)
    else of_Z 0 in
  let pipelinerPresentTotal := sum_values (pipelinerMonthlyAttendance t) in
  let pipelinerAttendanceRate :=
    match pipelinersCount with
    | Some count =>
      if (0 <? count)%nat
      then mul (div (of_nat pipelinerPresentTotal)
                    (mul (of_nat count) (of_nat (length monthMeetingIds))))
               (of_Z 100)
      else of_Z 0
    | None => of_Z 0
    end in
  let attendedLastMeeting :=
    match lastMeeting monthMeetingRecords with
    | Some meeting => default 0%nat (size <$> attendanceByMeeting t !! meeting.1)
    | None => 0%nat
    end in
  (meetingAttendanceCount, meetingAttendancePercentage, attendedLastMeeting,
   pipelinerPresentTotal, pipelinerAttendanceRate).

(** The [if (yearMeetingIds.length > 0)] block. *)
Definition year_block (activeMemberSet : gset uuid)
    (yearAttendance : list Attendance.Row) : number :=
  let memberAttendanceMap := foldl (year_entry activeMemberSet) [] yearAttendance in
  let averages := memberAverages memberAttendanceMap in
  if (0 <? length averages)%nat
  then div (foldl add (of_Z 0) averages) (of_nat (length averages))
  else of_Z 0.

(** [yearRangeEnd] *)
Definition yearRangeEnd (w : Window) : date :=
  if (monthEnd w <? todayString w)%N then monthEnd w else todayString w.

(** The year's meetings kept by the filter: dated before today, or today.
    (The filter compares a local midnight with a UTC midnight; whatever
    the zone, that holds for the days before today and fails for the days
    after.) *)
Definition filteredYearMeetings (w : Window) (yearMeetings : list (uuid * Meeting.Row))
    : list (uuid * Meeting.Row) :=
  filter (λ meeting : uuid * Meeting.Row,
            (Meeting.meeting_date meeting.2 < todayString w)%N
            ∨ Meeting.meeting_date meeting.2 = todayString w)
         yearMeetings.

(** [fetchMembershipStats] up to its [return] statement. *)
Definition fetchLocals (f : Faults) (w : Window) (db : Database) : result Locals :=
  activeMemberIds ← supabase (activeMembersError f) (Ok (select_active_members db));
  pipelinersCount ← supabase (pipelinersError f)
                       (Ok (if count_missing f then None
                            else Some (count_active_pipeliners db)));
  let activeMembers := length activeMemberIds in
  let activeMemberSet : gset uuid := list_to_set activeMemberIds in
  monthMeetingRecords ← supabase (monthMeetingsError f)
                          (Ok (select_meetings (monthStart w) (monthEnd w) db));
  yearMeetings ← supabase (yearMeetingsError f)
                   (Ok (select_meetings (yearStart w) (yearRangeEnd w) db));
  let yearMeetingIds := (filteredYearMeetings w yearMeetings).*1 in
  let monthMeetingIds := monthMeetingRecords.*1 in
  '(meetingAttendanceCount, meetingAttendancePercentage, attendedLastMeeting,
    pipelinerPresentTotal, pipelinerAttendanceRate) ←
    (if (0 <? length monthMeetingIds)%nat then
       monthAttendance ← supabase (monthAttendanceError f)
                           (Ok (select_month_attendance monthMeetingIds db));
       Ok (month_block activeMembers pipelinersCount monthMeetingRecords
                       monthAttendance)
     else Ok (0%nat, of_Z 0, 0%nat, 0%nat, of_Z 0));
  yearlyAverageAttendance ←
    (if (0 <? length yearMeetingIds)%nat then
       yearAttendance ← supabase (yearAttendanceError f)
                          (Ok (select_year_attendance yearMeetingIds db));
       Ok (year_block activeMemberSet yearAttendance)
     else Ok (of_Z 0));
  Ok {| l_activeMembers := activeMembers;
        l_pipelinersCount := pipelinersCount;
        l_meetingAttendanceCount := meetingAttendanceCount;
        l_meetingAttendancePercentage := meetingAttendancePercentage;
        l_attendedLastMeeting := attendedLastMeeting;
        l_pipelinerPresentTotal := pipelinerPresentTotal;
        l_pipelinerAttendanceRate := pipelinerAttendanceRate;
        l_yearlyAverageAttendance := yearlyAverageAttendance |}.

(** The object [fetchMembershipStats] returns. *)
Definition stats_of (l : Locals) : MembershipStats.t :=
  {| MembershipStats.activeMembers := l_activeMembers l;
     MembershipStats.attendedLastMeeting := l_attendedLastMeeting l;
     MembershipStats.attendanceRate :=
       roundToTwoDecimals (l_meetingAttendancePercentage l);
     MembershipStats.yearlyAverage :=
       roundToTwoDecimals (l_yearlyAverageAttendance l);
     MembershipStats.pipelinerPresentCount := l_pipelinerPresentTotal l;
     MembershipStats.pipelinerAttendanceRate :=
       roundToTwoDecimals (l_pipelinerAttendanceRate l);
     MembershipStats.pipeliners := default 0%nat (l_pipelinersCount l);
     MembershipStats.meetingAttendanceCount := l_meetingAttendanceCount l;
     MembershipStats.meetingAttendancePercentage :=
       roundToTwoDecimals (l_meetingAttendancePercentage l) |}.

(** [fetchMembershipStats] *)
Definition fetchMembershipStats (f : Faults) (w : Window) (db : Database)
    : result MembershipStats.t :=
  l ← fetchLocals f w db; Ok (stats_of l).

End membershipStats.

(* ===================================================================== *)
(** ** Sequences of operations *)
(* ===================================================================== *)

#[global] Instance GuestMeetingCounts_eq_dec : EqDecision GuestMeetingCounts.Row.
Proof. solve_decision. Defined.

(** The writes of the application and of its administrators: statements
    on the two ledgers, with the timestamp the triggers stamp, and the
    client's workflows. *)
Inductive Operation :=
| attendance_inserted (now : timestamp) (i : uuid) (r : Attendance.Row)
| attendance_updated (now : timestamp) (i : uuid) (r : Attendance.Row)
| attendance_deleted (now : timestamp) (i : uuid)
| charity_event_inserted (now : timestamp) (i : uuid) (r : CharityEvent.Row)
| charity_event_updated (now : timestamp) (i : uuid) (r : CharityEvent.Row)
| charity_event_deleted (now : timestamp) (i : uuid)
| guest_promoted (guest : GuestMeetingCounts.Row) (sponsorId : uuid) (notes : text)
                 (env : Environment)
| pipeliner_created (values : usePipeliners.PipelinerFormValues) (env : Environment)
| pipeliner_updated (id : uuid) (values : usePipeliners.PipelinerFormValues)
                    (env : Environment)
| pipeliner_promoted (cached : list PipelinerEligibility.Row) (pipelinerId : uuid)
                     (payload : usePipeliners.PromotePipelinerToMemberPayload)
                     (env : Environment).

Definition completed {A} (r : result A) : option A :=
  match r with Ok a => Some a | Err _ => None end.

Section operations.
Context `{PipelinerEligibilityLib}.

(** The database after an operation that completed without error. *)
Definition perform (op : Operation) (db : Database) : option Database :=
  match op with
  | attendance_inserted now i r => completed (attendance_insert now i r db)
  | attendance_updated now i r => completed (attendance_update now i r db)
  | attendance_deleted now i => completed (attendance_delete now i db)
  | charity_event_inserted now i r => completed (charity_events_insert now i r db)
  | charity_event_updated now i r => completed (charity_events_update now i r db)
  | charity_event_deleted now i => completed (charity_events_delete now i db)
  | guest_promoted guest sponsorId notes env =>
    match PromoteToPipelinerDialog.handleConfirm (Some guest) (Some sponsorId)
            notes env db with
    | (Done _, db') => Some db'
    | _ => None
    end
  | pipeliner_created values env => completed (usePipeliners.createPipeliner values env db)
  | pipeliner_updated id values env =>
    completed (usePipeliners.updatePipeliner id values env db)
  | pipeliner_promoted cached pipelinerId payload env =>
    match usePipeliners.promotePipelinerToMember cached pipelinerId payload env db with
    | (inr _, db') => Some db'
    | _ => None
    end
  end.

Fixpoint run (ops : list Operation) (db : Database) : option Database :=
  match ops with
  | [] => Some db
  | op :: ops' => db1 ← perform op db; run ops' db1
  end.

(** Every operation of the sequence satisfies [scope] in the database it
    starts from. *)
Fixpoint within (scope : Database → Operation → bool) (ops : list Operation)
    (db : Database) : bool :=
  match ops with
  | [] => true
  | op :: ops' =>
    scope db op
    && match perform op db with
       | Some db1 => within scope ops' db1
       | None => true
       end
  end.

End operations.

(** [guest.total_meetings == count(attendance where guest_id = guest.id
    and status = present)], for every guest. *)
Definition guest_counters_exact (db : Database) : Prop :=
  ∀ g r, guests db !! g = Some r →
         Guest.total_meetings r = guest_attendance_count db g (is_status present).

(** The operations under which [guest_counters_exact] is shown to last:
    an update of an attendance row may not take the row away from a guest
    and leave it with none; a promotion starts from a dialog whose copy of
    [total_meetings] is the stored one and at least 3. *)
Definition guest_scope (db : Database) (op : Operation) : bool :=
  match op with
  | attendance_updated _ i new =>
    match attendance db !! i with
    | Some old =>
      negb (bool_decide (is_Some (Attendance.guest_id old))
            && bool_decide (Attendance.guest_id new = None))
    | None => true
    end
  | guest_promoted guest _ _ _ =>
    match guests db !! GuestMeetingCounts.id guest with
    | Some r =>
      bool_decide (Guest.total_meetings r = GuestMeetingCounts.total_meetings guest)
      && (3 <=? GuestMeetingCounts.total_meetings guest)
    | None => true
    end
  | _ => true
  end.

(** The cached flag of a pipeliner that has not become a member agrees
    with its stored counters. *)
Definition eligibility_flags_exact (db : Database) : Prop :=
  ∀ p r, pipeliners db !! p = Some r →
         Pipeliner.status r ≠ Js.lit "became_member" →
         Pipeliner.is_eligible_for_membership r
         = meets_thresholds (Pipeliner.business_meetings_count r)
                            (Pipeliner.charity_events_count r).

Definition flag_agrees (r : Pipeliner.Row) : bool :=
  bool_decide (Pipeliner.status r = Js.lit "became_member")
  || eqb (Pipeliner.is_eligible_for_membership r)
         (meets_thresholds (Pipeliner.business_meetings_count r)
                           (Pipeliner.charity_events_count r)).

(** The operations under which [eligibility_flags_exact] is shown to last:
    a form that creates or edits a pipeliner must carry a flag that agrees
    with the counters it carries. *)
Definition flag_scope (db : Database) (op : Operation) : bool :=
  match op with
  | pipeliner_created values env =>
    flag_agrees (usePipeliners.normalizePipelinerPayload values (pg_now env))
  | pipeliner_updated _ values env =>
    flag_agrees (usePipeliners.normalizePipelinerPayload values (pg_now env))
  | _ => true
  end.

(** A row has exactly one of [member_id], [guest_id], [pipeliner_id]. *)
Definition one_subject (r : Attendance.Row) : bool :=
  match Attendance.member_id r, Attendance.guest_id r, Attendance.pipeliner_id r with
  | Some _, None, None | None, Some _, None | None, None, Some _ => true
  | _, _, _ => false
  end.

Definition all_one_subject (db : Database) : Prop :=
  map_Forall (λ _ r, one_subject r = true) (attendance db).

(** The operations that hand the store an attendance row with exactly one
    subject. *)
Definition subject_scope (db : Database) (op : Operation) : bool :=
  match op with
  | attendance_inserted _ _ r => one_subject r
  | attendance_updated _ _ r => one_subject r
  | _ => true
  end.

(** [rounded] is the finite number [raw] rounded to two decimals as
    [roundToTwoDecimals] does it: [p] is the double product of [raw] and
    100, [k] the integer nearest to [p] (halves upwards), and [rounded] the
    double quotient of [k] by 100, a finite number. *)
Definition rounded_to_two_decimals (raw rounded : JsNumber.number) : Prop :=
  ∃ (q p r : Qc) (k : Z),
    raw = JsNumber.finite q
    ∧ JsNumber.mul raw (JsNumber.of_Z 100) = JsNumber.finite p
    ∧ k = Qfloor (p + (1 # 2))
    ∧ rounded = JsNumber.div (JsNumber.of_Z k) (JsNumber.of_Z 100)
    ∧ rounded = JsNumber.finite r.

(* ===================================================================== *)
(** ** Example data *)
(* ===================================================================== *)

Module Ex.

Definition sponsor : Member.Row :=
  {| Member.full_name := Js.lit "Sam Sponsor";
     Member.email := Js.lit "sam@club.org";
     Member.phone := None;
     Member.member_number := Some (Js.lit "RT-001");
     Member.join_date := Js.lit "2020-01-15";
     Member.status := Js.lit "active" |}.

Definition meeting (d : date) : Meeting.Row :=
  {| Meeting.meeting_date := d; Meeting.meeting_type := Js.lit "business" |}.

Definition ann : Guest.Row :=
  {| Guest.full_name := Js.lit "Ann Guest";
     Guest.email := Some (Js.lit "ann@mail.org");
     Guest.phone := None;
     Guest.invited_by := Some 5%N;
     Guest.status := Js.lit "active";
     Guest.total_meetings := 0;
     Guest.updated_at := 0%N |}.

Definition bob (business charity : Z) (flag : bool) (status : string) : Pipeliner.Row :=
  {| Pipeliner.full_name := Js.lit "Bob Pipeliner";
     Pipeliner.email := Some (Js.lit "bob@mail.org");
     Pipeliner.phone := None;
     Pipeliner.promoted_from_guest_date := None;
     Pipeliner.guest_meetings_count := 3;
     Pipeliner.business_meetings_count := business;
     Pipeliner.charity_events_count := charity;
     Pipeliner.is_eligible_for_membership := flag;
     Pipeliner.status := Js.lit status;
     Pipeliner.sponsored_by := Some 5%N;
     Pipeliner.notes := None;
     Pipeliner.updated_at := 0%N |}.

(** One member (5), three meetings (1, 2, 3), the guest Ann (10) and the
    pipeliner Bob (20); both ledgers empty. *)
Definition db : Database :=
  {| members := {[ 5%N := sponsor ]};
     meetings := {[ 1%N := meeting 100%N; 2%N := meeting 107%N; 3%N := meeting 114%N ]};
     guests := {[ 10%N := ann ]};
     pipeliners := {[ 20%N := bob 0 0 false "active" ]};
     attendance := ∅;
     charity_events := ∅;
     guest_events := ∅ |}.

(** An attendance row of Ann. *)
Definition of_guest (m : uuid) (s : AttendanceStatus) : Attendance.Row :=
  {| Attendance.meeting_id := m; Attendance.member_id := None;
     Attendance.guest_id := Some 10%N; Attendance.pipeliner_id := None;
     Attendance.status := s; Attendance.notes := None |}.

(** An attendance row of Bob. *)
Definition of_pipeliner (m : uuid) (s : AttendanceStatus) : Attendance.Row :=
  {| Attendance.meeting_id := m; Attendance.member_id := None;
     Attendance.guest_id := None; Attendance.pipeliner_id := Some 20%N;
     Attendance.status := s; Attendance.notes := None |}.

(** An attendance row of the member. *)
Definition of_member (m : uuid) (s : AttendanceStatus) : Attendance.Row :=
  {| Attendance.meeting_id := m; Attendance.member_id := Some 5%N;
     Attendance.guest_id := None; Attendance.pipeliner_id := None;
     Attendance.status := s; Attendance.notes := None |}.

(** A row that names nobody, and a row that names two subjects. *)
Definition of_nobody (m : uuid) : Attendance.Row :=
  {| Attendance.meeting_id := m; Attendance.member_id := None;
     Attendance.guest_id := None; Attendance.pipeliner_id := None;
     Attendance.status := present; Attendance.notes := None |}.

Definition of_two (m : uuid) : Attendance.Row :=
  {| Attendance.meeting_id := m; Attendance.member_id := None;
     Attendance.guest_id := Some 10%N; Attendance.pipeliner_id := Some 20%N;
     Attendance.status := present; Attendance.notes := None |}.

(** An environment in which no call fails; the store hands out key 50. *)
Definition calm : Environment :=
  {| insert_fault := None; update_fault := None; delete_fault := None;
     generated_id := 50%N; today := 120%N; js_now := 121%N; pg_now := 122%N |}.

(** The same, but the second write of a promotion fails. *)
Definition second_write_fails : Environment :=
  {| insert_fault := None; update_fault := Some (store_failure 503);
     delete_fault := None;
     generated_id := 50%N; today := 120%N; js_now := 121%N; pg_now := 122%N |}.

(** Ann as the guests page shows her, with [n] meetings of which [p]
    attended, [e] guest events and the stored counter [t]. *)
Definition ann_view (status : string) (t n p e : Z) : GuestMeetingCounts.Row :=
  {| GuestMeetingCounts.id := 10%N;
     GuestMeetingCounts.full_name := Js.lit "Ann Guest";
     GuestMeetingCounts.email := Some (Js.lit "ann@mail.org");
     GuestMeetingCounts.phone := None;
     GuestMeetingCounts.invited_by := Some 5%N;
     GuestMeetingCounts.status := Js.lit status;
     GuestMeetingCounts.total_meetings := t;
     GuestMeetingCounts.updated_at := 0%N;
     GuestMeetingCounts.meeting_count := n;
     GuestMeetingCounts.present_count := p;
     GuestMeetingCounts.apology_count := n - p;
     GuestMeetingCounts.absent_count := 0;
     GuestMeetingCounts.event_count := e;
     GuestMeetingCounts.eligible_for_pipeliner := meets_thresholds p e |}.

(** Three attended meetings, promotion, then one attendance row removed. *)
Definition guest_history : list Operation :=
  [ attendance_inserted 101%N 100%N (of_guest 1%N present);
    attendance_inserted 108%N 101%N (of_guest 2%N apology);
    attendance_updated 109%N 101%N (of_guest 2%N present);
    attendance_inserted 115%N 102%N (of_guest 3%N present);
    guest_promoted (ann_view "active" 3 3 3 0) 5%N (Js.lit "keen") calm;
    attendance_deleted 130%N 100%N ].

(** The database with one attended meeting of Ann on record. *)
Definition db_one_present : Database :=
  match attendance_insert 101%N 100%N (of_guest 1%N present) db with
  | Ok db1 => db1
  | Err _ => db
  end.

(** Bob as the pipeliners page shows him. *)
Definition bob_view (business charity : Z) (flag : bool) (status : string)
    : PipelinerEligibility.Row :=
  {| PipelinerEligibility.id := 20%N;
     PipelinerEligibility.full_name := Js.lit "Bob Pipeliner";
     PipelinerEligibility.email := Some (Js.lit "bob@mail.org");
     PipelinerEligibility.phone := None;
     PipelinerEligibility.promoted_from_guest_date := None;
     PipelinerEligibility.guest_meetings_count := 3;
     PipelinerEligibility.business_meetings_count := business;
     PipelinerEligibility.charity_events_count := charity;
     PipelinerEligibility.is_eligible_for_membership := flag;
     PipelinerEligibility.status := Js.lit status;
     PipelinerEligibility.sponsored_by := Some 5%N;
     PipelinerEligibility.notes := None;
     PipelinerEligibility.updated_at := 0%N;
     PipelinerEligibility.meeting_count := business;
     PipelinerEligibility.charity_event_count := charity;
     PipelinerEligibility.meets_requirements := meets_thresholds business charity |}.

(** The database with Bob at the given counters, flag and status. *)
Definition db_with_bob (business charity : Z) (flag : bool) (status : string)
    : Database :=
  set_pipeliners {[ 20%N := bob business charity flag status ]} db.

(** The promotion form: member number and join date. *)
Definition form (number : string) : usePipeliners.PromotePipelinerToMemberPayload :=
  {| usePipeliners.member_number := Js.lit number;
     usePipeliners.join_date := Js.lit "2024-05-01" |}.

(** A charity event with Bob among its participants. *)
Definition fun_run : CharityEvent.Row :=
  {| CharityEvent.event_name := Js.lit "Fun run";
     CharityEvent.event_date := 110%N;
     CharityEvent.participant_ids := Some [5%N; 20%N] |}.

(** An edit form for Bob that leaves every optional field out. *)
Definition bare_form : usePipeliners.PipelinerFormValues :=
  {| usePipeliners.full_name := Js.lit " Bob Pipeliner ";
     usePipeliners.email := Some (Js.lit "bob@mail.org");
     usePipeliners.phone := None;
     usePipeliners.promoted_from_guest_date := None;
     usePipeliners.guest_meetings_count := None;
     usePipeliners.business_meetings_count := None;
     usePipeliners.charity_events_count := None;
     usePipeliners.is_eligible_for_membership := None;
     usePipeliners.status := None;
     usePipeliners.sponsored_by := Some 5%N;
     usePipeliners.notes := None |}.

(** Bob attends three meetings and a charity event, his record is edited,
    and he is promoted to member. *)
Definition pipeliner_history : list Operation :=
  [ attendance_inserted 101%N 100%N (of_pipeliner 1%N present);
    attendance_inserted 108%N 101%N (of_pipeliner 2%N present);
    attendance_inserted 115%N 102%N (of_pipeliner 3%N present);
    charity_event_inserted 116%N 200%N fun_run;
    pipeliner_updated 20%N bare_form calm;
    attendance_updated 117%N 102%N (of_pipeliner 3%N present);
    pipeliner_promoted [bob_view 3 1 true "active"] 20%N (form "RT-099") calm ].

(** The database in which Ann is an inactive guest. *)
Definition db_inactive_ann : Database :=
  set_guests
    {[ 10%N := {| Guest.full_name := Js.lit "Ann Guest";
                  Guest.email := Some (Js.lit "ann@mail.org");
                  Guest.phone := None;
                  Guest.invited_by := Some 5%N;
                  Guest.status := Js.lit "inactive";
                  Guest.total_meetings := 0;
                  Guest.updated_at := 0%N |} ]}
    db.

(** A guest event of Ann. *)
Definition bake_sale : GuestEvent.Row :=
  {| GuestEvent.guest_id := 10%N;
     GuestEvent.event_name := Js.lit "Bake sale";
     GuestEvent.event_date := 105%N |}.

(** Ann with exactly three present attendances and exactly one event. *)
Definition db_three_and_one : Database :=
  {| members := members db; meetings := meetings db; guests := guests db;
     pipeliners := pipeliners db;
     attendance := {[ 100%N := of_guest 1%N present; 101%N := of_guest 2%N present;
                      102%N := of_guest 3%N present ]};
     charity_events := ∅;
     guest_events := {[ 300%N := bake_sale ]} |}.

(** Ann with two present attendances (and an apology) and two events. *)
Definition db_two_and_two : Database :=
  {| members := members db; meetings := meetings db; guests := guests db;
     pipeliners := pipeliners db;
     attendance := {[ 100%N := of_guest 1%N present; 101%N := of_guest 2%N present;
                      102%N := of_guest 3%N apology ]};
     charity_events := ∅;
     guest_events := {[ 300%N := bake_sale; 301%N := bake_sale ]} |}.

(** Bob with three present attendances and one charity event, and with two
    present attendances and two charity events. *)
Definition db_bob_three_and_one : Database :=
  {| members := members db; meetings := meetings db; guests := guests db;
     pipeliners := pipeliners db;
     attendance := {[ 100%N := of_pipeliner 1%N present;
                      101%N := of_pipeliner 2%N present;
                      102%N := of_pipeliner 3%N present ]};
     charity_events := {[ 200%N := fun_run ]};
     guest_events := ∅ |}.

Definition db_bob_two_and_two : Database :=
  {| members := members db; meetings := meetings db; guests := guests db;
     pipeliners := pipeliners db;
     attendance := {[ 100%N := of_pipeliner 1%N present;
                      101%N := of_pipeliner 2%N present;
                      102%N := of_pipeliner 3%N absent ]};
     charity_events := {[ 200%N := fun_run; 201%N := fun_run ]};
     guest_events := ∅ |}.

(** A second environment: the store hands out key 51. *)
Definition calm_again : Environment :=
  {| insert_fault := None; update_fault := None; delete_fault := None;
     generated_id := 51%N; today := 127%N; js_now := 128%N; pg_now := 129%N |}.

(** A second member, and a club with two members, three meetings this
    month and a pipeliner, with some attendance on record. *)
Definition second_member : Member.Row :=
  {| Member.full_name := Js.lit "Mia Member";
     Member.email := Js.lit "mia@club.org";
     Member.phone := None;
     Member.member_number := Some (Js.lit "RT-002");
     Member.join_date := Js.lit "2021-03-01";
     Member.status := Js.lit "active" |}.

Definition of_second_member (m : uuid) (s : AttendanceStatus) : Attendance.Row :=
  {| Attendance.meeting_id := m; Attendance.member_id := Some 6%N;
     Attendance.guest_id := None; Attendance.pipeliner_id := None;
     Attendance.status := s; Attendance.notes := None |}.

Definition club : Database :=
  {| members := {[ 5%N := sponsor; 6%N := second_member ]};
     meetings := meetings db; guests := guests db; pipeliners := pipeliners db;
     attendance := {[ 100%N := of_member 1%N present; 101%N := of_member 2%N absent;
                      102%N := of_second_member 1%N present;
                      103%N := of_pipeliner 1%N present;
                      104%N := of_pipeliner 2%N present ]};
     charity_events := ∅; guest_events := ∅ |}.

(** The month runs from day 100 to day 130, the year starts at day 1 and
    today is day 120. *)
Definition this_month : membershipStats.Window :=
  {| membershipStats.monthStart := 100%N; membershipStats.monthEnd := 130%N;
     membershipStats.yearStart := 1%N; membershipStats.todayString := 120%N |}.

Definition no_faults : membershipStats.Faults :=
  {| membershipStats.activeMembersError := None;
     membershipStats.pipelinersError := None;
     membershipStats.count_missing := false;
     membershipStats.monthMeetingsError := None;
     membershipStats.yearMeetingsError := None;
     membershipStats.monthAttendanceError := None;
     membershipStats.yearAttendanceError := None |}.

End Ex.

(* ===================================================================== *)
(** ** More of the schema: meetings and the member view *)
(* ===================================================================== *)

Definition set_meetings (t : gmap uuid Meeting.Row) (db : Database) : Database :=
  {| members := members db; meetings := t; guests := guests db;
     pipeliners := pipeliners db; attendance := attendance db;
     charity_events := charity_events db; guest_events := guest_events db |}.

(** [delete from meetings where id = i]; the attendance rows of the meeting
    go with it ([meeting_id ... on delete cascade]). *)
Definition meetings_delete (now : timestamp) (i : uuid) (db : Database)
    : result Database :=
  match meetings db !! i with
  | None => Ok db
  | Some _ =>
    Ok (attendance_cascade now
          (λ a, bool_decide (Attendance.meeting_id a = i))
          (set_meetings (delete i (meetings db)) db))
  end.

Module MemberAttendanceSummary.
(** The computed columns of a row of the view [member_attendance_summary]
    (the others repeat the member). *)
Record Row := {
  total_meetings : Z;
  present_count : Z;
  apology_count : Z;
  absent_count : Z;
  last_meeting_date : option date;
}.
End MemberAttendanceSummary.

(** [member_stats]: the attendance rows of one member whose meeting is on
    record ([join meetings m on m.id = a.meeting_id]), by status. *)
Definition member_attendance_count (db : Database) (m : uuid)
    (c : AttendanceStatus → bool) : Z :=
  count_where
    (λ a, bool_decide (Attendance.member_id a = Some m)
          && bool_decide (is_Some (meetings db !! Attendance.meeting_id a))
          && c (Attendance.status a))
    (attendance db).

(** [max(m.meeting_date)] over the joined rows of the member; [NULL] when
    there is none. *)
Definition member_last_meeting_date (db : Database) (m : uuid) : option date :=
  map_fold
    (λ _ a latest,
       if bool_decide (Attendance.member_id a = Some m) then
         match meetings db !! Attendance.meeting_id a with
         | Some meeting =>
           Some (match latest with
                 | Some d => N.max d (Meeting.meeting_date meeting)
                 | None => Meeting.meeting_date meeting
                 end)
         | None => latest
         end
       else latest)
    None (attendance db).

(** [create view member_attendance_summary]: the computed columns for the
    member [m]. *)
Definition member_attendance_summary_row (db : Database) (m : uuid)
    : MemberAttendanceSummary.Row :=
  {| MemberAttendanceSummary.total_meetings := member_attendance_count db m (λ _, true);
     MemberAttendanceSummary.present_count :=
       member_attendance_count db m (is_status present);
     MemberAttendanceSummary.apology_count :=
       member_attendance_count db m (is_status apology);
     MemberAttendanceSummary.absent_count :=
       member_attendance_count db m (is_status absent);
     MemberAttendanceSummary.last_meeting_date := member_last_meeting_date db m |}.

(* ===================================================================== *)
(** ** usePipeliners and useMeetings: deletions *)
(* ===================================================================== *)

(** [deletePipeliner] of [usePipeliners]: the delete, then the row is
    dropped from [state.pipeliners]. *)
Definition deletePipeliner (cached : list PipelinerEligibility.Row) (id : uuid)
    (env : Environment) (db : Database)
    : result (list PipelinerEligibility.Row * Database) :=
  db' ← supabase (delete_fault env) (pipeliners_delete (pg_now env) id db);
  Ok (filter (λ pipeliner, PipelinerEligibility.id pipeliner ≠ id) cached, db').

(* ===================================================================== *)
(** ** useMeetings *)
(* ===================================================================== *)

Module MeetingAttendanceSummary.
(** [MeetingAttendanceSummary] *)
Record t := {
  total : nat;
  present : nat;
  apology : nat;
  absent : nat;
}.
End MeetingAttendanceSummary.

Module useMeetings.

(** [MeetingRecord]: a meeting with its key and its summary. *)
Record MeetingRecord := {
  id : uuid;
  meeting : Meeting.Row;
  attendanceSummary : MeetingAttendanceSummary.t;
}.

Definition no_attendance : MeetingAttendanceSummary.t :=
  {| MeetingAttendanceSummary.total := 0;
     MeetingAttendanceSummary.present := 0;
     MeetingAttendanceSummary.apology := 0;
     MeetingAttendanceSummary.absent := 0 |}.

(** [coerceMeeting] *)
Definition coerceMeeting (i : uuid) (m : Meeting.Row) : MeetingRecord :=
  {| id := i; meeting := m; attendanceSummary := no_attendance |}.

(** [mergeAttendanceSummaries] *)
Definition mergeAttendanceSummaries (meetings : list MeetingRecord)
    (summaries : gmap uuid MeetingAttendanceSummary.t) : list MeetingRecord :=
  (λ meeting,
     {| id := id meeting;
        meeting := useMeetings.meeting meeting;
        attendanceSummary :=
          default (attendanceSummary meeting) (summaries !! id meeting) |})
  <$> meetings.

(** One step of the [reduce] of [enrichAttendance]: the row is counted in
    the summary of its meeting. *)
Definition count_row (acc : gmap uuid MeetingAttendanceSummary.t)
    (row : uuid * AttendanceStatus) : gmap uuid MeetingAttendanceSummary.t :=
  let existing := default no_attendance (acc !! row.1) in
  let bump (s : AttendanceStatus) (n : nat) : nat :=
    if bool_decide (row.2 = s) then S n else n in
  <[row.1 :=
      {| MeetingAttendanceSummary.total := S (MeetingAttendanceSummary.total existing);
         MeetingAttendanceSummary.present :=
           bump present (MeetingAttendanceSummary.present existing);
         MeetingAttendanceSummary.apology :=
           bump apology (MeetingAttendanceSummary.apology existing);
         MeetingAttendanceSummary.absent :=
           bump absent (MeetingAttendanceSummary.absent existing) |}]>
    acc.

(** The [reduce]: the summaries of the rows [data]. *)
Definition summarize (data : list (uuid * AttendanceStatus))
    : gmap uuid MeetingAttendanceSummary.t :=
  foldl count_row ∅ data.

(** [from("attendance").select("meeting_id, status").in("meeting_id", ids)] *)
Definition select_attendance_of (ids : list uuid) (db : Database)
    : list (uuid * AttendanceStatus) :=
  (λ kv : uuid * Attendance.Row,
     (Attendance.meeting_id kv.2, Attendance.status kv.2))
  <$> map_to_list
        (filter (λ kv : uuid * Attendance.Row, Attendance.meeting_id kv.2 ∈ ids)
                (attendance db)).

(** [enrichAttendance]: no record, no query; a failed query is logged and
    the records come back as they are. *)
Definition enrichAttendance (fault : option PgError) (records : list MeetingRecord)
    (db : Database) : list MeetingRecord :=
  match records with
  | [] => records
  | _ =>
    match supabase fault (Ok (select_attendance_of (id <$> records) db)) with
    | Ok data => mergeAttendanceSummaries records (summarize data)
    | Err _ => records
    end
  end.

(** [deleteMeeting]: the delete, then the meeting is dropped from
    [state.meetings]. *)
Definition deleteMeeting (cached : list MeetingRecord) (i : uuid)
    (env : Environment) (db : Database) : result (list MeetingRecord * Database) :=
  db' ← supabase (delete_fault env) (meetings_delete (pg_now env) i db);
  Ok (filter (λ meeting, id meeting ≠ i) cached, db').

End useMeetings.

(* ===================================================================== *)
(** ** useCharityEvents *)
(* ===================================================================== *)

Module useCharityEvents.

(** [CharityEventFormValues].  An element of the two arrays is the text of
    a key, or the empty string ([None]), which is the one string that
    [filter(Boolean)] drops. *)
Record CharityEventFormValues := {
  event_name : text;
  event_date : date;
  description : option text;
  participant_member_ids : option (list (option uuid));
  participant_pipeliner_ids : option (list (option uuid));
}.

(** [Array.from(new Set(l))]: the elements of [l] in the order of their
    first occurrence. *)
Fixpoint unique_in_order (seen : list uuid) (l : list uuid) : list uuid :=
  match l with
  | [] => []
  | x :: l' =>
    if bool_decide (x ∈ seen) then unique_in_order seen l'
    else x :: unique_in_order (x :: seen) l'
  end.

(** [normalizeCharityEventPayload]; the [description] is not a column of
    the modelled row. *)
Definition normalizeCharityEventPayload (values : CharityEventFormValues)
    : CharityEvent.Row :=
  let participantIds :=
    omap (λ i : option uuid, i)
         (default [] (participant_member_ids values)
          ++ default [] (participant_pipeliner_ids values)) in
  let uniqueParticipants := unique_in_order [] participantIds in
  {| CharityEvent.event_name := Js.trim (event_name values);
     CharityEvent.event_date := event_date values;
     CharityEvent.participant_ids :=
       if (0 <? length uniqueParticipants)%nat then Some uniqueParticipants
       else None |}.

(** [createEvent] *)
Definition createEvent (values : CharityEventFormValues) (env : Environment)
    (db : Database) : result Database :=
  supabase (insert_fault env)
    (charity_events_insert (pg_now env) (generated_id env)
       (normalizeCharityEventPayload values) db).

(** [updateEvent].  [.single()] turns an update that matched no row into
    the error PGRST116; the database is then as it was. *)
Definition updateEvent (i : uuid) (values : CharityEventFormValues)
    (env : Environment) (db : Database) : result Database :=
  db' ← supabase (update_fault env)
          (charity_events_update (pg_now env) i
             (normalizeCharityEventPayload values) db);
  if bool_decide (is_Some (charity_events db !! i)) then Ok db'
  else Err (store_failure 116).

End useCharityEvents.

(* ===================================================================== *)
(** ** PromoteToMemberDialog: the badge *)
(* ===================================================================== *)

(** [formatStatusBadge] *)
Definition formatStatusBadge `{PipelinerEligibilityLib}
    (pipeliner : option PipelinerEligibility.Row) : string :=
  match pipeliner with
  | None => "Status Unknown"
  | Some pipeliner =>
    if bool_decide (PipelinerEligibility.status pipeliner = Js.lit "became_member")
    then "Became Member"
    else if hasMetMembershipRequirements pipeliner
            || PipelinerEligibility.is_eligible_for_membership pipeliner
    then "Eligible for Membership"
    else "Active"
  end.

(* ===================================================================== *)
(** ** Statements of the further properties *)
(* ===================================================================== *)

(** The stored counters of every pipeliner are the ledgers' counts. *)
Definition pipeliner_counters_exact_at (db : Database) (p : uuid) : Prop :=
  ∀ r, pipeliners db !! p = Some r →
       Pipeliner.business_meetings_count r = pipeliner_present_count db p
       ∧ Pipeliner.charity_events_count r = charity_event_count_of db p.

Definition pipeliner_counters_exact (db : Database) : Prop :=
  ∀ p, pipeliner_counters_exact_at db p.

Definition guest_counter_exact_at (db : Database) (g : uuid) : Prop :=
  ∀ r, guests db !! g = Some r →
       Guest.total_meetings r = guest_attendance_count db g (is_status present).

(** The operations that write the ledgers, and the promotion to member,
    which leaves the counters alone; an update of an attendance row may
    not take the row away from a pipeliner and leave it with none. *)
Definition pipeliner_scope (db : Database) (op : Operation) : bool :=
  match op with
  | attendance_inserted _ _ _ | attendance_deleted _ _
  | charity_event_inserted _ _ _ | charity_event_updated _ _ _
  | charity_event_deleted _ _ | pipeliner_promoted _ _ _ _ => true
  | attendance_updated _ i new =>
    match attendance db !! i with
    | Some old =>
      negb (bool_decide (is_Some (Attendance.pipeliner_id old))
            && bool_decide (Attendance.pipeliner_id new = None))
    | None => true
    end
  | _ => false
  end.

(** The attendance rows of the meeting [m] whose status satisfies [c]. *)
Definition meeting_attendance_count (db : Database) (m : uuid)
    (c : AttendanceStatus → bool) : Z :=
  count_where (λ a, bool_decide (Attendance.meeting_id a = m) && c (Attendance.status a))
              (attendance db).

(** The meeting is dated within the month of the window. *)
Definition in_month (w : membershipStats.Window) (meeting : Meeting.Row) : Prop :=
  (membershipStats.monthStart w ≤ Meeting.meeting_date meeting)%N
  ∧ (Meeting.meeting_date meeting ≤ membershipStats.monthEnd w)%N.

(** A present row of a meeting dated within the month of the window. *)
Definition present_in_month (w : membershipStats.Window) (db : Database)
    (a : Attendance.Row) : bool :=
  match meetings db !! Attendance.meeting_id a with
  | Some meeting =>
    bool_decide ((membershipStats.monthStart w ≤ Meeting.meeting_date meeting)%N
                 ∧ (Meeting.meeting_date meeting ≤ membershipStats.monthEnd w)%N)
    && bool_decide (Attendance.status a = present)
  | None => false
  end.

(** The two arrays of attendance rows that [fetchMembershipStats] is sent
    by the store: the present rows of the month's meetings and the member
    rows of the year's meetings. *)
Definition monthAttendance (w : membershipStats.Window) (db : Database)
    : list Attendance.Row :=
  membershipStats.select_month_attendance
    (membershipStats.select_meetings
       (membershipStats.monthStart w) (membershipStats.monthEnd w) db).*1 db.

Definition yearAttendance (w : membershipStats.Window) (db : Database)
    : list Attendance.Row :=
  membershipStats.select_year_attendance
    (membershipStats.filteredYearMeetings w
       (membershipStats.select_meetings
          (membershipStats.yearStart w) (membershipStats.yearRangeEnd w) db)).*1 db.

(** A list that a JavaScript array can hold: the length of an array is
    below [2^32]. *)
Definition is_array {A} (l : list A) : Prop := Z.of_nat (length l) < 2 ^ 32.

(** A finite number between 0 and the integer [bound]. *)
Definition up_to (bound : Z) (x : JsNumber.number) : Prop :=
  ∃ r : Qc, x = JsNumber.finite r ∧ (0 <= r)%Q ∧ (r <= inject_Z bound)%Q.

(** A number that is infinite or at least 1: what a divisor made of
    positive counts is. *)
Definition at_least_one (x : JsNumber.number) : Prop :=
  x = JsNumber.infinity false ∨ ∃ r : Qc, x = JsNumber.finite r ∧ (1 <= r)%Q.

(** A stored text that is as [trim] leaves it, and not empty. *)
Definition clean_text (field : option Js.text) : Prop :=
  ∀ s, field = Some s → s ≠ [] ∧ Js.trim s = s.

(** The value of a form field is missing or blank. *)
Definition blank (v : option Js.text) : Prop :=
  ∀ s, v = Some s → Js.trim s = [].

(** No participant array lists an id twice. *)
Definition participants_distinct (db : Database) : Prop :=
  map_Forall (λ _ e, NoDup (participants e)) (charity_events db).

(** One attendance row per meeting and subject: what the three partial
    unique indexes stand for. *)
Definition one_row_per_subject (db : Database) : Prop :=
  ∀ i j a b, attendance db !! i = Some a → attendance db !! j = Some b →
             i ≠ j → same_meeting_subject a b = false.

(* ===================================================================== *)
(** ** More example data *)
(* ===================================================================== *)

Module Ex2.

(** Bob attends three meetings and a charity event, one of his rows is
    turned into an apology and back, and he is promoted to member. *)
Definition ledger_history : list Operation :=
  [ attendance_inserted 101%N 100%N (Ex.of_pipeliner 1%N present);
    attendance_inserted 108%N 101%N (Ex.of_pipeliner 2%N present);
    attendance_inserted 115%N 102%N (Ex.of_pipeliner 3%N present);
    charity_event_inserted 116%N 200%N Ex.fun_run;
    attendance_updated 117%N 102%N (Ex.of_pipeliner 3%N apology);
    attendance_updated 118%N 102%N (Ex.of_pipeliner 3%N present);
    pipeliner_promoted [Ex.bob_view 3 1 true "active"] 20%N (Ex.form "RT-099")
                       Ex.calm ].

(** The database after Bob's first attended meeting. *)
Definition db_bob_attends : Database :=
  match attendance_insert 101%N 100%N (Ex.of_pipeliner 1%N present) Ex.db with
  | Ok db1 => db1
  | Err _ => Ex.db
  end.

(** The form of a charity event on which Bob is ticked twice and one
    entry is empty. *)
Definition event_form : useCharityEvents.CharityEventFormValues :=
  {| useCharityEvents.event_name := Js.lit " Fun run ";
     useCharityEvents.event_date := 116%N;
     useCharityEvents.description := None;
     useCharityEvents.participant_member_ids := None;
     useCharityEvents.participant_pipeliner_ids :=
       Some [Some 20%N; None; Some 20%N] |}.

(** The same event with nobody ticked. *)
Definition empty_event_form : useCharityEvents.CharityEventFormValues :=
  {| useCharityEvents.event_name := Js.lit "Fun run";
     useCharityEvents.event_date := 116%N;
     useCharityEvents.description := None;
     useCharityEvents.participant_member_ids := Some [];
     useCharityEvents.participant_pipeliner_ids := None |}.

(** The database after the event of [event_form] was created. *)
Definition db_event_created : Database :=
  match useCharityEvents.createEvent event_form Ex.calm Ex.db with
  | Ok db1 => db1
  | Err _ => Ex.db
  end.

(** The database after everybody was taken off that event again. *)
Definition db_event_emptied : Database :=
  match useCharityEvents.updateEvent 50%N empty_event_form Ex.calm db_event_created with
  | Ok db1 => db1
  | Err _ => db_event_created
  end.

(** The database after the member, Ann and Bob were marked for meeting 1. *)
Definition db_full_meeting : Database :=
  match run (H := spec_lib)
          [ attendance_inserted 101%N 100%N (Ex.of_member 1%N present);
            attendance_inserted 102%N 101%N (Ex.of_guest 1%N apology);
            attendance_inserted 103%N 102%N (Ex.of_pipeliner 1%N present) ]
          Ex.db with
  | Some db1 => db1
  | None => Ex.db
  end.

(** An environment in which the insert goes through and both the update
    and the delete that follow fail. *)
Definition only_insert_works : Environment :=
  {| insert_fault := None; update_fault := Some (store_failure 503);
     delete_fault := Some (store_failure 504);
     generated_id := 50%N; today := 120%N; js_now := 121%N; pg_now := 122%N |}.

(** The meetings page's copy of meeting 1. *)
Definition first_meeting : useMeetings.MeetingRecord :=
  useMeetings.coerceMeeting 1%N (Ex.meeting 100%N).

End Ex2.

(* ===================================================================== *)
(** * Properties *)
(* ===================================================================== *)

(** ** Counting *)

Lemma count_where_agree {A} (c : A → bool) (t t' : gmap uuid A) :
  (∀ i x, c x = true → (t !! i = Some x ↔ t' !! i = Some x)) →
  count_where c t = count_where c t'.
Proof.
  intros Hagree. unfold count_where. do 2 f_equal.
  apply map_eq. intros i. apply option_eq. intros x.
  rewrite !map_lookup_filter_Some. simpl.
  split; intros [Hi Hx]; (split; [by apply (Hagree i x Hx)|done]).
Qed.

Lemma count_where_insert_out {A} (c : A → bool) (t : gmap uuid A) i r :
  c r = false →
  (∀ old, t !! i = Some old → c old = false) →
  count_where c (<[i := r]> t) = count_where c t.
Proof.
  intros Hr Hold. symmetry. apply count_where_agree. intros j x Hx.
  destruct (decide (i = j)) as [->|Hne].
  - rewrite lookup_insert_eq. split.
    + intros Hj. apply Hold in Hj. congruence.
    + intros [= ->]. congruence.
  - by rewrite lookup_insert_ne.
Qed.

Lemma count_where_delete_out {A} (c : A → bool) (t : gmap uuid A) i :
  (∀ old, t !! i = Some old → c old = false) →
  count_where c (delete i t) = count_where c t.
Proof.
  intros Hold. symmetry. apply count_where_agree. intros j x Hx.
  destruct (decide (i = j)) as [->|Hne].
  - rewrite lookup_delete_eq. split; [|done].
    intros Hj. apply Hold in Hj. congruence.
  - by rewrite lookup_delete_ne.
Qed.

Lemma count_where_nonneg {A} (c : A → bool) (t : gmap uuid A) :
  0 ≤ count_where c t.
Proof. unfold count_where. lia. Qed.

Lemma count_where_insert_fresh {A} (c : A → bool) (t : gmap uuid A) i x :
  t !! i = None →
  count_where c (<[i := x]> t) = count_where c t + (if c x then 1 else 0).
Proof.
  intros Hfree. unfold count_where. rewrite map_filter_insert.
  destruct (decide (c x = true)) as [Hx|Hx].
  - rewrite decide_True by done. rewrite Hx, map_size_insert_None; [lia|].
    apply map_lookup_filter_None. by left.
  - rewrite decide_False by done. rewrite delete_id by done.
    destruct (c x); [done|lia].
Qed.

Lemma count_where_empty {A} (c : A → bool) : count_where c (∅ : gmap uuid A) = 0.
Proof. unfold count_where. by rewrite map_filter_empty, map_size_empty. Qed.

(** A weaker condition counts at least as many rows. *)
Lemma count_where_le {A} (c1 c2 : A → bool) (t : gmap uuid A) :
  (∀ x, c1 x = true → c2 x = true) → count_where c1 t ≤ count_where c2 t.
Proof.
  intros Himp. induction t as [|i x t Hfree IH] using map_ind.
  - by rewrite !count_where_empty.
  - rewrite !count_where_insert_fresh by done.
    specialize (Himp x). destruct (c1 x), (c2 x); first [lia|by specialize (Himp eq_refl)].
Qed.

(** ** The trigger functions: what they touch *)

Lemma refresh_guest_attendance now g db :
  attendance (refresh_guest_meeting_count now g db) = attendance db.
Proof. by destruct g. Qed.

Lemma refresh_guest_pipeliners now g db :
  pipeliners (refresh_guest_meeting_count now g db) = pipeliners db.
Proof. by destruct g. Qed.

Lemma refresh_pipeliner_attendance now p db :
  attendance (refresh_pipeliner_eligibility now p db) = attendance db.
Proof. by destruct p. Qed.

Lemma refresh_pipeliner_guests now p db :
  guests (refresh_pipeliner_eligibility now p db) = guests db.
Proof. by destruct p. Qed.

Lemma refresh_pipeliner_charity_events now p db :
  charity_events (refresh_pipeliner_eligibility now p db) = charity_events db.
Proof. by destruct p. Qed.

Lemma refresh_guest_count now g db g' c :
  guest_attendance_count (refresh_guest_meeting_count now g db) g' c
  = guest_attendance_count db g' c.
Proof. unfold guest_attendance_count. by rewrite refresh_guest_attendance. Qed.

(** After the refresh the counter of the guest is the number of its
    present rows. *)
Lemma refresh_guest_sets now g db r :
  guests (refresh_guest_meeting_count now (Some g) db) !! g = Some r →
  Guest.total_meetings r = guest_attendance_count db g (is_status present).
Proof.
  simpl. rewrite lookup_alter_eq.
  destruct (guests db !! g); simpl; [|done]. by intros [= <-].
Qed.

Lemma refresh_guest_other now g db g' :
  g ≠ Some g' →
  guests (refresh_guest_meeting_count now g db) !! g' = guests db !! g'.
Proof.
  destruct g as [g|]; [|done]. intros Hne. simpl.
  apply lookup_alter_ne. congruence.
Qed.

Lemma update_guest_meeting_count_attendance now ev db :
  attendance (update_guest_meeting_count now ev db) = attendance db.
Proof.
  destruct ev; simpl; repeat case_match;
    by rewrite ?refresh_guest_attendance.
Qed.

Lemma update_pipeliner_eligibility_attendance now ev db :
  attendance (update_pipeliner_eligibility now ev db) = attendance db.
Proof.
  destruct ev; simpl; repeat case_match;
    by rewrite ?refresh_pipeliner_attendance.
Qed.

Lemma update_pipeliner_eligibility_guests now ev db :
  guests (update_pipeliner_eligibility now ev db) = guests db.
Proof.
  destruct ev; simpl; repeat case_match;
    by rewrite ?refresh_pipeliner_guests.
Qed.

Lemma attendance_row_triggers_attendance now ev db :
  attendance (attendance_row_triggers now ev db) = attendance db.
Proof.
  unfold attendance_row_triggers.
  by rewrite update_pipeliner_eligibility_attendance,
             update_guest_meeting_count_attendance.
Qed.

Lemma attendance_row_triggers_guests now ev db :
  guests (attendance_row_triggers now ev db)
  = guests (update_guest_meeting_count now ev db).
Proof. apply update_pipeliner_eligibility_guests. Qed.

(** A guest row after [update_guest_meeting_count]: either its counter was
    recomputed from the ledger, or the trigger passed it by. *)
Lemma update_guest_meeting_count_row now ev db g r :
  guests (update_guest_meeting_count now ev db) !! g = Some r →
  Guest.total_meetings r = guest_attendance_count db g (is_status present)
  ∨ (guests db !! g = Some r
     ∧ match ev with
       | INSERT new => Attendance.guest_id new ≠ Some g
       | UPDATE old new =>
         Attendance.guest_id new ≠ Some g
         ∧ (Attendance.guest_id old ≠ Some g ∨ Attendance.guest_id new = None)
       | DELETE old => Attendance.guest_id old ≠ Some g
       end).
Proof.
  destruct ev as [new|old new|old]; simpl.
  - destruct (Attendance.guest_id new) as [g'|]; simpl; [|by right].
    destruct (decide (g' = g)) as [->|Hne].
    + intros Hr. left. exact (refresh_guest_sets now _ db r Hr).
    + rewrite lookup_alter_ne by done. right. split; [done|congruence].
  - destruct (Attendance.guest_id new) as [gn|],
             (Attendance.guest_id old) as [go|]; simpl.
    + destruct (decide (go = gn)) as [->|Hdiff].
      * rewrite bool_decide_eq_true_2 by done. simpl.
        destruct (decide (gn = g)) as [->|Hne].
        -- intros Hr. left. exact (refresh_guest_sets now _ db r Hr).
        -- rewrite lookup_alter_ne by done. right.
           split; [done|]. split; [congruence|left; congruence].
      * rewrite bool_decide_eq_false_2 by done. simpl.
        destruct (decide (go = g)) as [->|Hgo].
        -- rewrite lookup_alter_eq, lookup_alter_ne by done.
           destruct (guests db !! g); simpl; [|done].
           intros [= <-]. left. simpl. done.
        -- rewrite lookup_alter_ne by done.
           destruct (decide (gn = g)) as [->|Hgn].
           ++ intros Hr. left. exact (refresh_guest_sets now _ db r Hr).
           ++ rewrite lookup_alter_ne by done. right.
              split; [done|]. split; [congruence|left; congruence].
    + destruct (decide (gn = g)) as [->|Hgn].
      * intros Hr. left. exact (refresh_guest_sets now _ db r Hr).
      * rewrite lookup_alter_ne by done. right.
        split; [done|]. split; [congruence|by left].
    + intros Hr. right. split; [done|]. split; [done|by right].
    + intros Hr. right. split; [done|]. split; [done|by left].
  - destruct (Attendance.guest_id old) as [g'|]; simpl; [|by right].
    destruct (decide (g' = g)) as [->|Hne].
    + intros Hr. left. exact (refresh_guest_sets now _ db r Hr).
    + rewrite lookup_alter_ne by done. right. split; [done|congruence].
Qed.

(** The present-count of a guest that a written row does not name. *)
Lemma guest_count_insert_out db g i r :
  Attendance.guest_id r ≠ Some g →
  (∀ old, attendance db !! i = Some old → Attendance.guest_id old ≠ Some g) →
  guest_attendance_count (set_attendance (<[i := r]> (attendance db)) db) g
                         (is_status present)
  = guest_attendance_count db g (is_status present).
Proof.
  intros Hr Hold. unfold guest_attendance_count. simpl.
  apply count_where_insert_out.
  - rewrite bool_decide_eq_false_2; done.
  - intros old Hi. rewrite bool_decide_eq_false_2; [done|by eapply Hold].
Qed.

Lemma guest_count_delete_out db g i :
  (∀ old, attendance db !! i = Some old → Attendance.guest_id old ≠ Some g) →
  guest_attendance_count (set_attendance (delete i (attendance db)) db) g
                         (is_status present)
  = guest_attendance_count db g (is_status present).
Proof.
  intros Hold. unfold guest_attendance_count. simpl.
  apply count_where_delete_out.
  intros old Hi. rewrite bool_decide_eq_false_2; [done|by eapply Hold].
Qed.

(** Each ledger statement keeps the guests' counters exact. *)
Lemma attendance_insert_guest_counters now i r db db' :
  guest_counters_exact db →
  attendance_insert now i r db = Ok db' →
  guest_counters_exact db'.
Proof.
  intros Hinv. unfold attendance_insert.
  destruct (decide (attendance db !! i = None)) as [Hfresh|];
    [rewrite bool_decide_eq_true_2 by done|by rewrite bool_decide_eq_false_2].
  simpl. destruct (attendance_fk r db); simpl; [|done].
  destruct (attendance_unique i r db); simpl; [|done].
  intros [= <-] g row Hrow.
  rewrite attendance_row_triggers_guests in Hrow.
  unfold guest_attendance_count at 1.
  rewrite attendance_row_triggers_attendance.
  apply update_guest_meeting_count_row in Hrow as [Hset|[Hrow Hout]]; [done|].
  simpl in Hrow. rewrite (Hinv _ _ Hrow). symmetry.
  apply guest_count_insert_out; [done|]. intros old. by rewrite Hfresh.
Qed.

Lemma attendance_delete_guest_counters now i db db' :
  guest_counters_exact db →
  attendance_delete now i db = Ok db' →
  guest_counters_exact db'.
Proof.
  intros Hinv. unfold attendance_delete.
  destruct (attendance db !! i) as [old|] eqn:Hold; [|by intros [= <-]].
  intros [= <-] g row Hrow.
  rewrite attendance_row_triggers_guests in Hrow.
  unfold guest_attendance_count at 1.
  rewrite attendance_row_triggers_attendance.
  apply update_guest_meeting_count_row in Hrow as [Hset|[Hrow Hout]]; [done|].
  simpl in Hrow. rewrite (Hinv _ _ Hrow). symmetry.
  apply guest_count_delete_out. intros old'. rewrite Hold. by intros [= <-].
Qed.

Lemma attendance_update_guest_counters now i new db db' :
  guest_counters_exact db →
  guest_scope db (attendance_updated now i new) = true →
  attendance_update now i new db = Ok db' →
  guest_counters_exact db'.
Proof.
  intros Hinv Hscope. unfold attendance_update. simpl in Hscope.
  destruct (attendance db !! i) as [old|] eqn:Hold; [|by intros [= <-]].
  simpl. destruct (attendance_fk new db); simpl; [|done].
  destruct (attendance_unique i new db); simpl; [|done].
  intros [= <-] g row Hrow.
  rewrite attendance_row_triggers_guests in Hrow.
  unfold guest_attendance_count at 1.
  rewrite attendance_row_triggers_attendance.
  apply update_guest_meeting_count_row in Hrow as [Hset|[Hrow [Hnew Hout]]]; [done|].
  simpl in Hrow. rewrite (Hinv _ _ Hrow). symmetry.
  apply guest_count_insert_out; [done|].
  intros old'. rewrite Hold. intros [= <-].
  destruct Hout as [Hout|Hnone]; [done|].
  intros Hg. rewrite Hg, Hnone in Hscope.
  rewrite !bool_decide_eq_true_2 in Hscope by eauto. done.
Qed.

(** ** Operations that leave the guests and the attendance ledger alone *)

Lemma guest_counters_exact_same db db' :
  guests db' = guests db →
  attendance db' = attendance db →
  guest_counters_exact db →
  guest_counters_exact db'.
Proof.
  intros Hg Ha Hinv g r. unfold guest_attendance_count.
  rewrite Hg, Ha. apply Hinv.
Qed.

Lemma refresh_each_guests now ids db :
  guests (refresh_each now ids db) = guests db.
Proof.
  unfold refresh_each. revert db.
  induction ids as [|p ids IH]; intros db; simpl; [done|].
  by rewrite IH.
Qed.

Lemma refresh_each_attendance now ids db :
  attendance (refresh_each now ids db) = attendance db.
Proof.
  unfold refresh_each. revert db.
  induction ids as [|p ids IH]; intros db; simpl; [done|].
  by rewrite IH.
Qed.

Lemma refresh_each_charity_events now ids db :
  charity_events (refresh_each now ids db) = charity_events db.
Proof.
  unfold refresh_each. revert db.
  induction ids as [|p ids IH]; intros db; simpl; [done|].
  by rewrite IH.
Qed.

Lemma charity_trigger_guests now ev db :
  guests (update_pipeliner_eligibility_from_charity now ev db) = guests db.
Proof.
  unfold update_pipeliner_eligibility_from_charity.
  destruct ev; by rewrite ?refresh_each_guests.
Qed.

Lemma charity_trigger_attendance now ev db :
  attendance (update_pipeliner_eligibility_from_charity now ev db) = attendance db.
Proof.
  unfold update_pipeliner_eligibility_from_charity.
  destruct ev; by rewrite ?refresh_each_attendance.
Qed.

(** What a successful run of the guest dialog consists of. *)
Lemma handleConfirm_done guest sponsorId notes env db id db' :
  PromoteToPipelinerDialog.handleConfirm (Some guest) (Some sponsorId) notes env db
  = (Done id, db') →
  id = generated_id env
  ∧ insert_fault env = None
  ∧ update_fault env = None
  ∧ ∃ db1,
      pipeliners_insert id (PromoteToPipelinerDialog.payload guest sponsorId notes env) db
      = Ok db1
      ∧ guests_update (GuestMeetingCounts.id guest)
                      (PromoteToPipelinerDialog.guest_update guest env) db1
        = Ok db'.
Proof.
  unfold PromoteToPipelinerDialog.handleConfirm, supabase.
  destruct (insert_fault env); [done|].
  destruct (pipeliners_insert _ _ db) as [db1|] eqn:Hins; [|done].
  destruct (update_fault env); [done|].
  destruct (guests_update _ _ db1) as [db2|] eqn:Hupd; [|done].
  intros [= <- <-]. eauto 10.
Qed.

Lemma pipeliners_insert_Ok i r db db' :
  pipeliners_insert i r db = Ok db' →
  pipeliners db !! i = None
  ∧ references (Pipeliner.sponsored_by r) (members db) = true
  ∧ db' = set_pipeliners (<[i := r]> (pipeliners db)) db.
Proof.
  unfold pipeliners_insert.
  destruct (decide (pipeliners db !! i = None));
    [rewrite bool_decide_eq_true_2 by done|by rewrite bool_decide_eq_false_2].
  simpl. destruct (references _ _); simpl; [|done]. by intros [= <-].
Qed.

Lemma guests_update_Ok i f db db' :
  guests_update i f db = Ok db' →
  match guests db !! i with
  | Some old => db' = set_guests (<[i := f old]> (guests db)) db
  | None => db' = db
  end.
Proof.
  unfold guests_update. destruct (guests db !! i); [|by intros [= <-]].
  simpl. destruct (_ || _); simpl; [|done]. by intros [= <-].
Qed.

Lemma pipeliners_update_Ok i f db db' :
  pipeliners_update i f db = Ok db' →
  match pipeliners db !! i with
  | Some old => db' = set_pipeliners (<[i := f old]> (pipeliners db)) db
  | None => db' = db
  end.
Proof.
  unfold pipeliners_update. destruct (pipeliners db !! i); [|by intros [= <-]].
  simpl. destruct (_ || _); simpl; [|done]. by intros [= <-].
Qed.

Lemma members_insert_Ok i r db db' :
  members_insert i r db = Ok db' →
  members db !! i = None
  ∧ members_unique r db = true
  ∧ db' = set_members (<[i := r]> (members db)) db.
Proof.
  unfold members_insert.
  destruct (decide (members db !! i = None));
    [rewrite bool_decide_eq_true_2 by done|by rewrite bool_decide_eq_false_2].
  simpl. destruct (members_unique _ _); simpl; [|done]. by intros [= <-].
Qed.

Lemma handleConfirm_guest_counters guest sponsorId notes env db id db' :
  guest_counters_exact db →
  guest_scope db (guest_promoted guest sponsorId notes env) = true →
  PromoteToPipelinerDialog.handleConfirm (Some guest) (Some sponsorId) notes env db
  = (Done id, db') →
  guest_counters_exact db'.
Proof.
  intros Hinv Hscope Hdone.
  apply handleConfirm_done in Hdone as (_ & _ & _ & db1 & Hins & Hupd).
  apply pipeliners_insert_Ok in Hins as (_ & _ & ->).
  apply guests_update_Ok in Hupd. simpl in Hupd, Hscope.
  destruct (guests db !! GuestMeetingCounts.id guest) as [old|] eqn:Hold;
    subst db'; [|by apply (guest_counters_exact_same db)].
  apply andb_true_iff in Hscope as [Hsame Hthree].
  apply bool_decide_eq_true in Hsame. apply Z.leb_le in Hthree.
  intros g r. unfold guest_attendance_count. simpl.
  destruct (decide (GuestMeetingCounts.id guest = g)) as [<-|Hne].
  - rewrite lookup_insert_eq. intros [= <-]. simpl.
    rewrite Z.max_l by done. rewrite <- Hsame. by apply Hinv.
  - rewrite lookup_insert_ne by done. apply Hinv.
Qed.

(** What a successful promotion to member consists of. *)
Lemma promotePipelinerToMember_done `{PipelinerEligibilityLib}
    cached pipelinerId payload env db member db' :
  usePipeliners.promotePipelinerToMember cached pipelinerId payload env db
  = (inr member, db') →
  member = generated_id env
  ∧ ∃ pipeliner db1,
      List.find (λ item, bool_decide (PipelinerEligibility.id item = pipelinerId)) cached
      = Some pipeliner
      ∧ usePipeliners.validate pipeliner payload = None
      ∧ members_insert member (usePipeliners.memberPayload pipeliner payload) db = Ok db1
      ∧ pipeliners_update pipelinerId usePipeliners.became_member db1 = Ok db'.
Proof.
  unfold usePipeliners.promotePipelinerToMember, supabase.
  destruct (List.find _ cached) as [pipeliner|] eqn:Hfind; [|done].
  destruct (usePipeliners.validate pipeliner payload) eqn:Hvalid; [done|].
  destruct (insert_fault env); [done|].
  destruct (members_insert _ _ db) as [db1|] eqn:Hins; [|done].
  destruct (update_fault env); [done|].
  destruct (pipeliners_update _ _ db1) as [db2|] eqn:Hupd; [|done].
  intros [= <- <-]. split; [done|]. by exists pipeliner, db1.
Qed.

Lemma guard_or_bind {A} c e (k : unit → result A) a :
  guard_or c e ≫= k = Ok a → c = true ∧ k () = Ok a.
Proof. destruct c; simpl; [eauto|done]. Qed.

Lemma completed_Some {A} (r : result A) a : completed r = Some a → r = Ok a.
Proof. destruct r; simpl; congruence. Qed.

Lemma supabase_Ok {A} fault (stmt : result A) a :
  supabase fault stmt = Ok a → fault = None ∧ stmt = Ok a.
Proof. destruct fault; simpl; [done|eauto]. Qed.

(** The operations on charity events and on pipeliners write neither the
    guests nor the attendance ledger. *)
Lemma perform_elsewhere `{PipelinerEligibilityLib} op db db' :
  perform op db = Some db' →
  match op with
  | attendance_inserted _ _ _ | attendance_updated _ _ _ | attendance_deleted _ _
  | guest_promoted _ _ _ _ => True
  | _ => guests db' = guests db ∧ attendance db' = attendance db
  end.
Proof.
  destruct op; simpl; try done.
  - intros Hdone%completed_Some. unfold charity_events_insert in Hdone.
    destruct (bool_decide _); simpl in Hdone; [|done].
    injection Hdone as <-.
    by rewrite charity_trigger_guests, charity_trigger_attendance.
  - intros Hdone%completed_Some. unfold charity_events_update in Hdone.
    destruct (charity_events db !! i); injection Hdone as <-; [|done].
    by rewrite charity_trigger_guests, charity_trigger_attendance.
  - intros Hdone%completed_Some. unfold charity_events_delete in Hdone.
    destruct (charity_events db !! i); injection Hdone as <-; [|done].
    by rewrite charity_trigger_guests, charity_trigger_attendance.
  - intros Hdone%completed_Some. unfold usePipeliners.createPipeliner in Hdone.
    apply supabase_Ok in Hdone as [_ Hins].
    by apply pipeliners_insert_Ok in Hins as (_ & _ & ->).
  - intros Hdone%completed_Some. unfold usePipeliners.updatePipeliner in Hdone.
    destruct (supabase (update_fault env) _) as [db1|] eqn:Hupd; [|done].
    simpl in Hdone. case_bool_decide; [|done]. injection Hdone as ->.
    apply supabase_Ok in Hupd as [_ Hupd].
    apply pipeliners_update_Ok in Hupd.
    by destruct (pipeliners db !! id); subst db'.
  - destruct (usePipeliners.promotePipelinerToMember _ _ _ _ _)
      as [[error|member] db2] eqn:Hrun; [done|].
    intros [= <-].
    apply promotePipelinerToMember_done in Hrun
      as (_ & pipeliner & db1 & _ & _ & Hins & Hupd).
    apply members_insert_Ok in Hins as (_ & _ & ->).
    apply pipeliners_update_Ok in Hupd. simpl in Hupd.
    by destruct (pipeliners db !! pipelinerId); subst db2.
Qed.

Lemma perform_guest_counters `{PipelinerEligibilityLib} op db db' :
  guest_counters_exact db →
  guest_scope db op = true →
  perform op db = Some db' →
  guest_counters_exact db'.
Proof.
  intros Hinv Hscope Hdone.
  pose proof (perform_elsewhere op db db' Hdone) as Helse.
  destruct op; try (destruct Helse; by apply (guest_counters_exact_same db)).
  - by eapply attendance_insert_guest_counters, completed_Some.
  - by eapply attendance_update_guest_counters, completed_Some.
  - by eapply attendance_delete_guest_counters, completed_Some.
  - simpl in Hdone.
    destruct (PromoteToPipelinerDialog.handleConfirm _ _ _ _ _)
      as [[| | |id] db2] eqn:Hrun; try done.
    injection Hdone as <-. by eapply handleConfirm_guest_counters.
Qed.

(** C1 (as amended).  [guest.total_meetings] equals the number of present
    attendance rows of the guest after every sequence of completed
    operations (inserts, updates and deletes of attendance rows with their
    triggers, charity-event and pipeliner operations, promotions of guests)
    in which no update takes a row away from a guest without naming another
    guest, and every promotion starts from a current [total_meetings] of at
    least 3. *)
Theorem guest_total_meetings_matches_ledger `{PipelinerEligibilityLib} ops db db' :
  guest_counters_exact db →
  within guest_scope ops db = true →
  run ops db = Some db' →
  guest_counters_exact db'.
Proof.
  revert db. induction ops as [|op ops IH]; intros db Hinv Hscope Hrun.
  - by injection Hrun as <-.
  - simpl in Hrun, Hscope.
    destruct (perform op db) as [db1|] eqn:Hop; [|done].
    apply andb_true_iff in Hscope as [Hop_scope Hrest].
    apply (IH db1); [|done|done].
    by eapply perform_guest_counters.
Qed.

Lemma guest_counters_exact_Ex_db : guest_counters_exact Ex.db.
Proof.
  intros g r Hg. unfold Ex.db, guests in Hg.
  apply lookup_singleton_Some in Hg as [<- <-]. by vm_compute.
Qed.

(** Witness for C1: Ann attends three meetings, is promoted and loses one
    attendance row; her counter is exact at the end. *)
Lemma guest_total_meetings_matches_ledger_witness :
  ∃ db', run (H := spec_lib) Ex.guest_history Ex.db = Some db'
         ∧ guest_counters_exact db'.
Proof.
  eexists. split; [by vm_compute|].
  apply (guest_total_meetings_matches_ledger (H := spec_lib) Ex.guest_history Ex.db).
  - apply guest_counters_exact_Ex_db.
  - by vm_compute.
  - by vm_compute.
Defined.

(** Counterexample to C1 as stated: promoting a guest who has no present
    attendance row completes without error and stamps [total_meetings = 3];
    the ledger still holds no present row of hers. *)
Lemma promotion_stamps_three_meetings :
  let run := PromoteToPipelinerDialog.handleConfirm
               (Some (Ex.ann_view "active" 0 0 0 0)) (Some 5%N) [] Ex.calm Ex.db in
  guest_counters_exact Ex.db
  ∧ run.1 = Done 50%N
  ∧ Guest.total_meetings <$> guests run.2 !! 10%N = Some 3
  ∧ guest_attendance_count run.2 10%N (is_status present) = 0
  ∧ ¬ guest_counters_exact run.2.
Proof.
  split; [apply guest_counters_exact_Ex_db|].
  split; [by vm_compute|]. split; [by vm_compute|]. split; [by vm_compute|].
  intros Hinv.
  specialize (Hinv 10%N
    (PromoteToPipelinerDialog.guest_update (Ex.ann_view "active" 0 0 0 0)
                                           Ex.calm Ex.ann)).
  by vm_compute in Hinv; specialize (Hinv eq_refl).
Qed.

(** ** Updates that change the subject of a row *)

(** When an update moves a row from one guest to another, both counters
    are recomputed. *)
Lemma update_between_guests_refreshes_both now old new db go gn ro rn :
  Attendance.guest_id old = Some go →
  Attendance.guest_id new = Some gn →
  go ≠ gn →
  guests (update_guest_meeting_count now (UPDATE old new) db) !! go = Some ro →
  guests (update_guest_meeting_count now (UPDATE old new) db) !! gn = Some rn →
  Guest.total_meetings ro = guest_attendance_count db go (is_status present)
  ∧ Guest.total_meetings rn = guest_attendance_count db gn (is_status present).
Proof.
  intros Hold Hnew Hne Hro Hrn.
  apply update_guest_meeting_count_row in Hro as [Hro|(_ & _ & [Hout|Hnone])];
    [|congruence..].
  apply update_guest_meeting_count_row in Hrn as [Hrn|(_ & Hout & _)];
    [done|congruence].
Qed.

(** When the new row names no guest, the comparison [old.guest_id <>
    new.guest_id] is [NULL], the branch is not taken and the trigger does
    nothing at all. *)
Lemma update_to_no_guest_refreshes_nothing now old new db :
  Attendance.guest_id new = None →
  update_guest_meeting_count now (UPDATE old new) db = db.
Proof.
  intros Hnew. simpl. rewrite Hnew. simpl.
  by destruct (Attendance.guest_id old).
Qed.

(** C8 (the code at the failing input).  Ann has one present row and the
    counter 1.  The row is updated to name the pipeliner Bob instead: the
    update completes, Bob's counter is recomputed, Ann's counter is still 1
    although no present row of hers is left. *)
Theorem reassigned_row_leaves_old_guest_stale :
  Guest.total_meetings <$> guests Ex.db_one_present !! 10%N = Some 1
  ∧ ∃ db2,
      attendance_update 140%N 100%N (Ex.of_pipeliner 1%N present) Ex.db_one_present
      = Ok db2
      ∧ Guest.total_meetings <$> guests db2 !! 10%N = Some 1
      ∧ guest_attendance_count db2 10%N (is_status present) = 0
      ∧ Pipeliner.business_meetings_count <$> pipeliners db2 !! 20%N = Some 1.
Proof.
  split; [by vm_compute|]. eexists. split; [by vm_compute|].
  repeat split; by vm_compute.
Qed.

(** ** The subject of an attendance row *)

Lemma handleConfirm_attendance guest sponsorId notes env db id db' :
  PromoteToPipelinerDialog.handleConfirm (Some guest) (Some sponsorId) notes env db
  = (Done id, db') →
  attendance db' = attendance db.
Proof.
  intros Hdone.
  apply handleConfirm_done in Hdone as (_ & _ & _ & db1 & Hins & Hupd).
  apply pipeliners_insert_Ok in Hins as (_ & _ & ->).
  apply guests_update_Ok in Hupd. simpl in Hupd.
  by destruct (guests db !! GuestMeetingCounts.id guest); subst db'.
Qed.

Lemma perform_one_subject `{PipelinerEligibilityLib} op db db' :
  all_one_subject db →
  subject_scope db op = true →
  perform op db = Some db' →
  all_one_subject db'.
Proof.
  intros Hinv Hscope Hdone. unfold all_one_subject in *.
  pose proof (perform_elsewhere op db db' Hdone) as Helse.
  destruct op; try (by rewrite (proj2 Helse)); unfold perform in Hdone.
  - apply completed_Some in Hdone. unfold attendance_insert in Hdone.
    repeat apply guard_or_bind in Hdone as [_ Hdone].
    injection Hdone as <-. rewrite attendance_row_triggers_attendance. simpl.
    by apply map_Forall_insert_2.
  - apply completed_Some in Hdone. unfold attendance_update in Hdone.
    destruct (attendance db !! i); [|by injection Hdone as <-].
    repeat apply guard_or_bind in Hdone as [_ Hdone].
    injection Hdone as <-. rewrite attendance_row_triggers_attendance. simpl.
    by apply map_Forall_insert_2.
  - apply completed_Some in Hdone. unfold attendance_delete in Hdone.
    destruct (attendance db !! i); injection Hdone as <-; [|done].
    rewrite attendance_row_triggers_attendance. simpl.
    by apply map_Forall_delete.
  - destruct (PromoteToPipelinerDialog.handleConfirm _ _ _ _ _)
      as [[| | |id] db2] eqn:Hrun; try done.
    injection Hdone as <-. by rewrite (handleConfirm_attendance _ _ _ _ _ _ _ Hrun).
Qed.

(** C9 (as amended).  The store accepts attendance rows with any
    combination of subject references.  Every row has exactly one of
    [member_id], [guest_id], [pipeliner_id] after a sequence of completed
    operations whenever it had before and every attendance row handed to an
    insert or an update has exactly one: no trigger and no workflow writes
    a subject reference. *)
Theorem one_subject_kept_when_supplied `{PipelinerEligibilityLib} ops db db' :
  all_one_subject db →
  within subject_scope ops db = true →
  run ops db = Some db' →
  all_one_subject db'.
Proof.
  revert db. induction ops as [|op ops IH]; intros db Hinv Hscope Hrun.
  - by injection Hrun as <-.
  - simpl in Hrun, Hscope.
    destruct (perform op db) as [db1|] eqn:Hop; [|done].
    apply andb_true_iff in Hscope as [Hop_scope Hrest].
    apply (IH db1); [|done|done].
    by eapply perform_one_subject.
Qed.

(** Witness for C9: the history of Ann keeps every row with one subject. *)
Lemma one_subject_kept_when_supplied_witness :
  ∃ db', run (H := spec_lib) Ex.guest_history Ex.db = Some db'
         ∧ all_one_subject db'.
Proof.
  eexists. split; [by vm_compute|].
  apply (one_subject_kept_when_supplied (H := spec_lib) Ex.guest_history Ex.db).
  - apply map_Forall_empty.
  - by vm_compute.
  - by vm_compute.
Defined.

(** Counterexample to C9 as stated: a row that names nobody and a row that
    names a guest and a pipeliner are both inserted without error. *)
Lemma subjectless_and_double_rows_accepted :
  ∃ db1 db2,
    attendance_insert 101%N 100%N (Ex.of_nobody 1%N) Ex.db = Ok db1
    ∧ attendance_insert 102%N 101%N (Ex.of_two 2%N) db1 = Ok db2
    ∧ attendance db2 !! 100%N = Some (Ex.of_nobody 1%N)
    ∧ attendance db2 !! 101%N = Some (Ex.of_two 2%N)
    ∧ one_subject (Ex.of_nobody 1%N) = false
    ∧ one_subject (Ex.of_two 2%N) = false
    ∧ ¬ all_one_subject db2.
Proof.
  eexists _, _. split; [by vm_compute|]. split; [by vm_compute|].
  split; [by vm_compute|]. split; [by vm_compute|].
  split; [done|]. split; [done|].
  intros Hall. by specialize (Hall 100%N (Ex.of_nobody 1%N) ltac:(by vm_compute)).
Qed.

(** ** The cached eligibility flag *)

Lemma eligibility_flags_exact_same db db' :
  pipeliners db' = pipeliners db →
  eligibility_flags_exact db →
  eligibility_flags_exact db'.
Proof. intros Hp Hinv p r. rewrite Hp. apply Hinv. Qed.

Lemma flag_agrees_spec r :
  flag_agrees r = true ↔
  (Pipeliner.status r ≠ Js.lit "became_member" →
   Pipeliner.is_eligible_for_membership r
   = meets_thresholds (Pipeliner.business_meetings_count r)
                      (Pipeliner.charity_events_count r)).
Proof.
  unfold flag_agrees. rewrite orb_true_iff, bool_decide_eq_true.
  split.
  - intros [Hst|Heq] Hne; [done|]. by apply eqb_prop.
  - intros Hagree.
    destruct (decide (Pipeliner.status r = Js.lit "became_member")); [by left|].
    right. rewrite Hagree by done. apply eqb_reflx.
Qed.

Lemma eligibility_flags_exact_insert db i r :
  eligibility_flags_exact db →
  flag_agrees r = true →
  eligibility_flags_exact (set_pipeliners (<[i := r]> (pipeliners db)) db).
Proof.
  intros Hinv Hr p row. simpl.
  destruct (decide (i = p)) as [->|Hne].
  - rewrite lookup_insert_eq. intros [= <-]. by apply flag_agrees_spec.
  - rewrite lookup_insert_ne by done. apply Hinv.
Qed.

(** The refresh writes the flag from the counters it writes. *)
Lemma refresh_pipeliner_flags now p db :
  eligibility_flags_exact db →
  eligibility_flags_exact (refresh_pipeliner_eligibility now p db).
Proof.
  intros Hinv. destruct p as [p|]; [|done].
  intros q row. simpl.
  destruct (decide (p = q)) as [->|Hne].
  - rewrite lookup_alter_eq. destruct (pipeliners db !! q); simpl; [|done].
    by intros [= <-].
  - rewrite lookup_alter_ne by done. apply Hinv.
Qed.

Lemma refresh_each_flags now ids db :
  eligibility_flags_exact db →
  eligibility_flags_exact (refresh_each now ids db).
Proof.
  unfold refresh_each. revert db.
  induction ids as [|p ids IH]; intros db Hinv; [done|].
  apply (IH (refresh_pipeliner_eligibility now (Some p) db)).
  by apply refresh_pipeliner_flags.
Qed.

Lemma update_guest_meeting_count_pipeliners now ev db :
  pipeliners (update_guest_meeting_count now ev db) = pipeliners db.
Proof.
  destruct ev; simpl; repeat case_match;
    by rewrite ?refresh_guest_pipeliners.
Qed.

Lemma attendance_row_triggers_flags now ev db :
  eligibility_flags_exact db →
  eligibility_flags_exact (attendance_row_triggers now ev db).
Proof.
  intros Hinv. unfold attendance_row_triggers.
  assert (eligibility_flags_exact (update_guest_meeting_count now ev db)) as Hg.
  { eapply eligibility_flags_exact_same; [|done].
    apply update_guest_meeting_count_pipeliners. }
  destruct ev; simpl; repeat case_match; by repeat apply refresh_pipeliner_flags.
Qed.

Lemma charity_trigger_flags now ev db :
  eligibility_flags_exact db →
  eligibility_flags_exact (update_pipeliner_eligibility_from_charity now ev db).
Proof.
  intros Hinv. unfold update_pipeliner_eligibility_from_charity.
  destruct ev; by repeat apply refresh_each_flags.
Qed.

Lemma perform_flags `{PipelinerEligibilityLib} op db db' :
  eligibility_flags_exact db →
  flag_scope db op = true →
  perform op db = Some db' →
  eligibility_flags_exact db'.
Proof.
  intros Hinv Hscope Hdone. destruct op; unfold perform in Hdone.
  - apply completed_Some in Hdone. unfold attendance_insert in Hdone.
    repeat apply guard_or_bind in Hdone as [_ Hdone].
    injection Hdone as <-. by apply attendance_row_triggers_flags.
  - apply completed_Some in Hdone. unfold attendance_update in Hdone.
    destruct (attendance db !! i); [|by injection Hdone as <-].
    repeat apply guard_or_bind in Hdone as [_ Hdone].
    injection Hdone as <-. by apply attendance_row_triggers_flags.
  - apply completed_Some in Hdone. unfold attendance_delete in Hdone.
    destruct (attendance db !! i); injection Hdone as <-; [|done].
    by apply attendance_row_triggers_flags.
  - apply completed_Some in Hdone. unfold charity_events_insert in Hdone.
    apply guard_or_bind in Hdone as [_ Hdone].
    injection Hdone as <-. by apply charity_trigger_flags.
  - apply completed_Some in Hdone. unfold charity_events_update in Hdone.
    destruct (charity_events db !! i); injection Hdone as <-; [|done].
    by apply charity_trigger_flags.
  - apply completed_Some in Hdone. unfold charity_events_delete in Hdone.
    destruct (charity_events db !! i); injection Hdone as <-; [|done].
    by apply charity_trigger_flags.
  - destruct (PromoteToPipelinerDialog.handleConfirm _ _ _ _ _)
      as [[| | |id] db2] eqn:Hrun; try done.
    injection Hdone as <-.
    apply handleConfirm_done in Hrun as (_ & _ & _ & db1 & Hins & Hupd).
    apply pipeliners_insert_Ok in Hins as (_ & _ & ->).
    apply guests_update_Ok in Hupd. simpl in Hupd.
    assert (eligibility_flags_exact
              (set_pipeliners
                 (<[id := PromoteToPipelinerDialog.payload guest sponsorId notes env]>
                    (pipeliners db)) db)) as Hins.
    { apply eligibility_flags_exact_insert; [done|].
      apply flag_agrees_spec. intros _. simpl.
      unfold meets_thresholds. by rewrite andb_false_r. }
    by destruct (guests db !! GuestMeetingCounts.id guest); subst db2.
  - apply completed_Some in Hdone. unfold usePipeliners.createPipeliner in Hdone.
    apply supabase_Ok in Hdone as [_ Hins].
    apply pipeliners_insert_Ok in Hins as (_ & _ & ->).
    by apply eligibility_flags_exact_insert.
  - apply completed_Some in Hdone. unfold usePipeliners.updatePipeliner in Hdone.
    destruct (supabase (update_fault env) _) as [db1|] eqn:Hupd; [|done].
    simpl in Hdone. case_bool_decide; [|done]. injection Hdone as ->.
    apply supabase_Ok in Hupd as [_ Hupd].
    apply pipeliners_update_Ok in Hupd.
    destruct (pipeliners db !! id); subst db'; [|done].
    by apply eligibility_flags_exact_insert.
  - destruct (usePipeliners.promotePipelinerToMember _ _ _ _ _)
      as [[error|member] db2] eqn:Hrun; [done|].
    injection Hdone as <-.
    apply promotePipelinerToMember_done in Hrun
      as (_ & pipeliner & db1 & _ & _ & Hins & Hupd).
    apply members_insert_Ok in Hins as (_ & _ & ->).
    apply pipeliners_update_Ok in Hupd. simpl in Hupd.
    destruct (pipeliners db !! pipelinerId); subst db2; [|done].
    apply (eligibility_flags_exact_insert
             (set_members
                (<[member := usePipeliners.memberPayload pipeliner payload]>
                   (members db)) db)); [done|].
    by apply flag_agrees_spec.
Qed.

(** C2 (as amended).  For every pipeliner that has not become a member,
    [is_eligible_for_membership] equals [business_meetings_count >= 3 and
    charity_events_count >= 1] after every sequence of completed operations
    in which the forms that create or edit a pipeliner carry a flag that
    agrees with the counters they carry.  (A promotion to member clears the
    flag whatever the counters are.) *)
Theorem eligibility_flag_matches_counters `{PipelinerEligibilityLib} ops db db' :
  eligibility_flags_exact db →
  within flag_scope ops db = true →
  run ops db = Some db' →
  eligibility_flags_exact db'.
Proof.
  revert db. induction ops as [|op ops IH]; intros db Hinv Hscope Hrun.
  - by injection Hrun as <-.
  - simpl in Hrun, Hscope.
    destruct (perform op db) as [db1|] eqn:Hop; [|done].
    apply andb_true_iff in Hscope as [Hop_scope Hrest].
    apply (IH db1); [|done|done].
    by eapply perform_flags.
Qed.

Lemma eligibility_flags_exact_Ex_db : eligibility_flags_exact Ex.db.
Proof.
  intros p r Hp. unfold Ex.db, pipeliners in Hp.
  apply lookup_singleton_Some in Hp as [<- <-]. by vm_compute.
Qed.

(** Witness for C2: the history of Bob. *)
Lemma eligibility_flag_matches_counters_witness :
  ∃ db', run (H := spec_lib) Ex.pipeliner_history Ex.db = Some db'
         ∧ eligibility_flags_exact db'.
Proof.
  eexists. split; [by vm_compute|].
  apply (eligibility_flag_matches_counters (H := spec_lib) Ex.pipeliner_history Ex.db).
  - apply eligibility_flags_exact_Ex_db.
  - by vm_compute.
  - by vm_compute.
Defined.

(** Counterexample to C2 as stated: Bob has 3 business meetings, 1 charity
    event and the flag set.  His promotion to member completes and leaves
    the counters at 3 and 1 with the flag cleared, while the rule evaluates
    to true on them. *)
Lemma promotion_clears_flag_of_eligible_pipeliner :
  let run := usePipeliners.promotePipelinerToMember (H := spec_lib)
               [Ex.bob_view 3 1 true "active"] 20%N (Ex.form "RT-099")
               Ex.calm (Ex.db_with_bob 3 1 true "active") in
  run.1 = inr 50%N
  ∧ pipeliners run.2 !! 20%N = Some (Ex.bob 3 1 false "became_member")
  ∧ pipelinerEligibleForMembership 3 1 = true
  ∧ Pipeliner.is_eligible_for_membership (Ex.bob 3 1 false "became_member")
    ≠ pipelinerEligibleForMembership
        (Pipeliner.business_meetings_count (Ex.bob 3 1 false "became_member"))
        (Pipeliner.charity_events_count (Ex.bob 3 1 false "became_member")).
Proof. repeat split; by vm_compute. Qed.

(** ** Compensation *)

Lemma filter_all {A} (P : uuid * A → Prop) `{∀ x, Decision (P x)} (m : gmap uuid A) :
  (∀ i x, m !! i = Some x → P (i, x)) → filter P m = m.
Proof.
  intros HP. apply map_eq. intros i. apply option_eq. intros x.
  rewrite map_lookup_filter_Some.
  split; [by intros [Hi _]|]. intros Hi. split; [done|by apply HP].
Qed.

Lemma filter_none {A} (P : uuid * A → Prop) `{∀ x, Decision (P x)} (m : gmap uuid A) :
  (∀ i x, m !! i = Some x → ¬ P (i, x)) → filter P m = ∅.
Proof.
  intros HP. apply map_eq. intros i. apply option_eq. intros x.
  rewrite map_lookup_filter_Some, lookup_empty.
  split; [|done]. intros [Hi HPx]. by destruct (HP i x Hi).
Qed.

(** A cascade that finds no row changes nothing. *)
Lemma attendance_cascade_none now c db :
  (∀ i a, attendance db !! i = Some a → c a = false) →
  attendance_cascade now c db = db.
Proof.
  intros Hnone. unfold attendance_cascade.
  rewrite (filter_none (λ kv, c kv.2 = true)), (filter_all (λ kv, c kv.2 ≠ true)).
  - rewrite map_fold_empty. by destruct db.
  - intros i a Hi. simpl. rewrite (Hnone _ _ Hi). done.
  - intros i a Hi. simpl. rewrite (Hnone _ _ Hi). done.
Qed.

Lemma references_Some {A} (k : uuid) (t : gmap uuid A) :
  references (Some k) t = true → is_Some (t !! k).
Proof. simpl. apply bool_decide_eq_true. Qed.

(** Deleting the pipeliner that was just inserted under a free key gives
    back the database. *)
Lemma pipeliners_delete_inserted now i r db :
  fk_consistent db →
  pipeliners db !! i = None →
  pipeliners_delete now i (set_pipeliners (<[i := r]> (pipeliners db)) db) = Ok db.
Proof.
  intros (Hatt & _) Hfree. unfold pipeliners_delete. simpl.
  rewrite lookup_insert_eq, delete_insert_id by done. f_equal.
  rewrite attendance_cascade_none; [by destruct db|].
  intros j a Hj. simpl in Hj. apply bool_decide_eq_false. intros Hp.
  specialize (Hatt j a Hj). simpl in Hatt. unfold attendance_fk in Hatt.
  rewrite !andb_true_iff in Hatt. destruct Hatt as (_ & Href).
  rewrite Hp in Href. apply references_Some in Href.
  rewrite Hfree in Href. by destruct Href.
Qed.

(** A call reports an error when the environment makes it fail or when
    the statement itself is refused. *)
Lemma supabase_Err {A} fault (stmt : result A) e :
  supabase fault stmt = Err e → fault = Some e ∨ (fault = None ∧ stmt = Err e).
Proof. destruct fault; simpl; [intros [= ->]; by left|by right]. Qed.

(** The two updates of the promotions break no constraint: the store
    refuses them only when the call itself fails. *)
Lemma became_member_update_accepted i db :
  ∃ db', pipeliners_update i usePipeliners.became_member db = Ok db'.
Proof.
  unfold pipeliners_update. destruct (pipeliners db !! i) as [old|]; [|by eexists].
  simpl. rewrite bool_decide_eq_true_2 by done. simpl. by eexists.
Qed.

Lemma guest_update_accepted guest env i db :
  ∃ db', guests_update i (PromoteToPipelinerDialog.guest_update guest env) db = Ok db'.
Proof.
  unfold guests_update. destruct (guests db !! i) as [old|]; [|by eexists].
  simpl. rewrite bool_decide_eq_true_2 by done. simpl. by eexists.
Qed.

Lemma fk_consistent_Ex_db : fk_consistent Ex.db.
Proof. repeat split; apply (bool_decide_unpack _); by vm_compute. Qed.

(** C3 (as amended).  Let the insert of the pipeliner row have gone
    through, on a database whose foreign keys hold.  The update of the
    guest is refused only when the call itself fails.  [handleConfirm]
    then asks the store to delete the inserted row, does not look at the
    result of that delete, and reports the error of the update: when the
    delete goes through the database is what it was before the dialog was
    confirmed; when the delete fails too, the inserted pipeliner row
    stays.  Either way no guest row has changed.  An update that matches
    no row (the guest is no longer on record) is no failure: the dialog
    ends in success, the pipeliner row inserted and no guest promoted. *)
Theorem failed_guest_update_is_compensated guest sponsorId notes env db db1 :
  fk_consistent db →
  supabase (insert_fault env)
    (pipeliners_insert (generated_id env)
       (PromoteToPipelinerDialog.payload guest sponsorId notes env) db) = Ok db1 →
  pipeliners db !! generated_id env = None
  ∧ pipeliners db1 !! generated_id env
    = Some (PromoteToPipelinerDialog.payload guest sponsorId notes env)
  ∧ guests db1 = guests db
  ∧ (∀ e,
       supabase (update_fault env)
         (guests_update (GuestMeetingCounts.id guest)
            (PromoteToPipelinerDialog.guest_update guest env) db1) = Err e →
       update_fault env = Some e
       ∧ PromoteToPipelinerDialog.handleConfirm (Some guest) (Some sponsorId) notes env db
         = (Failed e, match delete_fault env with None => db | Some _ => db1 end))
  ∧ (update_fault env = None →
     guests db !! GuestMeetingCounts.id guest = None →
     PromoteToPipelinerDialog.handleConfirm (Some guest) (Some sponsorId) notes env db
     = (Done (generated_id env), db1)).
Proof.
  intros Hfk Hins. unfold PromoteToPipelinerDialog.handleConfirm. rewrite Hins.
  apply supabase_Ok in Hins as [_ Hins].
  apply pipeliners_insert_Ok in Hins as (Hfree & _ & ->).
  split; [done|]. split; [by simpl; rewrite lookup_insert_eq|]. split; [done|]. split.
  - intros e Hupd. rewrite Hupd.
    apply supabase_Err in Hupd as [Hupdate|[_ Hupd]].
    + split; [done|]. destruct (delete_fault env) as [e'|]; simpl; [done|].
      by rewrite pipeliners_delete_inserted.
    + destruct (guest_update_accepted guest env (GuestMeetingCounts.id guest)
                  (set_pipeliners
                     (<[generated_id env
                        := PromoteToPipelinerDialog.payload guest sponsorId notes env]>
                        (pipeliners db)) db)) as [db2 Hok].
      by rewrite Hok in Hupd.
  - intros -> Hgone. simpl. unfold guests_update. simpl. by rewrite Hgone.
Qed.

(** Witness for C3: the update of Ann fails with a 503 and the delete goes
    through; the database is back to what it was and holds no pipeliner
    under the generated key. *)
Lemma failed_guest_update_is_compensated_witness :
  PromoteToPipelinerDialog.handleConfirm
    (Some (Ex.ann_view "active" 3 3 3 1)) (Some 5%N) [] Ex.second_write_fails Ex.db
  = (Failed (store_failure 503), Ex.db)
  ∧ pipeliners Ex.db !! 50%N = None
  ∧ Guest.status <$> guests Ex.db !! 10%N = Some (Js.lit "active").
Proof.
  split; [|by vm_compute].
  eapply (failed_guest_update_is_compensated (Ex.ann_view "active" 3 3 3 1) 5%N []
            Ex.second_write_fails Ex.db).
  - apply fk_consistent_Ex_db.
  - vm_compute. reflexivity.
  - vm_compute. reflexivity.
Defined.

(** Counterexample to C3 as stated: the update of Ann fails with a 503 and
    the delete that follows fails too.  The dialog reports the 503, Ann is
    not promoted, and the pipeliner row inserted under key 50 is still in
    the table. *)
Lemma orphan_pipeliner_stays_when_delete_fails :
  let run := PromoteToPipelinerDialog.handleConfirm
               (Some (Ex.ann_view "active" 3 3 3 1)) (Some 5%N) []
               Ex2.only_insert_works Ex.db in
  pipeliners Ex.db !! 50%N = None
  ∧ run.1 = Failed (store_failure 503)
  ∧ Pipeliner.full_name <$> pipeliners run.2 !! 50%N = Some (Js.lit "Ann Guest")
  ∧ Guest.status <$> guests run.2 !! 10%N = Some (Js.lit "active").
Proof. repeat split; by vm_compute. Qed.

(** ** The gate of the promotion to pipeliner *)

(** C5 (as amended).  [handleConfirm] returns at once when no guest is
    selected and refuses, changing nothing, when no sponsoring member is
    selected.  With both it goes on to the two writes whatever the status
    and the eligibility of the guest: it ends in success exactly when the
    store accepts the insert and the update. *)
Theorem promotion_to_pipeliner_checks_sponsor_only guest sponsorId notes env db :
  PromoteToPipelinerDialog.handleConfirm None sponsorId notes env db = (Ignored, db)
  ∧ PromoteToPipelinerDialog.handleConfirm (Some guest) None notes env db
    = (Refused "Please select a sponsoring member.", db)
  ∧ ∀ sponsor db',
      PromoteToPipelinerDialog.handleConfirm (Some guest) (Some sponsor) notes env db
      = (Done (generated_id env), db')
      ↔ ∃ db1,
          supabase (insert_fault env)
            (pipeliners_insert (generated_id env)
               (PromoteToPipelinerDialog.payload guest sponsor notes env) db) = Ok db1
          ∧ supabase (update_fault env)
              (guests_update (GuestMeetingCounts.id guest)
                 (PromoteToPipelinerDialog.guest_update guest env) db1) = Ok db'.
Proof.
  split; [done|]. split; [done|]. intros sponsor db'.
  unfold PromoteToPipelinerDialog.handleConfirm. split.
  - destruct (supabase (insert_fault env) _) as [db1|] eqn:Hins; [|done].
    destruct (supabase (update_fault env) _) as [db2|] eqn:Hupd; [|done].
    intros [= <-]. by exists db1.
  - intros (db1 & -> & ->). done.
Qed.

(** Counterexample to C5 as stated: Ann is an inactive guest with no
    attendance and no event, so neither the rule nor the badge makes her
    eligible; with a sponsor selected the promotion succeeds, inserts a
    pipeliner and marks her as promoted. *)
Lemma inactive_ineligible_guest_is_promoted :
  let guest := Ex.ann_view "inactive" 0 0 0 0 in
  let run := PromoteToPipelinerDialog.handleConfirm
               (Some guest) (Some 5%N) [] Ex.calm Ex.db_inactive_ann in
  guest_meeting_counts Ex.db_inactive_ann !! 10%N = Some guest
  ∧ GuestMeetingCounts.eligible_for_pipeliner guest = false
  ∧ guestEligibleForPipeliner (GuestMeetingCounts.present_count guest)
                              (GuestMeetingCounts.event_count guest) = false
  ∧ PromoteToPipelinerDialog.eligible (Some guest) = false
  ∧ run.1 = Done 50%N
  ∧ is_Some (pipeliners run.2 !! 50%N)
  ∧ Guest.status <$> guests run.2 !! 10%N = Some (Js.lit "became_pipeliner")
  ∧ run.2 ≠ Ex.db_inactive_ann.
Proof.
  intros guest run.
  split; [by vm_compute|]. split; [by vm_compute|]. split; [by vm_compute|].
  split; [by vm_compute|]. split; [by vm_compute|].
  split; [eexists; by vm_compute|]. split; [by vm_compute|].
  intros Heq. apply (f_equal (λ d, pipeliners d !! 50%N)) in Heq.
  by vm_compute in Heq.
Qed.

(** ** The eligibility rule *)

Lemma meets_thresholds_spec m e :
  meets_thresholds m e = true ↔ 3 ≤ m ∧ 1 ≤ e.
Proof. unfold meets_thresholds. rewrite andb_true_iff, !Z.leb_le. done. Qed.

(** The threshold gate of [promotePipelinerToMember]: it throws one of its
    two messages about the requirements exactly when neither the library's
    check nor the cached flag holds. *)
Lemma validate_requirements `{PipelinerEligibilityLib} pipeliner payload :
  (usePipeliners.validate pipeliner payload = Some usePipeliners.requirements_not_met
   ∨ ∃ business charity,
       usePipeliners.validate pipeliner payload
       = Some (usePipeliners.still_needs business charity))
  ↔ hasMetMembershipRequirements pipeliner
    || PipelinerEligibility.is_eligible_for_membership pipeliner = false.
Proof.
  unfold usePipeliners.validate.
  destruct (hasMetMembershipRequirements pipeliner
            || PipelinerEligibility.is_eligible_for_membership pipeliner); simpl.
  - split; [|done]. intros [Hnot|(b & c & Hneeds)]; repeat case_match; congruence.
  - split; [done|]. intros _. repeat case_match; eauto.
Qed.

(** C6 (as amended).  The two views and the refresh of a pipeliner compute
    the conjunction "at least 3 present attendances and at least 1 event"
    over the ledgers: 3 and 1 is eligible, 2 and 2 is not.  The gates
    that the two promotions consult are disjunctions around that
    conjunction.  The guest dialog's [eligible] holds when the guest has
    3 attendance rows of any status or the view's flag is set, so on a row
    of the view it asks for 3 attendance rows and for no event.  The
    member dialog's [eligible] and the hook's check accept a pipeliner
    when the library's check holds or the cached flag is set. *)
Theorem eligibility_is_conjunction_of_thresholds :
  (∀ db g r,
     let v := guest_meeting_counts_row db g r in
     GuestMeetingCounts.eligible_for_pipeliner v = true
     ↔ 3 ≤ GuestMeetingCounts.present_count v ∧ 1 ≤ GuestMeetingCounts.event_count v)
  ∧ (∀ db p r,
       let v := pipeliner_eligibility_row db p r in
       PipelinerEligibility.meets_requirements v = true
       ↔ 3 ≤ PipelinerEligibility.meeting_count v
         ∧ 1 ≤ PipelinerEligibility.charity_event_count v)
  ∧ (∀ now db p old,
       pipeliners db !! p = Some old →
       ∃ r, pipeliners (refresh_pipeliner_eligibility now (Some p) db) !! p = Some r
            ∧ Pipeliner.business_meetings_count r = pipeliner_present_count db p
            ∧ Pipeliner.charity_events_count r = charity_event_count_of db p
            ∧ (Pipeliner.is_eligible_for_membership r = true
               ↔ 3 ≤ pipeliner_present_count db p ∧ 1 ≤ charity_event_count_of db p))
  ∧ (∀ guest,
       PromoteToPipelinerDialog.eligible (Some guest) = true
       ↔ 3 ≤ GuestMeetingCounts.meeting_count guest
         ∨ GuestMeetingCounts.eligible_for_pipeliner guest = true)
  ∧ (∀ db g r,
       PromoteToPipelinerDialog.eligible (Some (guest_meeting_counts_row db g r)) = true
       ↔ 3 ≤ guest_attendance_count db g (λ _, true))
  ∧ (∀ (H : PipelinerEligibilityLib) pipeliner,
       PromoteToMemberDialog.eligible (Some pipeliner) = true
       ↔ PipelinerEligibility.status pipeliner ≠ Js.lit "became_member"
         ∧ (hasMetMembershipRequirements pipeliner = true
            ∨ PipelinerEligibility.is_eligible_for_membership pipeliner = true))
  ∧ (∀ (H : PipelinerEligibilityLib) pipeliner payload,
       (usePipeliners.validate pipeliner payload
        = Some usePipeliners.requirements_not_met
        ∨ ∃ business charity,
            usePipeliners.validate pipeliner payload
            = Some (usePipeliners.still_needs business charity))
       ↔ ¬ (hasMetMembershipRequirements pipeliner = true
            ∨ PipelinerEligibility.is_eligible_for_membership pipeliner = true))
  ∧ meets_thresholds 3 1 = true
  ∧ meets_thresholds 2 2 = false
  ∧ (GuestMeetingCounts.present_count <$> guest_meeting_counts Ex.db_three_and_one !! 10%N,
     GuestMeetingCounts.event_count <$> guest_meeting_counts Ex.db_three_and_one !! 10%N,
     GuestMeetingCounts.eligible_for_pipeliner
       <$> guest_meeting_counts Ex.db_three_and_one !! 10%N)
    = (Some 3, Some 1, Some true)
  ∧ (GuestMeetingCounts.present_count <$> guest_meeting_counts Ex.db_two_and_two !! 10%N,
     GuestMeetingCounts.event_count <$> guest_meeting_counts Ex.db_two_and_two !! 10%N,
     GuestMeetingCounts.eligible_for_pipeliner
       <$> guest_meeting_counts Ex.db_two_and_two !! 10%N)
    = (Some 2, Some 2, Some false)
  ∧ (PipelinerEligibility.meeting_count
       <$> pipeliner_eligibility Ex.db_bob_three_and_one !! 20%N,
     PipelinerEligibility.charity_event_count
       <$> pipeliner_eligibility Ex.db_bob_three_and_one !! 20%N,
     PipelinerEligibility.meets_requirements
       <$> pipeliner_eligibility Ex.db_bob_three_and_one !! 20%N)
    = (Some 3, Some 1, Some true)
  ∧ (PipelinerEligibility.meeting_count
       <$> pipeliner_eligibility Ex.db_bob_two_and_two !! 20%N,
     PipelinerEligibility.charity_event_count
       <$> pipeliner_eligibility Ex.db_bob_two_and_two !! 20%N,
     PipelinerEligibility.meets_requirements
       <$> pipeliner_eligibility Ex.db_bob_two_and_two !! 20%N)
    = (Some 2, Some 2, Some false)
  ∧ Pipeliner.is_eligible_for_membership
      <$> pipeliners (refresh_pipeliner_eligibility 130%N (Some 20%N)
                        Ex.db_bob_three_and_one) !! 20%N
    = Some true
  ∧ Pipeliner.is_eligible_for_membership
      <$> pipeliners (refresh_pipeliner_eligibility 130%N (Some 20%N)
                        Ex.db_bob_two_and_two) !! 20%N
    = Some false.
Proof.
  split; [intros; apply meets_thresholds_spec|].
  split; [intros; apply meets_thresholds_spec|].
  split.
  { intros now db p old Hold. simpl. rewrite lookup_alter_eq, Hold. simpl.
    eexists. split; [done|]. simpl. split; [done|]. split; [done|].
    apply meets_thresholds_spec. }
  split.
  { intros guest. simpl. rewrite orb_true_iff, Z.leb_le. done. }
  split.
  { intros db g r. simpl. rewrite orb_true_iff, Z.leb_le, meets_thresholds_spec.
    split; [|by left]. intros [Hrows|[Hpresent _]]; [done|].
    etrans; [exact Hpresent|]. apply count_where_le.
    intros a. rewrite !andb_true_iff. by intros [-> _]. }
  split.
  { intros H pipeliner. simpl. case_bool_decide as Hstatus.
    - split; [done|]. by intros [? _].
    - rewrite orb_true_iff. split; [done|]. by intros [_ ?]. }
  split.
  { intros H pipeliner payload. rewrite validate_requirements, <- orb_true_iff.
    by destruct (_ || _). }
  repeat split; by vm_compute.
Qed.

(** Counterexample to C6 as stated.  Ann has two present attendances, one
    apology and two guest events: the view does not call her eligible, the
    dialog's [eligible] does, and [handleConfirm] promotes her.  Bob's
    stored counters are 2 and 2 and his cached flag is set: the member
    dialog's [eligible] holds and the hook's checks pass. *)
Lemma gates_accept_two_and_two :
  let ann := guest_meeting_counts Ex.db_two_and_two !! 10%N in
  let bob := Ex.bob_view 2 2 true "active" in
  (GuestMeetingCounts.present_count <$> ann, GuestMeetingCounts.event_count <$> ann,
   GuestMeetingCounts.eligible_for_pipeliner <$> ann)
  = (Some 2, Some 2, Some false)
  ∧ PromoteToPipelinerDialog.eligible ann = true
  ∧ (PromoteToPipelinerDialog.handleConfirm ann (Some 5%N) [] Ex.calm
       Ex.db_two_and_two).1 = Done 50%N
  ∧ hasMetMembershipRequirements (PipelinerEligibilityLib := spec_lib) bob = false
  ∧ PromoteToMemberDialog.eligible (H := spec_lib) (Some bob) = true
  ∧ usePipeliners.validate (H := spec_lib) bob (Ex.form "RT-099") = None
  ∧ (usePipeliners.promotePipelinerToMember (H := spec_lib) [bob] 20%N
       (Ex.form "RT-099") Ex.calm (Ex.db_with_bob 2 2 true "active")).1 = inr 50%N.
Proof. repeat split; by vm_compute. Qed.

(** ** Promotion to member *)

(** A member with the same email is on record: the hook ends in an error
    and the database is untouched. *)
Lemma promotion_stopped_by_email `{PipelinerEligibilityLib}
    cached pipelinerId payload env db pipeliner m row :
  List.find (λ item, bool_decide (PipelinerEligibility.id item = pipelinerId)) cached
  = Some pipeliner →
  members db !! m = Some row →
  Member.email row = default [] (PipelinerEligibility.email pipeliner) →
  ∃ error,
    usePipeliners.promotePipelinerToMember cached pipelinerId payload env db
    = (inl error, db).
Proof.
  intros Hfind Hrow Hemail. unfold usePipeliners.promotePipelinerToMember.
  rewrite Hfind.
  destruct (usePipeliners.validate pipeliner payload); [by eexists|].
  destruct (insert_fault env); simpl; [by eexists|].
  unfold members_insert.
  destruct (bool_decide (members db !! generated_id env = None));
    simpl; [|by eexists].
  assert (members_unique (usePipeliners.memberPayload pipeliner payload) db = false)
    as ->; [|by eexists].
  apply bool_decide_eq_false. intros Hall.
  by destruct (Hall m row Hrow) as [Hne _].
Qed.

(** C4 (as amended).  The status of the pipeliner is checked by the dialog,
    not by [promotePipelinerToMember]: [handleConfirm] refuses a pipeliner
    whose status is [became_member] with the "has not met the membership
    requirements" message, calls nothing and leaves the database as it is.
    The hook itself, called again after a promotion that succeeded for a
    pipeliner with the same email, ends in an error and inserts nothing,
    because the email of the first member row is still on record. *)
Theorem promoted_pipeliner_is_refused_by_dialog `{PipelinerEligibilityLib} :
  (∀ E pipeliner memberNumber joinDate
     (onPromote : usePipeliners.PromotePipelinerToMemberPayload →
                  Database → (E + uuid) * Database) db,
     PipelinerEligibility.status pipeliner = Js.lit "became_member" →
     PromoteToMemberDialog.handleConfirm (Some pipeliner) memberNumber joinDate
                                         onPromote db
     = (Refused "This pipeliner has not met the membership requirements yet.", db))
  ∧ (∀ cached pipelinerId payload env db member db',
       usePipeliners.promotePipelinerToMember cached pipelinerId payload env db
       = (inr member, db') →
       ∀ cached' pipeliner pipeliner' payload' env',
         List.find (λ item, bool_decide (PipelinerEligibility.id item = pipelinerId))
                   cached = Some pipeliner →
         List.find (λ item, bool_decide (PipelinerEligibility.id item = pipelinerId))
                   cached' = Some pipeliner' →
         PipelinerEligibility.email pipeliner' = PipelinerEligibility.email pipeliner →
         ∃ error,
           usePipeliners.promotePipelinerToMember cached' pipelinerId payload' env' db'
           = (inl error, db')).
Proof.
  split.
  - intros E pipeliner memberNumber joinDate onPromote db Hstatus.
    unfold PromoteToMemberDialog.handleConfirm, PromoteToMemberDialog.eligible.
    by rewrite bool_decide_eq_true_2.
  - intros cached pipelinerId payload env db member db' Hdone
           cached' pipeliner pipeliner' payload' env' Hfind Hfind' Hemail.
    apply promotePipelinerToMember_done in Hdone
      as (_ & pipeliner0 & db1 & Hfind0 & _ & Hins & Hupd).
    rewrite Hfind in Hfind0. injection Hfind0 as <-.
    apply members_insert_Ok in Hins as (_ & _ & ->).
    apply pipeliners_update_Ok in Hupd. simpl in Hupd.
    eapply (promotion_stopped_by_email _ _ _ _ _ _ member
              (usePipeliners.memberPayload pipeliner payload)); [done| |].
    + destruct (pipeliners db !! pipelinerId); subst db'; simpl;
        apply lookup_insert_eq.
    + simpl. by rewrite Hemail.
Qed.

(** Witness for C4: Bob, once promoted, is refused by the dialog, and a
    second call of the hook ends in the unique violation on his email. *)
Lemma promoted_pipeliner_is_refused_by_dialog_witness :
  let first := usePipeliners.promotePipelinerToMember (H := spec_lib)
                 [Ex.bob_view 3 1 true "active"] 20%N (Ex.form "RT-099")
                 Ex.calm (Ex.db_with_bob 3 1 true "active") in
  let hook := usePipeliners.promotePipelinerToMember (H := spec_lib)
                [Ex.bob_view 3 1 false "became_member"] 20%N in
  first.1 = inr 50%N
  ∧ PromoteToMemberDialog.handleConfirm (H := spec_lib)
      (Some (Ex.bob_view 3 1 false "became_member")) (Js.lit "RT-100")
      (Js.lit "2024-06-01") (λ payload, hook payload Ex.calm_again) first.2
    = (Refused "This pipeliner has not met the membership requirements yet.", first.2)
  ∧ ∃ error, hook (Ex.form "RT-100") Ex.calm_again first.2 = (inl error, first.2).
Proof.
  intros first hook.
  destruct (promoted_pipeliner_is_refused_by_dialog (H := spec_lib))
    as [Hdialog Hhook].
  split; [by vm_compute|]. split.
  - apply Hdialog. reflexivity.
  - apply (Hhook [Ex.bob_view 3 1 true "active"] 20%N (Ex.form "RT-099") Ex.calm
                 (Ex.db_with_bob 3 1 true "active") 50%N first.2
                 ltac:(by vm_compute)
                 [Ex.bob_view 3 1 false "became_member"]
                 (Ex.bob_view 3 1 true "active")
                 (Ex.bob_view 3 1 false "became_member")).
    + reflexivity.
    + reflexivity.
    + reflexivity.
Defined.

(** Counterexample to C4 as stated: Bob's status is [became_member] and,
    after a later recomputation, his flag is set again; no member carries
    his email any more.  [promotePipelinerToMember] checks no status: it
    succeeds and inserts a member row. *)
Lemma hook_promotes_promoted_pipeliner :
  let run := usePipeliners.promotePipelinerToMember (H := spec_lib)
               [Ex.bob_view 3 1 true "became_member"] 20%N (Ex.form "RT-100")
               Ex.calm (Ex.db_with_bob 3 1 true "became_member") in
  Pipeliner.status <$> pipeliners (Ex.db_with_bob 3 1 true "became_member") !! 20%N
  = Some (Js.lit "became_member")
  ∧ members (Ex.db_with_bob 3 1 true "became_member") !! 50%N = None
  ∧ run.1 = inr 50%N
  ∧ Member.member_number <$> members run.2 !! 50%N = Some (Some (Js.lit "RT-100")).
Proof. repeat split; by vm_compute. Qed.

Lemma validate_None `{PipelinerEligibilityLib} pipeliner payload :
  usePipeliners.validate pipeliner payload = None →
  Js.trim (usePipeliners.member_number payload) ≠ []
  ∧ usePipeliners.join_date payload ≠ []
  ∧ ∃ email, PipelinerEligibility.email pipeliner = Some email ∧ email ≠ [].
Proof.
  unfold usePipeliners.validate.
  destruct (negb (_ || _)); [by repeat case_match|].
  destruct (Js.trim (usePipeliners.member_number payload)) eqn:Hnumber; [done|].
  destruct (usePipeliners.join_date payload) eqn:Hdate; [done|].
  destruct (PipelinerEligibility.email pipeliner) as [[|c email]|]; [done| |done].
  intros _. split; [done|]. split; [done|]. by eexists.
Qed.

(** Deleting the member that was just inserted under a free key gives back
    the database. *)
Lemma members_delete_inserted now i r db :
  fk_consistent db →
  members db !! i = None →
  members_delete now i (set_members (<[i := r]> (members db)) db) = Ok db.
Proof.
  intros (Hatt & Hguests & Hpipeliners & _) Hfree. unfold members_delete. simpl.
  rewrite lookup_insert_eq.
  assert (member_unreferenced i (set_members (<[i := r]> (members db)) db) = true)
    as ->.
  { unfold member_unreferenced. simpl.
    apply andb_true_iff. split; apply bool_decide_eq_true.
    - intros j g Hj Hby. specialize (Hguests j g Hj). simpl in Hguests.
      rewrite Hby in Hguests. apply references_Some in Hguests.
      rewrite Hfree in Hguests. by destruct Hguests.
    - intros j p Hj Hby. specialize (Hpipeliners j p Hj). simpl in Hpipeliners.
      rewrite Hby in Hpipeliners. apply references_Some in Hpipeliners.
      rewrite Hfree in Hpipeliners. by destruct Hpipeliners. }
  simpl. rewrite delete_insert_id by done. f_equal.
  rewrite attendance_cascade_none; [by destruct db|].
  intros j a Hj. simpl in Hj. apply bool_decide_eq_false. intros Hm.
  specialize (Hatt j a Hj). simpl in Hatt. unfold attendance_fk in Hatt.
  rewrite !andb_true_iff in Hatt. destruct Hatt as (((_ & Href) & _) & _).
  rewrite Hm in Href. apply references_Some in Href.
  rewrite Hfree in Href. by destruct Href.
Qed.

(** C7 (as amended).  When [promotePipelinerToMember] succeeds, the members
    table has a new row with the name, email and phone of the pipeliner,
    the supplied member number with the white space around it trimmed off
    (and not empty), the supplied join date and the status [active].  The
    row of the pipeliner, when it is still on record, has the status
    [became_member] and the flag cleared; the update does not ask whether
    it matched a row, so when the pipeliner is no longer on record the
    call succeeds all the same and the pipeliners table is as it was.
    When the update of the pipeliner is refused after the insert of the
    member went through (the call itself failed: the update breaks no
    constraint), the hook asks the store to delete the inserted member,
    does not look at the result, and throws the failure of the update: on
    a database whose foreign keys hold, the database is what it was when
    the delete goes through, and keeps the inserted member row when the
    delete fails too. *)
Theorem promotion_to_member_effects `{PipelinerEligibilityLib}
    cached pipelinerId payload env db :
  (∀ member db',
     usePipeliners.promotePipelinerToMember cached pipelinerId payload env db
     = (inr member, db') →
     ∃ pipeliner email,
       List.find (λ item, bool_decide (PipelinerEligibility.id item = pipelinerId))
                 cached = Some pipeliner
       ∧ PipelinerEligibility.email pipeliner = Some email
       ∧ Js.trim (usePipeliners.member_number payload) ≠ []
       ∧ members db !! member = None
       ∧ members db' !! member
         = Some {| Member.full_name := PipelinerEligibility.full_name pipeliner;
                   Member.email := email;
                   Member.phone := PipelinerEligibility.phone pipeliner;
                   Member.member_number :=
                     Some (Js.trim (usePipeliners.member_number payload));
                   Member.join_date := usePipeliners.join_date payload;
                   Member.status := Js.lit "active" |}
       ∧ (∀ old, pipeliners db !! pipelinerId = Some old →
                 ∃ new, pipeliners db' !! pipelinerId = Some new
                        ∧ Pipeliner.status new = Js.lit "became_member"
                        ∧ Pipeliner.is_eligible_for_membership new = false)
       ∧ (pipeliners db !! pipelinerId = None → pipeliners db' = pipeliners db))
  ∧ (∀ pipeliner db1 e,
       fk_consistent db →
       List.find (λ item, bool_decide (PipelinerEligibility.id item = pipelinerId))
                 cached = Some pipeliner →
       usePipeliners.validate pipeliner payload = None →
       supabase (insert_fault env)
         (members_insert (generated_id env)
            (usePipeliners.memberPayload pipeliner payload) db) = Ok db1 →
       supabase (update_fault env)
         (pipeliners_update pipelinerId usePipeliners.became_member db1) = Err e →
       update_fault env = Some e
       ∧ members db !! generated_id env = None
       ∧ members db1 !! generated_id env
         = Some (usePipeliners.memberPayload pipeliner payload)
       ∧ usePipeliners.promotePipelinerToMember cached pipelinerId payload env db
         = (inl (usePipeliners.store_error e),
            match delete_fault env with None => db | Some _ => db1 end)).
Proof.
  split.
  - intros member db' Hdone.
    apply promotePipelinerToMember_done in Hdone
      as (_ & pipeliner & db1 & Hfind & Hvalid & Hins & Hupd).
    apply validate_None in Hvalid as (Hnumber & _ & email & Hemail & _).
    apply members_insert_Ok in Hins as (Hfree & _ & ->).
    apply pipeliners_update_Ok in Hupd. simpl in Hupd.
    exists pipeliner, email. repeat (split; [done|]). split; [|split].
    + destruct (pipeliners db !! pipelinerId); subst db'; simpl;
        rewrite lookup_insert_eq; unfold usePipeliners.memberPayload;
        by rewrite Hemail.
    + intros old Hold. rewrite Hold in Hupd. subst db'. simpl.
      rewrite lookup_insert_eq. by eexists.
    + intros Hgone. rewrite Hgone in Hupd. by subst db'.
  - intros pipeliner db1 e Hfk Hfind Hvalid Hins Hupd.
    unfold usePipeliners.promotePipelinerToMember.
    rewrite Hfind, Hvalid, Hins, Hupd.
    apply supabase_Ok in Hins as [_ Hins].
    apply members_insert_Ok in Hins as (Hfree & _ & ->).
    apply supabase_Err in Hupd as [Hupdate|[_ Hupd]].
    + split; [done|]. split; [done|]. split; [by simpl; rewrite lookup_insert_eq|].
      destruct (delete_fault env) as [e'|]; simpl; [done|].
      by rewrite members_delete_inserted.
    + destruct (became_member_update_accepted pipelinerId
                  (set_members
                     (<[generated_id env := usePipeliners.memberPayload pipeliner payload]>
                        (members db)) db)) as [db2 Hok].
      by rewrite Hok in Hupd.
Qed.

Lemma fk_consistent_Ex_db_with_bob b c flag status :
  fk_consistent (Ex.db_with_bob b c flag status).
Proof. repeat split; apply (bool_decide_unpack _); by vm_compute. Qed.

(** Witness for C7: Bob (3 business meetings, 1 charity event) is promoted
    with member number [RT-099]; and the same promotion with a failing
    second write, the delete going through, leaves the database as it
    was. *)
Lemma promotion_to_member_effects_witness :
  let db := Ex.db_with_bob 3 1 true "active" in
  let cached := [Ex.bob_view 3 1 true "active"] in
  let run := usePipeliners.promotePipelinerToMember (H := spec_lib)
               cached 20%N (Ex.form "RT-099") Ex.calm db in
  (run.1 = inr 50%N
   ∧ Member.member_number <$> members run.2 !! 50%N = Some (Some (Js.lit "RT-099"))
   ∧ Member.status <$> members run.2 !! 50%N = Some (Js.lit "active")
   ∧ ∃ new, pipeliners run.2 !! 20%N = Some new
            ∧ Pipeliner.status new = Js.lit "became_member"
            ∧ Pipeliner.is_eligible_for_membership new = false)
  ∧ usePipeliners.promotePipelinerToMember (H := spec_lib)
      cached 20%N (Ex.form "RT-099") Ex.second_write_fails db
    = (inl (usePipeliners.store_error (store_failure 503)), db).
Proof.
  intros db cached run. split.
  - destruct (promotion_to_member_effects (H := spec_lib)
                cached 20%N (Ex.form "RT-099") Ex.calm db) as [Hdone _].
    destruct (Hdone 50%N run.2 ltac:(by vm_compute))
      as (pipeliner & email & _ & _ & _ & _ & _ & Hnew & _).
    split; [by vm_compute|]. split; [by vm_compute|]. split; [by vm_compute|].
    apply (Hnew (Ex.bob 3 1 true "active")). by vm_compute.
  - destruct (promotion_to_member_effects (H := spec_lib)
                cached 20%N (Ex.form "RT-099") Ex.second_write_fails db)
      as [_ Hfail].
    eapply (Hfail (Ex.bob_view 3 1 true "active")).
    + apply fk_consistent_Ex_db_with_bob.
    + reflexivity.
    + by vm_compute.
    + vm_compute. reflexivity.
    + vm_compute. reflexivity.
Defined.

(** Counterexample to C7 as stated: the update of Bob fails with a 503 and
    the delete that follows fails too.  The hook throws the 503, Bob is
    still an active pipeliner, and the member row inserted under key 50
    is still in the table. *)
Lemma member_row_stays_when_delete_fails :
  let run := usePipeliners.promotePipelinerToMember (H := spec_lib)
               [Ex.bob_view 3 1 true "active"] 20%N (Ex.form "RT-100")
               Ex2.only_insert_works (Ex.db_with_bob 3 1 true "active") in
  members (Ex.db_with_bob 3 1 true "active") !! 50%N = None
  ∧ run.1 = inl (usePipeliners.store_error (store_failure 503))
  ∧ Member.member_number <$> members run.2 !! 50%N = Some (Some (Js.lit "RT-100"))
  ∧ Pipeliner.status <$> pipeliners run.2 !! 20%N = Some (Js.lit "active").
Proof. repeat split; by vm_compute. Qed.

(* ===================================================================== *)
(** * Further properties *)
(* ===================================================================== *)

(** ** Recomputing twice *)

(** X1.  Running a refresh again on an unchanged ledger changes nothing
    but the timestamp: the second run leaves exactly what a single run at
    the later time leaves.  So does the pipeliner refresh. *)
Theorem refresh_again_changes_nothing now now' s db :
  refresh_guest_meeting_count now' s (refresh_guest_meeting_count now s db)
  = refresh_guest_meeting_count now' s db
  ∧ refresh_pipeliner_eligibility now' s (refresh_pipeliner_eligibility now s db)
    = refresh_pipeliner_eligibility now' s db.
Proof.
  destruct s as [k|]; [|done]. split.
  - unfold refresh_guest_meeting_count, guest_attendance_count, set_guests. simpl.
    f_equal. by rewrite alter_alter_eq.
  - unfold refresh_pipeliner_eligibility, pipeliner_present_count,
      charity_event_count_of, set_pipeliners. simpl.
    f_equal. by rewrite alter_alter_eq.
Qed.

(** ** The counters of the pipeliners *)

Lemma pipeliner_exact_at_same db db' p :
  pipeliners db' = pipeliners db →
  attendance db' = attendance db →
  charity_events db' = charity_events db →
  pipeliner_counters_exact_at db p →
  pipeliner_counters_exact_at db' p.
Proof.
  intros Hp Ha Hc Hexact r.
  unfold pipeliner_present_count, charity_event_count_of.
  rewrite Hp, Ha, Hc. apply Hexact.
Qed.

(** A refresh sets the counters of its pipeliner and leaves every exact
    counter exact. *)
Lemma refresh_pipeliner_exact_at now q db p :
  pipeliner_counters_exact_at db p ∨ q = Some p →
  pipeliner_counters_exact_at (refresh_pipeliner_eligibility now q db) p.
Proof.
  intros Hcase. destruct q as [q|]; [|by destruct Hcase].
  intros r. unfold pipeliner_present_count, charity_event_count_of. simpl.
  destruct (decide (q = p)) as [->|Hne].
  - rewrite lookup_alter_eq. destruct (pipeliners db !! p); simpl; [|done].
    by intros [= <-].
  - rewrite lookup_alter_ne by done. destruct Hcase as [Hexact|[= ?]]; [|done].
    apply Hexact.
Qed.

Lemma refresh_each_exact_at now ids db p :
  pipeliner_counters_exact_at db p ∨ p ∈ ids →
  pipeliner_counters_exact_at (refresh_each now ids db) p.
Proof.
  unfold refresh_each. revert db.
  induction ids as [|q ids IH]; intros db Hcase.
  - destruct Hcase as [?|Hin]; [done|]. by apply elem_of_nil in Hin.
  - apply (IH (refresh_pipeliner_eligibility now (Some q) db)).
    destruct Hcase as [Hexact|Hin].
    + left. apply refresh_pipeliner_exact_at. by left.
    + apply elem_of_cons in Hin as [->|Hin]; [|by right].
      left. apply refresh_pipeliner_exact_at. by right.
Qed.

Lemma update_guest_meeting_count_charity_events now ev db :
  charity_events (update_guest_meeting_count now ev db) = charity_events db.
Proof.
  destruct ev; simpl; repeat case_match; try done;
    repeat match goal with
           | |- context [refresh_guest_meeting_count ?n ?g ?d] =>
             destruct g; simpl
           end; done.
Qed.

(** The pipeliner trigger on an attendance row: the pipeliner it names is
    recomputed, every exact counter stays exact. *)
Lemma update_pipeliner_eligibility_exact_at now ev db p :
  pipeliner_counters_exact_at db p
  ∨ match ev with
    | INSERT new => Attendance.pipeliner_id new = Some p
    | UPDATE old new =>
      Attendance.pipeliner_id new = Some p
      ∨ (Attendance.pipeliner_id old = Some p ∧ Attendance.pipeliner_id new ≠ None)
    | DELETE old => Attendance.pipeliner_id old = Some p
    end →
  pipeliner_counters_exact_at (update_pipeliner_eligibility now ev db) p.
Proof.
  intros Hcase. destruct ev as [new|old new|old];
    unfold update_pipeliner_eligibility.
  - destruct (Attendance.pipeliner_id new) as [q|];
      cbn [Sql.holds Sql.is_not_null Sql.and Sql.neq negb].
    + apply refresh_pipeliner_exact_at. naive_solver.
    + by destruct Hcase.
  - destruct (Attendance.pipeliner_id new) as [qn|],
             (Attendance.pipeliner_id old) as [qo|];
      cbn [Sql.holds Sql.is_not_null Sql.and Sql.neq negb].
    + destruct (decide (qo = qn)) as [->|Hdiff].
      * rewrite bool_decide_eq_true_2 by done.
        cbn [Sql.holds Sql.is_not_null Sql.and Sql.neq negb].
        apply refresh_pipeliner_exact_at. naive_solver.
      * rewrite bool_decide_eq_false_2 by done.
        cbn [Sql.holds Sql.is_not_null Sql.and Sql.neq negb].
        destruct (decide (qo = p)) as [->|Hqo].
        -- apply refresh_pipeliner_exact_at. by right.
        -- apply refresh_pipeliner_exact_at. left.
           apply refresh_pipeliner_exact_at. naive_solver.
    + apply refresh_pipeliner_exact_at. naive_solver.
    + naive_solver.
    + naive_solver.
  - destruct (Attendance.pipeliner_id old) as [q|];
      cbn [Sql.holds Sql.is_not_null Sql.and Sql.neq negb].
    + apply refresh_pipeliner_exact_at. naive_solver.
    + by destruct Hcase.
Qed.

Lemma attendance_row_triggers_pipeliner_exact_at now ev db p :
  pipeliner_counters_exact_at db p
  ∨ match ev with
    | INSERT new => Attendance.pipeliner_id new = Some p
    | UPDATE old new =>
      Attendance.pipeliner_id new = Some p
      ∨ (Attendance.pipeliner_id old = Some p ∧ Attendance.pipeliner_id new ≠ None)
    | DELETE old => Attendance.pipeliner_id old = Some p
    end →
  pipeliner_counters_exact_at (attendance_row_triggers now ev db) p.
Proof.
  intros Hcase. unfold attendance_row_triggers.
  apply update_pipeliner_eligibility_exact_at.
  destruct Hcase as [Hexact|Hev]; [left|by right].
  eapply pipeliner_exact_at_same; [| | |done].
  - apply update_guest_meeting_count_pipeliners.
  - apply update_guest_meeting_count_attendance.
  - apply update_guest_meeting_count_charity_events.
Qed.

(** The present-count of a pipeliner that a written row does not name. *)
Lemma pipeliner_count_insert_out db p i r :
  Attendance.pipeliner_id r ≠ Some p →
  (∀ old, attendance db !! i = Some old → Attendance.pipeliner_id old ≠ Some p) →
  pipeliner_present_count (set_attendance (<[i := r]> (attendance db)) db) p
  = pipeliner_present_count db p.
Proof.
  intros Hr Hold. unfold pipeliner_present_count. simpl.
  apply count_where_insert_out.
  - rewrite bool_decide_eq_false_2; done.
  - intros old Hi. rewrite bool_decide_eq_false_2; [done|by eapply Hold].
Qed.

Lemma pipeliner_count_delete_out db p i :
  (∀ old, attendance db !! i = Some old → Attendance.pipeliner_id old ≠ Some p) →
  pipeliner_present_count (set_attendance (delete i (attendance db)) db) p
  = pipeliner_present_count db p.
Proof.
  intros Hold. unfold pipeliner_present_count. simpl.
  apply count_where_delete_out.
  intros old Hi. rewrite bool_decide_eq_false_2; [done|by eapply Hold].
Qed.

Lemma charity_count_insert_out db p i e :
  p ∉ participants e →
  (∀ old, charity_events db !! i = Some old → p ∉ participants old) →
  charity_event_count_of (set_charity_events (<[i := e]> (charity_events db)) db) p
  = charity_event_count_of db p.
Proof.
  intros He Hold. unfold charity_event_count_of. simpl.
  apply count_where_insert_out.
  - by apply bool_decide_eq_false.
  - intros old Hi. apply bool_decide_eq_false. by eapply Hold.
Qed.

Lemma charity_count_delete_out db p i :
  (∀ old, charity_events db !! i = Some old → p ∉ participants old) →
  charity_event_count_of (set_charity_events (delete i (charity_events db)) db) p
  = charity_event_count_of db p.
Proof.
  intros Hold. unfold charity_event_count_of. simpl.
  apply count_where_delete_out.
  intros old Hi. apply bool_decide_eq_false. by eapply Hold.
Qed.

Lemma charity_trigger_exact_at now ev db p :
  pipeliner_counters_exact_at db p
  ∨ match ev with
    | CE_INSERT new => p ∈ participants new
    | CE_UPDATE old new => p ∈ participants old ∨ p ∈ participants new
    | CE_DELETE old => p ∈ participants old
    end →
  pipeliner_counters_exact_at (update_pipeliner_eligibility_from_charity now ev db) p.
Proof.
  intros Hcase. unfold update_pipeliner_eligibility_from_charity.
  destruct ev as [new|old new|old].
  - by apply refresh_each_exact_at.
  - destruct Hcase as [Hexact|[Hold|Hnew]].
    + apply refresh_each_exact_at. left. apply refresh_each_exact_at. by left.
    + apply refresh_each_exact_at. left. apply refresh_each_exact_at. by right.
    + apply refresh_each_exact_at. by right.
  - by apply refresh_each_exact_at.
Qed.

Lemma perform_pipeliner_counters `{PipelinerEligibilityLib} op db db' :
  pipeliner_counters_exact db →
  pipeliner_scope db op = true →
  perform op db = Some db' →
  pipeliner_counters_exact db'.
Proof.
  intros Hinv Hscope Hdone p. specialize (Hinv p).
  destruct op; try done; unfold perform in Hdone.
  - apply completed_Some in Hdone. unfold attendance_insert in Hdone.
    apply guard_or_bind in Hdone as [Hfresh%bool_decide_eq_true Hdone].
    repeat apply guard_or_bind in Hdone as [_ Hdone].
    injection Hdone as <-.
    apply attendance_row_triggers_pipeliner_exact_at.
    destruct (decide (Attendance.pipeliner_id r = Some p)); [by right|left].
    intros row Hrow. unfold charity_event_count_of. simpl in *.
    rewrite pipeliner_count_insert_out; [by apply Hinv|done|].
    intros old. by rewrite Hfresh.
  - apply completed_Some in Hdone. unfold attendance_update in Hdone.
    simpl in Hscope.
    destruct (attendance db !! i) as [old|] eqn:Hold; [|by injection Hdone as <-].
    repeat apply guard_or_bind in Hdone as [_ Hdone].
    injection Hdone as <-.
    apply attendance_row_triggers_pipeliner_exact_at.
    destruct (decide (Attendance.pipeliner_id r = Some p)) as [|Hnew];
      [right; by left|].
    destruct (decide (Attendance.pipeliner_id old = Some p)) as [Hp|Hout].
    + right. right. split; [done|]. intros Hnone.
      rewrite Hp, Hnone in Hscope.
      rewrite !bool_decide_eq_true_2 in Hscope by eauto. done.
    + left. intros row Hrow. unfold charity_event_count_of. simpl in *.
      rewrite pipeliner_count_insert_out; [by apply Hinv|done|].
      intros old'. rewrite Hold. by intros [= <-].
  - apply completed_Some in Hdone. unfold attendance_delete in Hdone.
    destruct (attendance db !! i) as [old|] eqn:Hold; injection Hdone as <-;
      [|done].
    apply attendance_row_triggers_pipeliner_exact_at.
    destruct (decide (Attendance.pipeliner_id old = Some p)); [by right|left].
    intros row Hrow. unfold charity_event_count_of. simpl in *.
    rewrite pipeliner_count_delete_out; [by apply Hinv|].
    intros old'. rewrite Hold. by intros [= <-].
  - apply completed_Some in Hdone. unfold charity_events_insert in Hdone.
    apply guard_or_bind in Hdone as [Hfresh%bool_decide_eq_true Hdone].
    injection Hdone as <-. apply charity_trigger_exact_at.
    destruct (decide (p ∈ participants r)); [by right|left].
    intros row Hrow. unfold pipeliner_present_count. simpl in *.
    rewrite charity_count_insert_out; [by apply Hinv|done|].
    intros old. by rewrite Hfresh.
  - apply completed_Some in Hdone. unfold charity_events_update in Hdone.
    destruct (charity_events db !! i) as [old|] eqn:Hold;
      injection Hdone as <-; [|done].
    apply charity_trigger_exact_at.
    destruct (decide (p ∈ participants old)); [right; by left|].
    destruct (decide (p ∈ participants r)); [right; by right|left].
    intros row Hrow. unfold pipeliner_present_count. simpl in *.
    rewrite charity_count_insert_out; [by apply Hinv|done|].
    intros old'. rewrite Hold. by intros [= <-].
  - apply completed_Some in Hdone. unfold charity_events_delete in Hdone.
    destruct (charity_events db !! i) as [old|] eqn:Hold;
      injection Hdone as <-; [|done].
    apply charity_trigger_exact_at.
    destruct (decide (p ∈ participants old)); [by right|left].
    intros row Hrow. unfold pipeliner_present_count. simpl in *.
    rewrite charity_count_delete_out; [by apply Hinv|].
    intros old'. rewrite Hold. by intros [= <-].
  - destruct (usePipeliners.promotePipelinerToMember _ _ _ _ _)
      as [[error|member] db2] eqn:Hrun; [done|].
    injection Hdone as <-.
    apply promotePipelinerToMember_done in Hrun
      as (_ & pipeliner & db1 & _ & _ & Hins & Hupd).
    apply members_insert_Ok in Hins as (_ & _ & ->).
    apply pipeliners_update_Ok in Hupd. simpl in Hupd.
    destruct (pipeliners db !! pipelinerId) as [old|] eqn:Hold; subst db2;
      [|done].
    intros row. unfold pipeliner_present_count, charity_event_count_of. simpl.
    destruct (decide (pipelinerId = p)) as [->|Hne].
    + rewrite lookup_insert_eq. intros [= <-]. simpl. by apply Hinv.
    + rewrite lookup_insert_ne by done. apply Hinv.
Qed.

(** X2.  The stored counters of every pipeliner ([business_meetings_count]
    and [charity_events_count]) equal the ledgers' counts after every
    sequence of completed inserts, updates and deletes of attendance rows
    and charity events and promotions to member, as long as no update takes
    an attendance row away from a pipeliner without naming another. *)
Theorem pipeliner_counters_match_ledgers `{PipelinerEligibilityLib} ops db db' :
  pipeliner_counters_exact db →
  within pipeliner_scope ops db = true →
  run ops db = Some db' →
  pipeliner_counters_exact db'.
Proof.
  revert db. induction ops as [|op ops IH]; intros db Hinv Hscope Hrun.
  - by injection Hrun as <-.
  - simpl in Hrun, Hscope.
    destruct (perform op db) as [db1|] eqn:Hop; [|done].
    apply andb_true_iff in Hscope as [Hop_scope Hrest].
    apply (IH db1); [|done|done].
    by eapply perform_pipeliner_counters.
Qed.

Lemma pipeliner_counters_exact_Ex_db : pipeliner_counters_exact Ex.db.
Proof.
  intros p r Hp. unfold Ex.db, pipeliners in Hp.
  apply lookup_singleton_Some in Hp as [<- <-]. by vm_compute.
Qed.

(** Witness for X2: the ledger history of Bob. *)
Lemma pipeliner_counters_match_ledgers_witness :
  ∃ db', run (H := spec_lib) Ex2.ledger_history Ex.db = Some db'
         ∧ pipeliner_counters_exact db'
         ∧ Pipeliner.business_meetings_count <$> pipeliners db' !! 20%N = Some 3.
Proof.
  eexists. split; [by vm_compute|]. split; [|by vm_compute].
  apply (pipeliner_counters_match_ledgers (H := spec_lib) Ex2.ledger_history Ex.db).
  - apply pipeliner_counters_exact_Ex_db.
  - by vm_compute.
  - by vm_compute.
Defined.

(** ** Cascading deletes *)

(** The row triggers write the guests and the pipeliners only. *)
Lemma attendance_row_triggers_frame now ev db :
  members (attendance_row_triggers now ev db) = members db
  ∧ meetings (attendance_row_triggers now ev db) = meetings db
  ∧ charity_events (attendance_row_triggers now ev db) = charity_events db
  ∧ guest_events (attendance_row_triggers now ev db) = guest_events db.
Proof.
  unfold attendance_row_triggers, update_pipeliner_eligibility,
    update_guest_meeting_count.
  destruct ev as [new|old new|old];
    repeat match goal with
           | |- context [Attendance.guest_id ?r] =>
             destruct (Attendance.guest_id r); simpl
           | |- context [Attendance.pipeliner_id ?r] =>
             destruct (Attendance.pipeliner_id r); simpl
           | |- context [bool_decide ?P] => destruct (bool_decide P); simpl
           end; done.
Qed.

(** They keep the keys of both tables. *)
Lemma refresh_guest_keys now g db k :
  guests (refresh_guest_meeting_count now g db) !! k = None ↔ guests db !! k = None.
Proof.
  destruct g as [g|]; [|done]. simpl. rewrite lookup_alter.
  case_decide; [subst|done]. by rewrite fmap_None.
Qed.

Lemma refresh_pipeliner_keys now p db k :
  pipeliners (refresh_pipeliner_eligibility now p db) !! k = None
  ↔ pipeliners db !! k = None.
Proof.
  destruct p as [p|]; [|done]. simpl. rewrite lookup_alter.
  case_decide; [subst|done]. by rewrite fmap_None.
Qed.

Lemma attendance_row_triggers_keys now ev db k :
  (guests (attendance_row_triggers now ev db) !! k = None ↔ guests db !! k = None)
  ∧ (pipeliners (attendance_row_triggers now ev db) !! k = None
     ↔ pipeliners db !! k = None).
Proof.
  unfold attendance_row_triggers. split.
  - rewrite update_pipeliner_eligibility_guests.
    destruct ev; simpl; repeat case_match; by rewrite ?refresh_guest_keys.
  - transitivity (pipeliners (update_guest_meeting_count now ev db) !! k = None);
      [|by rewrite update_guest_meeting_count_pipeliners].
    generalize (update_guest_meeting_count now ev db). intros db1.
    destruct ev; simpl; repeat case_match; by rewrite ?refresh_pipeliner_keys.
Qed.

Lemma guest_exact_at_same db db' g :
  guests db' = guests db →
  attendance db' = attendance db →
  guest_counter_exact_at db g →
  guest_counter_exact_at db' g.
Proof.
  intros Hg Ha Hexact r. unfold guest_attendance_count.
  rewrite Hg, Ha. apply Hexact.
Qed.

(** The guest trigger: the guest it names is recomputed, every exact
    counter stays exact. *)
Lemma attendance_row_triggers_guest_exact_at now ev db g :
  guest_counter_exact_at db g
  ∨ match ev with
    | INSERT new => Attendance.guest_id new = Some g
    | UPDATE old new =>
      Attendance.guest_id new = Some g
      ∨ (Attendance.guest_id old = Some g ∧ Attendance.guest_id new ≠ None)
    | DELETE old => Attendance.guest_id old = Some g
    end →
  guest_counter_exact_at (attendance_row_triggers now ev db) g.
Proof.
  intros Hcase r Hr. rewrite attendance_row_triggers_guests in Hr.
  unfold guest_attendance_count. rewrite attendance_row_triggers_attendance.
  apply update_guest_meeting_count_row in Hr as [Hset|[Hr Hout]]; [done|].
  destruct Hcase as [Hexact|Hev]; [by apply Hexact|].
  destruct ev; naive_solver.
Qed.

(** A cascade removes the selected rows and nothing else, and leaves every
    exact counter exact: the guests and pipeliners of the removed rows are
    recomputed. *)
Lemma attendance_cascade_exact now c db :
  attendance (attendance_cascade now c db)
  = filter (λ kv, c kv.2 ≠ true) (attendance db)
  ∧ (∀ g, guest_counter_exact_at db g →
          guest_counter_exact_at (attendance_cascade now c db) g)
  ∧ (∀ p, pipeliner_counters_exact_at db p →
          pipeliner_counters_exact_at (attendance_cascade now c db) p).
Proof.
  unfold attendance_cascade.
  set (kept := filter (λ kv, c kv.2 ≠ true) (attendance db)).
  set (gone := filter (λ kv, c kv.2 = true) (attendance db)).
  set (db0 := set_attendance kept db).
  assert (∀ i x, kept !! i = Some x ↔ attendance db !! i = Some x ∧ c x ≠ true)
    as Hkept.
  { intros i x. unfold kept. by rewrite map_lookup_filter_Some. }
  assert (∀ i x, gone !! i = Some x ↔ attendance db !! i = Some x ∧ c x = true)
    as Hgone.
  { intros i x. unfold gone. by rewrite map_lookup_filter_Some. }
  pose (P := λ (acc : Database) (m : gmap uuid Attendance.Row),
    attendance acc = kept
    ∧ (∀ g, guest_counter_exact_at db0 g
            ∨ (∃ i x, m !! i = Some x ∧ Attendance.guest_id x = Some g) →
            guest_counter_exact_at acc g)
    ∧ (∀ p, pipeliner_counters_exact_at db0 p
            ∨ (∃ i x, m !! i = Some x ∧ Attendance.pipeliner_id x = Some p) →
            pipeliner_counters_exact_at acc p)).
  assert (P (map_fold (λ _ old acc, attendance_row_triggers now (DELETE old) acc)
                      db0 gone) gone) as (Hatt & Hguests & Hpipeliners).
  { apply (map_fold_weak_ind P).
    - split; [done|]. split.
      + intros g [?|(i & x & Hi & _)]; [done|]. by rewrite lookup_empty in Hi.
      + intros p [?|(i & x & Hi & _)]; [done|]. by rewrite lookup_empty in Hi.
    - intros i x m acc Hfree (Hatt & Hguests & Hpipeliners). split; [|split].
      + by rewrite attendance_row_triggers_attendance.
      + intros g Hcase. apply attendance_row_triggers_guest_exact_at.
        destruct Hcase as [Hexact|(j & y & Hj & Hy)].
        * left. apply Hguests. by left.
        * destruct (decide (i = j)) as [->|Hne].
          -- rewrite lookup_insert_eq in Hj. injection Hj as ->. by right.
          -- rewrite lookup_insert_ne in Hj by done. left. apply Hguests.
             right. by exists j, y.
      + intros p Hcase. apply attendance_row_triggers_pipeliner_exact_at.
        destruct Hcase as [Hexact|(j & y & Hj & Hy)].
        * left. apply Hpipeliners. by left.
        * destruct (decide (i = j)) as [->|Hne].
          -- rewrite lookup_insert_eq in Hj. injection Hj as ->. by right.
          -- rewrite lookup_insert_ne in Hj by done. left. apply Hpipeliners.
             right. by exists j, y. }
  split; [done|]. split.
  - intros g Hexact. apply Hguests.
    destruct (decide (map_Exists (λ _ x, Attendance.guest_id x = Some g) gone))
      as [(i & x & Hi & Hx)|Hnone]; [right; by exists i, x|left].
    intros r Hr. simpl in Hr. rewrite (Hexact r Hr).
    unfold guest_attendance_count. simpl. apply count_where_agree.
    intros i x Hx. rewrite Hkept. split; [|by intros [? _]].
    intros Hi. split; [done|]. intros Hc. apply Hnone. exists i, x.
    split; [by apply Hgone|].
    apply andb_true_iff in Hx as [Hx _]. by apply bool_decide_eq_true in Hx.
  - intros p Hexact. apply Hpipeliners.
    destruct (decide (map_Exists (λ _ x, Attendance.pipeliner_id x = Some p) gone))
      as [(i & x & Hi & Hx)|Hnone]; [right; by exists i, x|left].
    intros r Hr. simpl in Hr. destruct (Hexact r Hr) as [Hb Hc].
    split; [|done]. rewrite Hb.
    unfold pipeliner_present_count. simpl. apply count_where_agree.
    intros i x Hx. rewrite Hkept. split; [|by intros [? _]].
    intros Hi. split; [done|]. intros Hcx. apply Hnone. exists i, x.
    split; [by apply Hgone|].
    apply andb_true_iff in Hx as [Hx _]. by apply bool_decide_eq_true in Hx.
Qed.

(** A cascade writes the guests and the pipeliners only, and keeps their
    keys. *)
Lemma attendance_cascade_frame now c db :
  members (attendance_cascade now c db) = members db
  ∧ meetings (attendance_cascade now c db) = meetings db
  ∧ charity_events (attendance_cascade now c db) = charity_events db
  ∧ guest_events (attendance_cascade now c db) = guest_events db
  ∧ (∀ k, guests (attendance_cascade now c db) !! k = None ↔ guests db !! k = None)
  ∧ (∀ k, pipeliners (attendance_cascade now c db) !! k = None
          ↔ pipeliners db !! k = None).
Proof.
  unfold attendance_cascade.
  set (db0 := set_attendance _ db).
  pose (P := λ (acc : Database) (m : gmap uuid Attendance.Row),
    members acc = members db ∧ meetings acc = meetings db
    ∧ charity_events acc = charity_events db ∧ guest_events acc = guest_events db
    ∧ (∀ k, guests acc !! k = None ↔ guests db !! k = None)
    ∧ (∀ k, pipeliners acc !! k = None ↔ pipeliners db !! k = None)).
  apply (map_fold_weak_ind P); [done|].
  intros i x m acc _ (Hm & Hmt & Hc & Hge & Hg & Hp).
  destruct (attendance_row_triggers_frame now (DELETE x) acc)
    as (Hm' & Hmt' & Hc' & Hge').
  split; [congruence|]. split; [congruence|]. split; [congruence|].
  split; [congruence|]. split; intros k.
  - rewrite <- Hg. apply attendance_row_triggers_keys.
  - rewrite <- Hp. apply attendance_row_triggers_keys.
Qed.

Lemma guest_counters_exact_decide db :
  map_Forall (λ g r, Guest.total_meetings r
                     = guest_attendance_count db g (is_status present))
             (guests db) →
  guest_counters_exact db.
Proof. intros Hall g r. apply Hall. Qed.

Lemma pipeliner_counters_exact_decide db :
  map_Forall (λ p r, Pipeliner.business_meetings_count r = pipeliner_present_count db p
                     ∧ Pipeliner.charity_events_count r = charity_event_count_of db p)
             (pipeliners db) →
  pipeliner_counters_exact db.
Proof. intros Hall p r. apply Hall. Qed.

(** X3.  Deleting a meeting removes its attendance rows and no others, and
    the counters of all guests and pipeliners are exact afterwards: the
    cascade fires the row triggers for the rows it removes. *)
Theorem deleting_a_meeting_keeps_counters cached i env db cached' db' :
  guest_counters_exact db →
  pipeliner_counters_exact db →
  fk_consistent db →
  useMeetings.deleteMeeting cached i env db = Ok (cached', db') →
  guest_counters_exact db'
  ∧ pipeliner_counters_exact db'
  ∧ meetings db' !! i = None
  ∧ (∀ j a, attendance db' !! j = Some a
            ↔ attendance db !! j = Some a ∧ Attendance.meeting_id a ≠ i)
  ∧ (∀ m, m ∈ cached' ↔ m ∈ cached ∧ useMeetings.id m ≠ i).
Proof.
  intros Hguests Hpipeliners (Hfk & _) Hdone.
  unfold useMeetings.deleteMeeting in Hdone.
  destruct (supabase _ _) as [db1|] eqn:Hdel; [|done].
  injection Hdone as <- <-.
  apply supabase_Ok in Hdel as [_ Hdel]. unfold meetings_delete in Hdel.
  assert (∀ m, m ∈ filter (λ meeting, useMeetings.id meeting ≠ i) cached
               ↔ m ∈ cached ∧ useMeetings.id m ≠ i) as Hcached.
  { intros m. rewrite list_elem_of_filter. tauto. }
  destruct (meetings db !! i) as [old|] eqn:Hold; injection Hdel as <-.
  - destruct (attendance_cascade_exact (pg_now env)
                (λ a, bool_decide (Attendance.meeting_id a = i))
                (set_meetings (delete i (meetings db)) db))
      as (Hrows & Hg & Hp).
    destruct (attendance_cascade_frame (pg_now env)
                (λ a, bool_decide (Attendance.meeting_id a = i))
                (set_meetings (delete i (meetings db)) db))
      as (_ & Hmeetings & _).
    split; [|split; [|split; [|split]]]; [| | | |done].
    + intros g. apply (Hg g). apply (guest_exact_at_same db); [done..|].
      exact (Hguests g).
    + intros p. apply (Hp p). apply (pipeliner_exact_at_same db); [done..|].
      exact (Hpipeliners p).
    + rewrite Hmeetings. apply lookup_delete_eq.
    + intros j a. rewrite Hrows, map_lookup_filter_Some. simpl.
      by rewrite bool_decide_eq_true.
  - split; [done|]. split; [done|]. split; [done|]. split; [|done].
    intros j a. split; [|by intros [? _]]. intros Hj. split; [done|].
    intros <-. specialize (Hfk j a Hj). simpl in Hfk. unfold attendance_fk in Hfk.
    rewrite !andb_true_iff in Hfk. destruct Hfk as (((Href & _) & _) & _).
    apply references_Some in Href. rewrite Hold in Href. by destruct Href.
Qed.

Lemma fk_consistent_decide db :
  bool_decide
    (map_Forall (λ _ a, attendance_fk a db = true) (attendance db)
     ∧ map_Forall (λ _ g, references (Guest.invited_by g) (members db) = true)
                  (guests db)
     ∧ map_Forall (λ _ p, references (Pipeliner.sponsored_by p) (members db) = true)
                  (pipeliners db)
     ∧ map_Forall (λ _ e, references (Some (GuestEvent.guest_id e)) (guests db) = true)
                  (guest_events db)) = true →
  fk_consistent db.
Proof. apply bool_decide_eq_true. Qed.

(** Witness for X3: the meeting Ann attended is deleted; her counter goes
    from 1 to 0 and the ledger is empty again. *)
Lemma deleting_a_meeting_keeps_counters_witness :
  ∃ db',
    useMeetings.deleteMeeting [Ex2.first_meeting] 1%N Ex.calm Ex.db_one_present
    = Ok ([], db')
    ∧ Guest.total_meetings <$> guests Ex.db_one_present !! 10%N = Some 1
    ∧ Guest.total_meetings <$> guests db' !! 10%N = Some 0
    ∧ guest_counters_exact db'
    ∧ attendance db' = ∅.
Proof.
  eexists. split; [by vm_compute|]. split; [by vm_compute|].
  split; [by vm_compute|]. split; [|by vm_compute].
  eapply (deleting_a_meeting_keeps_counters [Ex2.first_meeting] 1%N Ex.calm
            Ex.db_one_present).
  - apply guest_counters_exact_decide, (bool_decide_unpack _). by vm_compute.
  - apply pipeliner_counters_exact_decide, (bool_decide_unpack _). by vm_compute.
  - apply fk_consistent_decide. by vm_compute.
  - by vm_compute.
Defined.

(** X4.  [deletePipeliner] removes the pipeliner, its attendance rows and
    no others, and its row in the hook's state; the counters of all guests
    and of the remaining pipeliners are exact afterwards. *)
Theorem deleting_a_pipeliner_keeps_counters cached id env db cached' db' :
  guest_counters_exact db →
  pipeliner_counters_exact db →
  fk_consistent db →
  deletePipeliner cached id env db = Ok (cached', db') →
  guest_counters_exact db'
  ∧ pipeliner_counters_exact db'
  ∧ pipeliners db' !! id = None
  ∧ (∀ j a, attendance db' !! j = Some a
            ↔ attendance db !! j = Some a ∧ Attendance.pipeliner_id a ≠ Some id)
  ∧ (∀ p, p ∈ cached' ↔ p ∈ cached ∧ PipelinerEligibility.id p ≠ id).
Proof.
  intros Hguests Hpipeliners (Hfk & _) Hdone.
  unfold deletePipeliner in Hdone.
  destruct (supabase _ _) as [db1|] eqn:Hdel; [|done].
  injection Hdone as <- <-.
  apply supabase_Ok in Hdel as [_ Hdel]. unfold pipeliners_delete in Hdel.
  assert (∀ p, p ∈ filter (λ pipeliner, PipelinerEligibility.id pipeliner ≠ id) cached
               ↔ p ∈ cached ∧ PipelinerEligibility.id p ≠ id) as Hcached.
  { intros p. rewrite list_elem_of_filter. tauto. }
  destruct (pipeliners db !! id) as [old|] eqn:Hold; injection Hdel as <-.
  - destruct (attendance_cascade_exact (pg_now env)
                (λ a, bool_decide (Attendance.pipeliner_id a = Some id))
                (set_pipeliners (delete id (pipeliners db)) db))
      as (Hrows & Hg & Hp).
    destruct (attendance_cascade_frame (pg_now env)
                (λ a, bool_decide (Attendance.pipeliner_id a = Some id))
                (set_pipeliners (delete id (pipeliners db)) db))
      as (_ & _ & _ & _ & _ & Hkeys).
    split; [|split; [|split; [|split]]]; [| | | |done].
    + intros g. apply (Hg g). apply (guest_exact_at_same db); [done..|].
      exact (Hguests g).
    + intros p. apply (Hp p). intros r. 
      unfold pipeliner_present_count, charity_event_count_of. simpl.
      destruct (decide (id = p)) as [->|Hne].
      * by rewrite lookup_delete_eq.
      * rewrite lookup_delete_ne by done. apply Hpipeliners.
    + apply Hkeys. simpl. apply lookup_delete_eq.
    + intros j a. rewrite Hrows, map_lookup_filter_Some. simpl.
      by rewrite bool_decide_eq_true.
  - split; [done|]. split; [done|]. split; [done|]. split; [|done].
    intros j a. split; [|by intros [? _]]. intros Hj. split; [done|].
    intros Hp. specialize (Hfk j a Hj). simpl in Hfk. unfold attendance_fk in Hfk.
    rewrite !andb_true_iff in Hfk. destruct Hfk as (_ & Href).
    rewrite Hp in Href. apply references_Some in Href.
    rewrite Hold in Href. by destruct Href.
Qed.

(** Witness for X4: Bob, with one attended meeting on record, is deleted. *)
Lemma deleting_a_pipeliner_keeps_counters_witness :
  ∃ db',
    deletePipeliner [Ex.bob_view 1 0 false "active"] 20%N Ex.calm Ex2.db_bob_attends
    = Ok ([], db')
    ∧ size (attendance Ex2.db_bob_attends) = 1%nat
    ∧ attendance db' = ∅
    ∧ pipeliners db' !! 20%N = None
    ∧ pipeliner_counters_exact db'.
Proof.
  eexists. split; [by vm_compute|]. split; [by vm_compute|].
  split; [by vm_compute|]. split; [by vm_compute|].
  eapply (deleting_a_pipeliner_keeps_counters [Ex.bob_view 1 0 false "active"] 20%N
            Ex.calm Ex2.db_bob_attends).
  - apply guest_counters_exact_decide, (bool_decide_unpack _). by vm_compute.
  - apply pipeliner_counters_exact_decide, (bool_decide_unpack _). by vm_compute.
  - apply fk_consistent_decide. by vm_compute.
  - by vm_compute.
Defined.

(** ** Counting, continued *)

(** Three conditions that split a fourth split its count. *)
Lemma count_where_split {A} (c c1 c2 c3 : A → bool) (t : gmap uuid A) :
  (∀ x, (if c x then 1 else 0)
        = (if c1 x then 1 else 0) + (if c2 x then 1 else 0) + (if c3 x then 1 else 0)) →
  count_where c t = count_where c1 t + count_where c2 t + count_where c3 t.
Proof.
  intros Hsplit. induction t as [|i x t Hfree IH] using map_ind.
  - by rewrite !count_where_empty.
  - rewrite !count_where_insert_fresh by done. rewrite IH, (Hsplit x). lia.
Qed.

(** X5.  In both views the number of attendance rows of a subject is the
    sum of its present, apology and absent rows; so a guest the view calls
    eligible has at least three attendance rows. *)
Theorem view_counts_add_up db :
  (∀ g r,
     let v := guest_meeting_counts_row db g r in
     GuestMeetingCounts.meeting_count v
     = GuestMeetingCounts.present_count v + GuestMeetingCounts.apology_count v
       + GuestMeetingCounts.absent_count v
     ∧ 0 ≤ GuestMeetingCounts.present_count v
     ∧ 0 ≤ GuestMeetingCounts.apology_count v
     ∧ 0 ≤ GuestMeetingCounts.absent_count v
     ∧ (GuestMeetingCounts.eligible_for_pipeliner v = true →
        3 ≤ GuestMeetingCounts.meeting_count v))
  ∧ (∀ m,
       let v := member_attendance_summary_row db m in
       MemberAttendanceSummary.total_meetings v
       = MemberAttendanceSummary.present_count v
         + MemberAttendanceSummary.apology_count v
         + MemberAttendanceSummary.absent_count v).
Proof.
  assert (∀ s : AttendanceStatus,
            1 = (if is_status present s then 1 else 0)
                + (if is_status apology s then 1 else 0)
                + (if is_status absent s then 1 else 0)) as Hstatus.
  { by intros []. }
  split.
  - intros g r. simpl.
    assert (guest_attendance_count db g (λ _, true)
            = guest_attendance_count db g (is_status present)
              + guest_attendance_count db g (is_status apology)
              + guest_attendance_count db g (is_status absent)) as Hsum.
    { unfold guest_attendance_count. apply count_where_split. intros a.
      destruct (bool_decide (Attendance.guest_id a = Some g)); simpl; [|done].
      apply Hstatus. }
    pose proof (count_where_nonneg
      (λ a, bool_decide (Attendance.guest_id a = Some g)
            && is_status present (Attendance.status a)) (attendance db)).
    pose proof (count_where_nonneg
      (λ a, bool_decide (Attendance.guest_id a = Some g)
            && is_status apology (Attendance.status a)) (attendance db)).
    pose proof (count_where_nonneg
      (λ a, bool_decide (Attendance.guest_id a = Some g)
            && is_status absent (Attendance.status a)) (attendance db)).
    unfold guest_attendance_count in *.
    repeat split; try done.
    intros [Hthree _]%meets_thresholds_spec. lia.
  - intros m. simpl. unfold member_attendance_count.
    apply count_where_split. intros a.
    destruct (bool_decide (Attendance.member_id a = Some m)
              && bool_decide (is_Some (meetings db !! Attendance.meeting_id a)));
      simpl; [|done].
    apply Hstatus.
Qed.

(** ** The view's and the trigger's count of charity events *)

Lemma occurrences_positive (p : uuid) (l : list uuid) :
  p ∈ l ↔ (0 < length (filter (λ q, q = p) l))%nat.
Proof.
  induction l as [|x l IH]; simpl.
  - split; [by intros ?%elem_of_nil|lia].
  - rewrite filter_cons, elem_of_cons. destruct (decide (x = p)) as [->|Hne].
    + simpl. split; [lia|by left].
    + rewrite <- IH. naive_solver.
Qed.

Lemma occurrences_distinct (p : uuid) (l : list uuid) :
  NoDup l → (length (filter (λ q, q = p) l) ≤ 1)%nat.
Proof.
  induction 1 as [|x l Hx _ IH]; [simpl; lia|].
  rewrite filter_cons. destruct (decide (x = p)) as [->|Hne]; [|done].
  simpl. destruct (length (filter (λ q, q = p) l)) eqn:Hlen; [lia|].
  exfalso. apply Hx, occurrences_positive. lia.
Qed.

Lemma unnest_fold_insert (p : uuid) (t : gmap uuid CharityEvent.Row) i e :
  t !! i = None →
  map_fold (λ _ e acc, acc + Z.of_nat (length (filter (λ q, q = p) (participants e))))
           0 (<[i := e]> t)
  = map_fold (λ _ e acc, acc + Z.of_nat (length (filter (λ q, q = p) (participants e))))
             0 t
    + Z.of_nat (length (filter (λ q, q = p) (participants e))).
Proof.
  intros Hfree.
  rewrite (map_fold_insert_L
             (λ _ e acc, acc + Z.of_nat (length (filter (λ q, q = p) (participants e)))));
    [done| |done].
  intros. lia.
Qed.

Lemma unnest_against_containment (p : uuid) (t : gmap uuid CharityEvent.Row) :
  let unnested :=
    map_fold (λ _ e acc, acc + Z.of_nat (length (filter (λ q, q = p) (participants e))))
             0 t in
  let containing := count_where (λ e, bool_decide (p ∈ participants e)) t in
  containing ≤ unnested
  ∧ (containing = 0 → unnested = 0)
  ∧ (map_Forall (λ _ e, NoDup (participants e)) t → unnested = containing).
Proof.
  induction t as [|i e t Hfree IH] using map_ind; simpl.
  - rewrite map_fold_empty, count_where_empty. done.
  - simpl in IH. destruct IH as (Hle & Hzero & Heq).
    rewrite unnest_fold_insert, count_where_insert_fresh by done.
    pose proof (count_where_nonneg (λ e, bool_decide (p ∈ participants e)) t) as Hpos.
    pose proof (occurrences_positive p (participants e)) as Hocc.
    destruct (bool_decide (p ∈ participants e)) eqn:Hin.
    + apply bool_decide_eq_true in Hin. apply Hocc in Hin as Hin'.
      split; [lia|]. split; [lia|].
      intros Hall. apply map_Forall_insert in Hall as [He Hall]; [|done].
      pose proof (occurrences_distinct p _ He). rewrite (Heq Hall). lia.
    + apply bool_decide_eq_false in Hin.
      assert (length (filter (λ q, q = p) (participants e)) = 0%nat) as ->.
      { destruct (length (filter (λ q, q = p) (participants e))) eqn:Hlen; [done|].
        exfalso. apply Hin, Hocc. lia. }
      split; [lia|]. split; [intros ?; rewrite Hzero; lia|].
      intros Hall. apply map_Forall_insert in Hall as [_ Hall]; [|done].
      rewrite (Heq Hall). lia.
Qed.

Lemma view_and_trigger_counts db p :
  charity_event_count_of db p ≤ unnest_count db p
  ∧ (charity_event_count_of db p = 0 → unnest_count db p = 0)
  ∧ (participants_distinct db → unnest_count db p = charity_event_count_of db p).
Proof. apply (unnest_against_containment p (charity_events db)). Qed.

(** X6.  The [pipeliner_eligibility] view counts a pipeliner listed twice
    in one event twice, the trigger once; the view's count is never below
    the trigger's, the two agree when no array lists an id twice, and
    either is at least 1 when the other is.  So for a pipeliner whose
    stored counters are the trigger's counts, the view's
    [meets_requirements] is the verdict of the thresholds on the stored
    counters, whatever the arrays hold. *)
Theorem view_agrees_with_trigger_on_requirements db p :
  charity_event_count_of db p ≤ unnest_count db p
  ∧ (1 ≤ unnest_count db p ↔ 1 ≤ charity_event_count_of db p)
  ∧ (participants_distinct db → unnest_count db p = charity_event_count_of db p)
  ∧ (∀ r, pipeliners db !! p = Some r → pipeliner_counters_exact_at db p →
          PipelinerEligibility.meets_requirements (pipeliner_eligibility_row db p r)
          = meets_thresholds (Pipeliner.business_meetings_count r)
                             (Pipeliner.charity_events_count r)).
Proof.
  pose proof (unnest_against_containment p (charity_events db)) as Hcmp.
  simpl in Hcmp. destruct Hcmp as (Hle & Hzero & Heq).
  pose proof (count_where_nonneg (λ e, bool_decide (p ∈ participants e))
                                 (charity_events db)) as Hpos.
  fold (unnest_count db p) in Hle, Hzero, Heq.
  fold (charity_event_count_of db p) in Hle, Hzero, Heq, Hpos.
  assert (1 ≤ unnest_count db p ↔ 1 ≤ charity_event_count_of db p) as Hone.
  { split; [|lia]. intros Hu.
    destruct (decide (charity_event_count_of db p = 0)) as [Hc|Hc]; [|lia].
    specialize (Hzero Hc). lia. }
  repeat split; try done; try apply Hone.
  intros r Hr Hexact. destruct (Hexact r Hr) as [Hb Hc]. simpl.
  rewrite Hb, Hc. unfold meets_thresholds.
  f_equal. apply eq_true_iff_eq. rewrite !Z.leb_le. done.
Qed.

(** ** useCharityEvents *)

Lemma unique_in_order_elem seen l k :
  k ∈ useCharityEvents.unique_in_order seen l ↔ k ∈ l ∧ k ∉ seen.
Proof.
  revert seen. induction l as [|x l IH]; intros seen; simpl.
  - split; [by intros ?%elem_of_nil|by intros [?%elem_of_nil _]].
  - destruct (bool_decide (x ∈ seen)) eqn:Hseen.
    + apply bool_decide_eq_true in Hseen. rewrite IH, elem_of_cons.
      split; [naive_solver|]. intros [[->|?] ?]; done.
    + apply bool_decide_eq_false in Hseen.
      rewrite !elem_of_cons, IH, elem_of_cons.
      split; [naive_solver|]. intros [[->|?] ?]; [by left|].
      destruct (decide (k = x)) as [->|]; [by left|right; naive_solver].
Qed.

Lemma unique_in_order_NoDup seen l : NoDup (useCharityEvents.unique_in_order seen l).
Proof.
  revert seen. induction l as [|x l IH]; intros seen; simpl; [constructor|].
  destruct (bool_decide (x ∈ seen)); [apply IH|].
  constructor; [|apply IH].
  rewrite unique_in_order_elem, elem_of_cons. naive_solver.
Qed.

Lemma unique_in_order_sublist seen l :
  useCharityEvents.unique_in_order seen l `sublist_of` l.
Proof.
  revert seen. induction l as [|x l IH]; intros seen; simpl; [done|].
  destruct (bool_decide (x ∈ seen)).
  - apply sublist_cons. apply IH.
  - apply sublist_skip. apply IH.
Qed.

(** A list without repetition comes back as it is. *)
Lemma unique_in_order_distinct seen l :
  NoDup l → (∀ k, k ∈ l → k ∉ seen) → useCharityEvents.unique_in_order seen l = l.
Proof.
  intros Hl. revert seen. induction Hl as [|x l Hx _ IH]; intros seen Hseen; [done|].
  simpl. rewrite bool_decide_eq_false_2 by (apply Hseen; by left).
  f_equal. apply IH. intros k Hk. rewrite elem_of_cons.
  intros [->|?]; [done|]. apply (Hseen k); [by right|done].
Qed.

(** X7.  The [participant_ids] that [normalizeCharityEventPayload] hands to
    the store list every non-empty id of the two form arrays exactly once,
    in the order of the form (a list without repetition is kept as it is),
    and an empty selection is stored as [NULL], never as an empty array. *)
Theorem normalized_participants_are_distinct values :
  let supplied :=
    omap (λ i : option uuid, i)
         (default [] (useCharityEvents.participant_member_ids values)
          ++ default [] (useCharityEvents.participant_pipeliner_ids values)) in
  let payload := useCharityEvents.normalizeCharityEventPayload values in
  NoDup (participants payload)
  ∧ (∀ k, k ∈ participants payload ↔ k ∈ supplied)
  ∧ participants payload `sublist_of` supplied
  ∧ (NoDup supplied → participants payload = supplied)
  ∧ (CharityEvent.participant_ids payload = None ↔ supplied = [])
  ∧ CharityEvent.participant_ids payload ≠ Some [].
Proof.
  simpl. unfold useCharityEvents.normalizeCharityEventPayload, participants. simpl.
  set (supplied := omap _ _).
  pose proof (unique_in_order_NoDup [] supplied) as Hnodup.
  pose proof (unique_in_order_sublist [] supplied) as Hsub.
  pose proof (λ k, unique_in_order_elem [] supplied k) as Helem.
  assert (∀ k, k ∈ useCharityEvents.unique_in_order [] supplied ↔ k ∈ supplied)
    as Hsame.
  { intros k. rewrite Helem. split; [naive_solver|]. intros ?. split; [done|].
    by intros ?%elem_of_nil. }
  destruct (useCharityEvents.unique_in_order [] supplied) as [|x l] eqn:Hunique;
    simpl.
  - assert (supplied = []) as Hnone.
    { destruct supplied as [|y ?]; [done|].
      exfalso. apply (elem_of_nil y), Hsame. by left. }
    split; [constructor|]. split; [apply Hsame|]. split; [done|].
    split; [by rewrite Hnone|]. split; [by split|done].
  - split; [done|]. split; [apply Hsame|]. split; [done|].
    split; [|split; [|done]].
    + intros Hdistinct. rewrite <- Hunique.
      apply unique_in_order_distinct; [done|]. intros k _. by intros ?%elem_of_nil.
    + split; [done|]. intros Hnone. rewrite Hnone in Hunique. done.
Qed.

Lemma count_where_positive {A} (c : A → bool) (t : gmap uuid A) i x :
  t !! i = Some x → c x = true → 1 ≤ count_where c t.
Proof.
  intros Hi Hx. rewrite <- (insert_delete_id t i x) by done.
  rewrite count_where_insert_fresh by apply lookup_delete_eq.
  pose proof (count_where_nonneg c (delete i t)). rewrite Hx. lia.
Qed.

Lemma charity_trigger_charity_events now ev db :
  charity_events (update_pipeliner_eligibility_from_charity now ev db)
  = charity_events db.
Proof.
  unfold update_pipeliner_eligibility_from_charity.
  destruct ev; by rewrite ?refresh_each_charity_events.
Qed.

Lemma normalized_participants_NoDup values :
  NoDup (participants (useCharityEvents.normalizeCharityEventPayload values)).
Proof.
  unfold useCharityEvents.normalizeCharityEventPayload, participants. simpl.
  case_match; simpl; [apply unique_in_order_NoDup|constructor].
Qed.

(** X8.  When [createEvent] succeeds the event is stored under the new key
    with its normalised payload, no participant array of the table lists an
    id twice if none did before, and every pipeliner ticked on the form has
    stored counters that are the ledgers' counts (whatever they were
    before), a [charity_events_count] of at least 1, and the count the
    [pipeliner_eligibility] view shows. *)
Theorem created_event_counts_for_its_participants values env db db' :
  participants_distinct db →
  useCharityEvents.createEvent values env db = Ok db' →
  let payload := useCharityEvents.normalizeCharityEventPayload values in
  charity_events db !! generated_id env = None
  ∧ charity_events db' = <[generated_id env := payload]> (charity_events db)
  ∧ attendance db' = attendance db
  ∧ participants_distinct db'
  ∧ ∀ p, p ∈ participants payload →
         pipeliner_counters_exact_at db' p
         ∧ ∀ r, pipeliners db' !! p = Some r →
                1 ≤ Pipeliner.charity_events_count r
                ∧ PipelinerEligibility.charity_event_count
                    (pipeliner_eligibility_row db' p r)
                  = Pipeliner.charity_events_count r.
Proof.
  intros Hdistinct Hrun. simpl.
  apply supabase_Ok in Hrun as [_ Hrun]. unfold charity_events_insert in Hrun.
  apply guard_or_bind in Hrun as [Hfresh%bool_decide_eq_true Hrun].
  injection Hrun as <-.
  set (payload := useCharityEvents.normalizeCharityEventPayload values).
  set (db' := update_pipeliner_eligibility_from_charity _ _ _).
  assert (charity_events db' = <[generated_id env := payload]> (charity_events db))
    as Hevents.
  { unfold db'. by rewrite charity_trigger_charity_events. }
  assert (participants_distinct db') as Hdistinct'.
  { unfold participants_distinct. rewrite Hevents.
    apply map_Forall_insert_2; [apply normalized_participants_NoDup|done]. }
  split; [done|]. split; [done|].
  split; [unfold db'; by rewrite charity_trigger_attendance|]. split; [done|].
  intros p Hp.
  assert (pipeliner_counters_exact_at db' p) as Hexact.
  { apply charity_trigger_exact_at. by right. }
  split; [done|]. intros r Hr. destruct (Hexact r Hr) as [_ Hcount].
  destruct (view_and_trigger_counts db' p) as (_ & _ & Hsame). simpl.
  rewrite (Hsame Hdistinct'), Hcount. split; [|done].
  unfold charity_event_count_of. rewrite Hevents.
  apply (count_where_positive _ _ (generated_id env) payload).
  - apply lookup_insert_eq.
  - by apply bool_decide_eq_true.
Qed.

Lemma created_event_counts_for_its_participants_witness :
  participants (useCharityEvents.normalizeCharityEventPayload Ex2.event_form) = [20%N]
  ∧ (Pipeliner.charity_events_count <$> pipeliners Ex.db !! 20%N) = Some 0
  ∧ (Pipeliner.charity_events_count <$> pipeliners Ex2.db_event_created !! 20%N)
    = Some 1
  ∧ pipeliner_counters_exact_at Ex2.db_event_created 20%N.
Proof.
  split; [by vm_compute|]. split; [by vm_compute|]. split; [by vm_compute|].
  apply (created_event_counts_for_its_participants Ex2.event_form Ex.calm Ex.db
           Ex2.db_event_created).
  - apply map_Forall_empty.
  - by vm_compute.
  - apply (bool_decide_unpack _). by vm_compute.
Defined.

(** X9.  [updateEvent] succeeds only on an event that is on record; the
    event then carries the normalised payload, no participant array lists
    an id twice if none did before, and every pipeliner of the old and of
    the new participant array has stored counters that are the ledgers'
    counts, so a pipeliner taken off the event loses it from his count. *)
Theorem updated_event_recounts_old_and_new_participants i values env db db' :
  participants_distinct db →
  useCharityEvents.updateEvent i values env db = Ok db' →
  let payload := useCharityEvents.normalizeCharityEventPayload values in
  ∃ old,
    charity_events db !! i = Some old
    ∧ charity_events db' = <[i := payload]> (charity_events db)
    ∧ attendance db' = attendance db
    ∧ participants_distinct db'
    ∧ ∀ p, p ∈ participants old ∨ p ∈ participants payload →
           pipeliner_counters_exact_at db' p.
Proof.
  intros Hdistinct Hrun. simpl. unfold useCharityEvents.updateEvent in Hrun.
  destruct (supabase (update_fault env) _) as [db1|e] eqn:Hupd; [|done].
  simpl in Hrun.
  destruct (charity_events db !! i) as [old|] eqn:Hold;
    [|by rewrite bool_decide_eq_false_2 in Hrun by (by intros [? ?])].
  rewrite bool_decide_eq_true_2 in Hrun by eauto. injection Hrun as ->.
  apply supabase_Ok in Hupd as [_ Hupd]. unfold charity_events_update in Hupd.
  rewrite Hold in Hupd. injection Hupd as <-.
  exists old. split; [done|].
  rewrite charity_trigger_charity_events, charity_trigger_attendance. simpl.
  split; [done|]. split; [done|]. split.
  - unfold participants_distinct. rewrite charity_trigger_charity_events. simpl.
    apply map_Forall_insert_2; [apply normalized_participants_NoDup|done].
  - intros p Hp. apply charity_trigger_exact_at. by right.
Qed.

Lemma updated_event_recounts_old_and_new_participants_witness :
  (Pipeliner.charity_events_count <$> pipeliners Ex2.db_event_created !! 20%N) = Some 1
  ∧ (Pipeliner.charity_events_count <$> pipeliners Ex2.db_event_emptied !! 20%N)
    = Some 0
  ∧ ∃ old,
      charity_events Ex2.db_event_created !! 50%N = Some old
      ∧ charity_events Ex2.db_event_emptied
        = <[50%N := useCharityEvents.normalizeCharityEventPayload Ex2.empty_event_form]>
            (charity_events Ex2.db_event_created)
      ∧ attendance Ex2.db_event_emptied = attendance Ex2.db_event_created
      ∧ participants_distinct Ex2.db_event_emptied
      ∧ ∀ p, p ∈ participants old
             ∨ p ∈ participants
                     (useCharityEvents.normalizeCharityEventPayload Ex2.empty_event_form) →
             pipeliner_counters_exact_at Ex2.db_event_emptied p.
Proof.
  split; [by vm_compute|]. split; [by vm_compute|].
  apply (updated_event_recounts_old_and_new_participants 50%N Ex2.empty_event_form
           Ex.calm Ex2.db_event_created Ex2.db_event_emptied).
  - apply (bool_decide_unpack _). by vm_compute.
  - by vm_compute.
Defined.

(** ** useMeetings: the attendance summaries *)

Lemma filtered_list_size {A} (P : uuid * A → Prop) `{!∀ kv, Decision (P kv)}
    (t : gmap uuid A) :
  length (filter P (map_to_list t)) = size (filter P t).
Proof.
  induction t as [|i x t Hfree IH] using map_ind.
  - by rewrite map_to_list_empty, map_filter_empty, map_size_empty.
  - rewrite map_to_list_insert by done. rewrite filter_cons, map_filter_insert.
    destruct (decide (P (i, x))) as [Hx|Hx].
    + rewrite map_size_insert_None; [simpl; by rewrite IH|].
      apply map_lookup_filter_None. by left.
    + by rewrite delete_id, IH.
Qed.

Lemma filtered_fmap_length {A B} (f : A → B) (P : B → Prop) `{!∀ b, Decision (P b)}
    (l : list A) :
  length (filter P (f <$> l)) = length (filter (λ a, P (f a)) l).
Proof.
  induction l as [|a l IH]; [done|].
  rewrite fmap_cons, !filter_cons. destruct (decide (P (f a))); simpl; by rewrite IH.
Qed.

Lemma meeting_counts_add_up db m :
  meeting_attendance_count db m (λ _, true)
  = meeting_attendance_count db m (is_status present)
    + meeting_attendance_count db m (is_status apology)
    + meeting_attendance_count db m (is_status absent).
Proof.
  unfold meeting_attendance_count. apply count_where_split. intros a.
  destruct (bool_decide (Attendance.meeting_id a = m)); simpl; [|done].
  by destruct (Attendance.status a).
Qed.

(** The summary of a meeting after the [reduce] holds the numbers of its
    rows; a meeting has a summary exactly when it has a row. *)
Lemma summarize_counts (data : list (uuid * AttendanceStatus)) m :
  let rows (c : AttendanceStatus → bool) :=
    length (filter (λ row : uuid * AttendanceStatus, row.1 = m ∧ c row.2 = true) data) in
  default useMeetings.no_attendance (useMeetings.summarize data !! m)
  = {| MeetingAttendanceSummary.total := rows (λ _, true);
       MeetingAttendanceSummary.present := rows (is_status present);
       MeetingAttendanceSummary.apology := rows (is_status apology);
       MeetingAttendanceSummary.absent := rows (is_status absent) |}
  ∧ (useMeetings.summarize data !! m = None ↔ rows (λ _, true) = 0%nat).
Proof.
  simpl. unfold useMeetings.summarize.
  induction data as [|[m' s] data [IH Hnone]] using rev_ind; [done|].
  rewrite foldl_app. simpl. rewrite !filter_app, !length_app.
  unfold useMeetings.count_row at 1 3. simpl.
  destruct (decide (m' = m)) as [->|Hne].
  - rewrite lookup_insert_eq. simpl. rewrite IH. simpl.
    rewrite !filter_cons, !filter_nil. simpl.
    rewrite decide_True by done. simpl.
    split; [|split; [done|lia]].
    unfold is_status. destruct s; simpl;
      repeat (first [rewrite decide_True by (by split)
                    |rewrite decide_False by (by intros [_ ?])]);
      simpl; f_equal; lia.
  - rewrite lookup_insert_ne by done. rewrite IH, Hnone.
    rewrite !filter_cons, !filter_nil. simpl.
    rewrite !decide_False by (by intros [? _]). simpl.
    split; [f_equal; lia|lia].
Qed.

(** The rows the meetings page selects for a meeting it lists are the
    attendance rows of that meeting. *)
Lemma selected_rows_of_meeting ids db m (c : AttendanceStatus → bool) :
  m ∈ ids →
  Z.of_nat
    (length (filter (λ row : uuid * AttendanceStatus, row.1 = m ∧ c row.2 = true)
                    (useMeetings.select_attendance_of ids db)))
  = meeting_attendance_count db m c.
Proof.
  intros Hm. unfold useMeetings.select_attendance_of, meeting_attendance_count,
    count_where.
  f_equal. rewrite filtered_fmap_length. simpl.
  rewrite (filtered_list_size
             (λ kv : uuid * Attendance.Row,
                Attendance.meeting_id kv.2 = m ∧ c (Attendance.status kv.2) = true)).
  rewrite map_filter_filter. f_equal. apply map_filter_ext.
  intros i a _. simpl. rewrite andb_true_iff, bool_decide_eq_true.
  split; [naive_solver|]. intros [-> ?]. done.
Qed.

(** X10.  Every record that [enrichAttendance] returns is the record it
    was given at that place with, when the query went through and the
    meeting has attendance rows, a summary that holds the number of the
    meeting's rows and of its present, apology and absent rows (which add
    up to the total); a meeting without rows keeps the summary it had. *)
Theorem enriched_summary_counts_the_rows records db k r :
  useMeetings.enrichAttendance None records db !! k = Some r →
  ∃ r0,
    records !! k = Some r0
    ∧ useMeetings.id r = useMeetings.id r0
    ∧ useMeetings.meeting r = useMeetings.meeting r0
    ∧ let s := useMeetings.attendanceSummary r in
      let rows := meeting_attendance_count db (useMeetings.id r) in
      if decide (rows (λ _, true) = 0)
      then s = useMeetings.attendanceSummary r0
      else Z.of_nat (MeetingAttendanceSummary.total s) = rows (λ _, true)
           ∧ Z.of_nat (MeetingAttendanceSummary.present s) = rows (is_status present)
           ∧ Z.of_nat (MeetingAttendanceSummary.apology s) = rows (is_status apology)
           ∧ Z.of_nat (MeetingAttendanceSummary.absent s) = rows (is_status absent)
           ∧ MeetingAttendanceSummary.total s
             = (MeetingAttendanceSummary.present s + MeetingAttendanceSummary.apology s
                + MeetingAttendanceSummary.absent s)%nat.
Proof.
  intros Hk. unfold useMeetings.enrichAttendance in Hk.
  destruct records as [|first rest] eqn:Hrecords; [done|]. rewrite <- Hrecords in *.
  simpl in Hk. unfold useMeetings.mergeAttendanceSummaries in Hk.
  rewrite list_lookup_fmap in Hk.
  destruct (records !! k) as [r0|] eqn:Hr0; [|done].
  injection Hk as <-. exists r0. simpl.
  split; [done|]. split; [done|]. split; [done|].
  assert (useMeetings.id r0 ∈ useMeetings.id <$> records) as Hin.
  { apply list_elem_of_fmap. exists r0. split; [done|]. by eapply list_elem_of_lookup_2. }
  pose proof (summarize_counts
                (useMeetings.select_attendance_of (useMeetings.id <$> records) db)
                (useMeetings.id r0)) as [Hsum Hnone].
  simpl in Hsum, Hnone.
  pose proof (λ c, selected_rows_of_meeting (useMeetings.id <$> records) db
                     (useMeetings.id r0) c Hin) as Hrows.
  pose proof (Hrows (λ _, true)) as Htotal.
  pose proof (Hrows (is_status present)) as Hpresent.
  pose proof (Hrows (is_status apology)) as Hapology.
  pose proof (Hrows (is_status absent)) as Habsent.
  pose proof (meeting_counts_add_up db (useMeetings.id r0)) as Hadd.
  simpl in Htotal.
  destruct (decide (meeting_attendance_count db (useMeetings.id r0) (λ _, true) = 0))
    as [Hzero|Hsome].
  - destruct Hnone as [_ Hnone]. rewrite Hnone by lia. done.
  - destruct (useMeetings.summarize _ !! useMeetings.id r0) as [s|] eqn:Hs.
    + simpl in Hsum. subst s. simpl. lia.
    + destruct Hnone as [Hnone _]. specialize (Hnone eq_refl). lia.
Qed.

Lemma enriched_summary_counts_the_rows_witness :
  ∃ r,
    useMeetings.enrichAttendance None [Ex2.first_meeting] Ex2.db_full_meeting !! 0%nat
    = Some r
    ∧ useMeetings.attendanceSummary Ex2.first_meeting = useMeetings.no_attendance
    ∧ useMeetings.attendanceSummary r
      = {| MeetingAttendanceSummary.total := 3;
           MeetingAttendanceSummary.present := 2;
           MeetingAttendanceSummary.apology := 1;
           MeetingAttendanceSummary.absent := 0 |}
    ∧ ∃ r0,
        [Ex2.first_meeting] !! 0%nat = Some r0
        ∧ useMeetings.id r = useMeetings.id r0
        ∧ useMeetings.meeting r = useMeetings.meeting r0
        ∧ let s := useMeetings.attendanceSummary r in
          let rows := meeting_attendance_count Ex2.db_full_meeting (useMeetings.id r) in
          if decide (rows (λ _, true) = 0)
          then s = useMeetings.attendanceSummary r0
          else Z.of_nat (MeetingAttendanceSummary.total s) = rows (λ _, true)
               ∧ Z.of_nat (MeetingAttendanceSummary.present s)
                 = rows (is_status present)
               ∧ Z.of_nat (MeetingAttendanceSummary.apology s)
                 = rows (is_status apology)
               ∧ Z.of_nat (MeetingAttendanceSummary.absent s)
                 = rows (is_status absent)
               ∧ MeetingAttendanceSummary.total s
                 = (MeetingAttendanceSummary.present s
                    + MeetingAttendanceSummary.apology s
                    + MeetingAttendanceSummary.absent s)%nat.
Proof.
  eexists. split; [vm_compute; reflexivity|]. split; [reflexivity|].
  split; [reflexivity|].
  apply (enriched_summary_counts_the_rows [Ex2.first_meeting] Ex2.db_full_meeting 0).
  vm_compute. reflexivity.
Defined.

(** ** Promotions that fail *)

(** X11.  A call of [promotePipelinerToMember] that throws leaves the
    database as it was, with one exception: when the update of the
    pipeliner fails and the compensating delete fails too, the member row
    that was inserted stays.  The pipeliners, guests and attendance tables
    are never changed by a failed call, and the error of a failed update
    is the one reported. *)
Theorem failed_promotion_to_member_changes_nothing `{PipelinerEligibilityLib}
    cached pipelinerId payload env db error db' :
  fk_consistent db →
  usePipeliners.promotePipelinerToMember cached pipelinerId payload env db
  = (inl error, db') →
  pipeliners db' = pipeliners db
  ∧ guests db' = guests db
  ∧ attendance db' = attendance db
  ∧ (db' = db
     ∨ ∃ pipeliner e,
         List.find (λ item, bool_decide (PipelinerEligibility.id item = pipelinerId))
                   cached = Some pipeliner
         ∧ insert_fault env = None
         ∧ update_fault env = Some e
         ∧ is_Some (delete_fault env)
         ∧ error = usePipeliners.store_error e
         ∧ members db !! generated_id env = None
         ∧ db' = set_members
                   (<[generated_id env := usePipeliners.memberPayload pipeliner payload]>
                      (members db)) db).
Proof.
  intros Hfk Hrun. unfold usePipeliners.promotePipelinerToMember in Hrun.
  destruct (List.find _ cached) as [pipeliner|] eqn:Hfind;
    [|injection Hrun as _ <-; eauto 10].
  destruct (usePipeliners.validate pipeliner payload);
    [injection Hrun as _ <-; eauto 10|].
  destruct (supabase (insert_fault env) _) as [db1|memberError] eqn:Hins;
    [|injection Hrun as _ <-; eauto 10].
  apply supabase_Ok in Hins as [Hinsert Hins].
  apply members_insert_Ok in Hins as (Hfree & _ & ->).
  destruct (supabase (update_fault env) _) as [db2|e] eqn:Hupd; [done|].
  apply supabase_Err in Hupd as [Hupdate|[_ Hupd]].
  - destruct (supabase (delete_fault env) _) as [db2|e'] eqn:Hdel.
    + apply supabase_Ok in Hdel as [_ Hdel].
      rewrite members_delete_inserted in Hdel by done.
      injection Hdel as <-. injection Hrun as _ <-. eauto 10.
    + apply supabase_Err in Hdel as [Hdelete|[_ Hdel]].
      * injection Hrun as <- <-. split; [done|]. split; [done|]. split; [done|].
        right. exists pipeliner, e. rewrite Hdelete. eauto 10.
      * by rewrite members_delete_inserted in Hdel.
  - destruct (became_member_update_accepted pipelinerId
                (set_members
                   (<[generated_id env := usePipeliners.memberPayload pipeliner payload]>
                      (members db)) db)) as [db2 Hok].
    by rewrite Hok in Hupd.
Qed.

Lemma failed_promotion_to_member_changes_nothing_witness :
  ∃ db',
    usePipeliners.promotePipelinerToMember (H := spec_lib)
      [Ex.bob_view 3 1 true "active"] 20%N (Ex.form "RT-099") Ex2.only_insert_works
      (Ex.db_with_bob 3 1 true "active")
    = (inl (usePipeliners.store_error (store_failure 503)), db')
    ∧ members (Ex.db_with_bob 3 1 true "active") !! 50%N = None
    ∧ is_Some (members db' !! 50%N)
    ∧ pipeliners db' = pipeliners (Ex.db_with_bob 3 1 true "active").
Proof.
  eexists. split; [vm_compute; reflexivity|]. split; [reflexivity|].
  split; [vm_compute; by eexists|].
  eapply (failed_promotion_to_member_changes_nothing (H := spec_lib)
            [Ex.bob_view 3 1 true "active"] 20%N (Ex.form "RT-099")
            Ex2.only_insert_works (Ex.db_with_bob 3 1 true "active")).
  - apply fk_consistent_decide. by vm_compute.
  - vm_compute. reflexivity.
Defined.

(** The two writes of the promotion to pipeliner, when they end in a
    caught error: the database is as it was, or holds the inserted row
    that a failed delete left behind. *)
Lemma handleConfirm_failed
    guest sponsorId notes env db error db' :
  fk_consistent db →
  PromoteToPipelinerDialog.handleConfirm guest sponsorId notes env db
  = (Failed error, db') →
  guests db' = guests db
  ∧ members db' = members db
  ∧ attendance db' = attendance db
  ∧ (db' = db
     ∨ ∃ g sponsor,
         guest = Some g ∧ sponsorId = Some sponsor
         ∧ insert_fault env = None
         ∧ update_fault env = Some error
         ∧ is_Some (delete_fault env)
         ∧ pipeliners db !! generated_id env = None
         ∧ db' = set_pipeliners
                   (<[generated_id env
                      := PromoteToPipelinerDialog.payload g sponsor notes env]>
                      (pipeliners db)) db).
Proof.
  intros Hfk Hrun. unfold PromoteToPipelinerDialog.handleConfirm in Hrun.
  destruct guest as [g|]; [|done]. destruct sponsorId as [sponsor|]; [|done].
  destruct (supabase (insert_fault env) _) as [db1|insertError] eqn:Hins;
    [|injection Hrun as _ <-; eauto 10].
  apply supabase_Ok in Hins as [Hinsert Hins].
  apply pipeliners_insert_Ok in Hins as (Hfree & _ & ->).
  destruct (supabase (update_fault env) _) as [db2|e] eqn:Hupd; [done|].
  apply supabase_Err in Hupd as [Hupdate|[_ Hupd]].
  - destruct (supabase (delete_fault env) _) as [db2|e'] eqn:Hdel.
    + apply supabase_Ok in Hdel as [_ Hdel].
      rewrite pipeliners_delete_inserted in Hdel by done.
      injection Hdel as <-. injection Hrun as _ <-. eauto 10.
    + apply supabase_Err in Hdel as [Hdelete|[_ Hdel]].
      * injection Hrun as <- <-. split; [done|]. split; [done|]. split; [done|].
        right. exists g, sponsor. rewrite Hdelete. eauto 10.
      * by rewrite pipeliners_delete_inserted in Hdel.
  - destruct (guest_update_accepted g env (GuestMeetingCounts.id g)
                (set_pipeliners
                   (<[generated_id env
                      := PromoteToPipelinerDialog.payload g sponsor notes env]>
                      (pipeliners db)) db)) as [db2 Hok].
    by rewrite Hok in Hupd.
Qed.

(** X12.  When [handleConfirm] of the promotion to pipeliner has shown an
    error toast, one of two things happened.  Either no success toast was
    shown: then the guests, members and attendance tables are as they
    were, and the database is as it was unless the update of the guest
    and the compensating delete both failed, in which case the inserted
    pipeliner row stays.  Or the error was thrown after the success toast
    (by the confetti import or by the [onPromoted] callback): then both
    writes went through and stay, the page was not left, and the error
    toast shows what was thrown. *)
Theorem failed_promotion_to_pipeliner_changes_nothing {T} (later : option T)
    guest sponsorId notes env db shown db' :
  fk_consistent db →
  PromoteToPipelinerDialog.handleConfirmSettled later guest sponsorId notes env db
  = (shown, db') →
  is_Some (PromoteToPipelinerDialog.error_toast shown) →
  (PromoteToPipelinerDialog.success_toast shown = false
   ∧ guests db' = guests db
   ∧ members db' = members db
   ∧ attendance db' = attendance db
   ∧ (db' = db
      ∨ ∃ g sponsor error,
          guest = Some g ∧ sponsorId = Some sponsor
          ∧ PromoteToPipelinerDialog.error_toast shown
            = Some (PromoteToPipelinerDialog.caught_write error)
          ∧ insert_fault env = None
          ∧ update_fault env = Some error
          ∧ is_Some (delete_fault env)
          ∧ pipeliners db !! generated_id env = None
          ∧ db' = set_pipeliners
                    (<[generated_id env
                       := PromoteToPipelinerDialog.payload g sponsor notes env]>
                       (pipeliners db)) db))
  ∨ (PromoteToPipelinerDialog.success_toast shown = true
     ∧ PromoteToPipelinerDialog.navigated shown = false
     ∧ ∃ g sponsor thrown db1,
         guest = Some g ∧ sponsorId = Some sponsor ∧ later = Some thrown
         ∧ PromoteToPipelinerDialog.error_toast shown
           = Some (PromoteToPipelinerDialog.caught_later thrown)
         ∧ pipeliners_insert (generated_id env)
             (PromoteToPipelinerDialog.payload g sponsor notes env) db = Ok db1
         ∧ guests_update (GuestMeetingCounts.id g)
             (PromoteToPipelinerDialog.guest_update g env) db1 = Ok db'
         ∧ pipeliners db' !! generated_id env
           = Some (PromoteToPipelinerDialog.payload g sponsor notes env)).
Proof.
  intros Hfk Hrun Herror. unfold PromoteToPipelinerDialog.handleConfirmSettled in Hrun.
  destruct (PromoteToPipelinerDialog.handleConfirm guest sponsorId notes env db)
    as [[| message | error | id] db2] eqn:Hwrites.
  - injection Hrun as <- <-. simpl in Herror. by destruct Herror.
  - injection Hrun as <- <-. left. simpl.
    unfold PromoteToPipelinerDialog.handleConfirm in Hwrites.
    destruct guest as [g|]; [|done]. destruct sponsorId as [sponsor|].
    + by repeat case_match.
    + injection Hwrites as _ <-. eauto 10.
  - injection Hrun as <- <-. left. simpl.
    destruct (handleConfirm_failed _ _ _ _ _ _ _ Hfk Hwrites)
      as (Hguests & Hmembers & Hattendance & [->|Horphan]); [eauto 10|].
    destruct Horphan as (g & sponsor & -> & -> & Hrest).
    repeat (split; [done|]). right. exists g, sponsor, error. naive_solver.
  - right. destruct guest as [g|];
      [|by unfold PromoteToPipelinerDialog.handleConfirm in Hwrites].
    destruct sponsorId as [sponsor|];
      [|by unfold PromoteToPipelinerDialog.handleConfirm in Hwrites].
    apply handleConfirm_done in Hwrites as (-> & _ & _ & db1 & Hins & Hupd).
    destruct later as [thrown|]; injection Hrun as <- <-; simpl in *;
      [|by destruct Herror].
    split; [done|]. split; [done|]. exists g, sponsor, thrown, db1.
    repeat (split; [done|]).
    apply pipeliners_insert_Ok in Hins as (_ & _ & ->).
    unfold guests_update in Hupd. simpl in Hupd.
    destruct (guests db !! GuestMeetingCounts.id g); simpl in Hupd.
    + rewrite bool_decide_eq_true_2 in Hupd by done. simpl in Hupd.
      injection Hupd as <-. simpl. by rewrite lookup_insert_eq.
    + injection Hupd as <-. simpl. by rewrite lookup_insert_eq.
Qed.

(** Witness for X12: both writes of Ann's promotion go through and the
    import of the confetti module fails.  The dialog shows the success
    toast, then the error; Ann is a pipeliner in the database. *)
Lemma failed_promotion_to_pipeliner_changes_nothing_witness :
  ∃ shown db',
    PromoteToPipelinerDialog.handleConfirmSettled (Some "import failed")
      (Some (Ex.ann_view "active" 0 0 0 0)) (Some 5%N) (Js.lit "keen") Ex.calm Ex.db
    = (shown, db')
    ∧ PromoteToPipelinerDialog.success_toast shown = true
    ∧ PromoteToPipelinerDialog.error_toast shown
      = Some (PromoteToPipelinerDialog.caught_later "import failed")
    ∧ Guest.status <$> guests db' !! 10%N = Some (Js.lit "became_pipeliner")
    ∧ is_Some (pipeliners db' !! 50%N).
Proof.
  eexists _, _. split; [vm_compute; reflexivity|].
  destruct (failed_promotion_to_pipeliner_changes_nothing (Some "import failed")
              (Some (Ex.ann_view "active" 0 0 0 0)) (Some 5%N) (Js.lit "keen")
              Ex.calm Ex.db _ _ fk_consistent_Ex_db eq_refl)
    as [(Hnone & _)|(Hsuccess & _ & g & sponsor & thrown & db1 & _ & _ & _
                     & Htoast & _ & _ & Hrow)].
  - vm_compute. by eexists.
  - vm_compute in Hnone. done.
  - split; [exact Hsuccess|]. split; [by vm_compute|].
    split; [by vm_compute|]. vm_compute. by eexists.
Defined.

(** ** The dialog in front of [promotePipelinerToMember] *)

Lemma trimStart_head s :
  match Js.trimStart s with
  | c :: _ => Js.isWhiteSpace c = false
  | [] => True
  end.
Proof.
  induction s as [|c s IH]; simpl; [done|].
  destruct (Js.isWhiteSpace c) eqn:Hc; [done|]. done.
Qed.

Lemma trimStart_fixed c s :
  Js.isWhiteSpace c = false → Js.trimStart (c :: s) = c :: s.
Proof. intros Hc. simpl. by rewrite Hc. Qed.

Lemma trimStart_snoc s c :
  Js.isWhiteSpace c = false → Js.trimStart (s ++ [c]) = Js.trimStart s ++ [c].
Proof.
  intros Hc. induction s as [|x s IH]; simpl; [by rewrite Hc|].
  by destruct (Js.isWhiteSpace x).
Qed.

Lemma trimStart_idempotent s : Js.trimStart (Js.trimStart s) = Js.trimStart s.
Proof.
  pose proof (trimStart_head s) as Hhead.
  destruct (Js.trimStart s) as [|c r]; [done|]. by apply trimStart_fixed.
Qed.

(** [trim] strips nothing from a string it has returned. *)
Lemma trim_idempotent s : Js.trim (Js.trim s) = Js.trim s.
Proof.
  unfold Js.trim. pose proof (trimStart_head s) as Hhead.
  destruct (Js.trimStart s) as [|c r]; [done|].
  assert (∃ r', Js.trimEnd (c :: r) = c :: r') as [r' Hend].
  { unfold Js.trimEnd. rewrite reverse_cons, trimStart_snoc by done.
    rewrite reverse_app. simpl. eauto. }
  rewrite Hend, trimStart_fixed by done. rewrite <- Hend.
  unfold Js.trimEnd. rewrite reverse_involutive, trimStart_idempotent. done.
Qed.

(** X13.  When [PromoteToMemberDialog] hands its form to
    [promotePipelinerToMember] for the pipeliner it shows, as the hook has
    it cached, the hook repeats none of the dialog's refusals: a failure
    that comes back is the missing email address or an error of the store,
    and a success has stored the member number as the dialog trimmed it.
    The hook is reached only behind the badge [Eligible for Membership]. *)
Theorem dialog_checks_cover_the_hook `{PipelinerEligibilityLib}
    cached pipeliner memberNumber joinDate env db outcome db' :
  List.find (λ item, bool_decide (PipelinerEligibility.id item
                                  = PipelinerEligibility.id pipeliner)) cached
  = Some pipeliner →
  PromoteToMemberDialog.handleConfirm (Some pipeliner) memberNumber joinDate
    (λ payload,
       usePipeliners.promotePipelinerToMember cached (PipelinerEligibility.id pipeliner)
         payload env)
    db
  = (outcome, db') →
  match outcome with
  | Ignored => False
  | Refused _ =>
    db' = db
    ∧ (formatStatusBadge (Some pipeliner) ≠ "Eligible for Membership"
       ∨ Js.trim memberNumber = [] ∨ joinDate = [])
  | Failed error =>
    formatStatusBadge (Some pipeliner) = "Eligible for Membership"
    ∧ (error = usePipeliners.email_required ∧ db' = db
       ∨ ∃ e, error = usePipeliners.store_error e)
  | Done member =>
    formatStatusBadge (Some pipeliner) = "Eligible for Membership"
    ∧ member = generated_id env
    ∧ ∃ r, members db' !! member = Some r
           ∧ Member.member_number r = Some (Js.trim memberNumber)
           ∧ Member.join_date r = joinDate
           ∧ Member.member_number r ≠ Some []
           ∧ Member.join_date r ≠ []
  end.
Proof.
  intros Hfind Hrun. unfold PromoteToMemberDialog.handleConfirm in Hrun.
  assert (PromoteToMemberDialog.eligible (Some pipeliner) = true →
          formatStatusBadge (Some pipeliner) = "Eligible for Membership"
          ∧ hasMetMembershipRequirements pipeliner
            || PipelinerEligibility.is_eligible_for_membership pipeliner = true)
    as Hbadge.
  { unfold PromoteToMemberDialog.eligible, formatStatusBadge.
    destruct (bool_decide (PipelinerEligibility.status pipeliner
                           = Js.lit "became_member")); [done|].
    intros ->. done. }
  assert (PromoteToMemberDialog.eligible (Some pipeliner) = false →
          formatStatusBadge (Some pipeliner) ≠ "Eligible for Membership")
    as Hnobadge.
  { unfold PromoteToMemberDialog.eligible, formatStatusBadge.
    destruct (bool_decide (PipelinerEligibility.status pipeliner
                           = Js.lit "became_member")); [done|].
    intros ->. done. }
  destruct (PromoteToMemberDialog.eligible (Some pipeliner)) eqn:Heligible; simpl in Hrun;
    [|injection Hrun as <- <-; split; [done|left; by apply Hnobadge]].
  destruct (Hbadge eq_refl) as [Hshown Hmeets].
  destruct (Js.trim memberNumber) as [|c number] eqn:Hnumber; simpl in Hrun;
    [injection Hrun as <- <-; eauto|].
  destruct joinDate as [|d joinDate]; simpl in Hrun;
    [injection Hrun as <- <-; eauto|].
  rewrite <- Hnumber in Hrun.
  destruct (usePipeliners.promotePipelinerToMember _ _ _ _ _)
    as [[error|member] db2] eqn:Hpromote; injection Hrun as <- <-.
  - split; [done|].
    unfold usePipeliners.promotePipelinerToMember in Hpromote.
    rewrite Hfind in Hpromote.
    unfold usePipeliners.validate in Hpromote. simpl in Hpromote.
    rewrite Hmeets, trim_idempotent, Hnumber in Hpromote. simpl in Hpromote.
    destruct (match PipelinerEligibility.email pipeliner with
              | Some e => Js.truthy e
              | None => false
              end); simpl in Hpromote;
      [|injection Hpromote as <- <-; by left].
    right.
    destruct (supabase (insert_fault env) _) as [db1|memberError];
      [|injection Hpromote as <- _; eauto].
    destruct (supabase (update_fault env) _) as [db3|pipelinerUpdateError];
      [done|injection Hpromote as <- _; eauto].
  - split; [done|].
    apply promotePipelinerToMember_done in Hpromote
      as (-> & pipeliner' & db1 & Hfind' & _ & Hins & Hupd).
    rewrite Hfind in Hfind'. injection Hfind' as <-.
    split; [done|].
    apply members_insert_Ok in Hins as (_ & _ & ->).
    apply pipeliners_update_Ok in Hupd.
    exists (usePipeliners.memberPayload
              pipeliner
              {| usePipeliners.member_number := Js.trim memberNumber;
                 usePipeliners.join_date := d :: joinDate |}).
    split.
    + destruct (pipeliners _ !! PipelinerEligibility.id pipeliner); subst db2; simpl;
        apply lookup_insert_eq.
    + simpl. rewrite trim_idempotent, Hnumber. done.
Qed.

Lemma dialog_checks_cover_the_hook_witness :
  ∃ db',
    PromoteToMemberDialog.handleConfirm (H := spec_lib)
      (Some (Ex.bob_view 3 1 true "active")) (Js.lit " RT-099 ") (Js.lit "2024-05-01")
      (λ payload,
         usePipeliners.promotePipelinerToMember (H := spec_lib)
           [Ex.bob_view 3 1 true "active"] 20%N payload Ex.calm)
      (Ex.db_with_bob 3 1 true "active")
    = (Done 50%N, db')
    ∧ formatStatusBadge (H := spec_lib) (Some (Ex.bob_view 3 1 true "active"))
      = "Eligible for Membership"
    ∧ 50%N = generated_id Ex.calm
    ∧ ∃ r, members db' !! 50%N = Some r
           ∧ Member.member_number r = Some (Js.trim (Js.lit " RT-099 "))
           ∧ Member.join_date r = Js.lit "2024-05-01"
           ∧ Member.member_number r ≠ Some []
           ∧ Member.join_date r ≠ [].
Proof.
  eexists. split; [vm_compute; reflexivity|].
  apply (dialog_checks_cover_the_hook (H := spec_lib)
           [Ex.bob_view 3 1 true "active"] (Ex.bob_view 3 1 true "active")
           (Js.lit " RT-099 ") (Js.lit "2024-05-01") Ex.calm
           (Ex.db_with_bob 3 1 true "active") (Done 50%N)).
  - reflexivity.
  - vm_compute. reflexivity.
Defined.

(** ** An attendance row taken away from a pipeliner *)

Lemma update_to_no_pipeliner_refreshes_nothing now old new db :
  Attendance.pipeliner_id new = None →
  update_pipeliner_eligibility now (UPDATE old new) db = db.
Proof.
  intros Hnew. simpl. rewrite Hnew. simpl.
  by destruct (Attendance.pipeliner_id old).
Qed.

(** X16.  An update that takes a present attendance row away from a
    pipeliner and leaves [pipeliner_id] [NULL] recomputes nobody: the
    pipeliner's row is as it was, and its [business_meetings_count] is one
    above the number of present rows the pipeliner has left. *)
Theorem row_taken_from_pipeliner_leaves_counter_stale now i old new db db' p r :
  attendance db !! i = Some old →
  Attendance.pipeliner_id old = Some p →
  Attendance.status old = present →
  Attendance.pipeliner_id new = None →
  pipeliners db !! p = Some r →
  pipeliner_counters_exact_at db p →
  attendance_update now i new db = Ok db' →
  pipeliners db' !! p = Some r
  ∧ pipeliner_present_count db' p = Pipeliner.business_meetings_count r - 1.
Proof.
  intros Hold Hp Hstatus Hnew Hr Hexact Hrun.
  unfold attendance_update in Hrun. rewrite Hold in Hrun.
  repeat apply guard_or_bind in Hrun as [_ Hrun]. injection Hrun as <-.
  unfold attendance_row_triggers.
  rewrite update_to_no_pipeliner_refreshes_nothing by done.
  split.
  - by rewrite update_guest_meeting_count_pipeliners.
  - destruct (Hexact r Hr) as [-> _].
    unfold pipeliner_present_count.
    rewrite update_guest_meeting_count_attendance. simpl.
    rewrite <- (insert_delete_id (attendance db) i old) at 2 by done.
    rewrite <- (insert_delete_eq (attendance db)).
    rewrite !count_where_insert_fresh by apply lookup_delete_eq.
    rewrite Hnew, Hp, Hstatus. simpl.
    rewrite !bool_decide_eq_true_2 by done. simpl. lia.
Qed.

Lemma row_taken_from_pipeliner_leaves_counter_stale_witness :
  ∃ db' r,
    attendance_update 130%N 100%N (Ex.of_guest 1%N present) Ex2.db_bob_attends = Ok db'
    ∧ pipeliners Ex2.db_bob_attends !! 20%N = Some r
    ∧ Pipeliner.business_meetings_count r = 1
    ∧ pipeliner_present_count db' 20%N = 0
    ∧ pipeliners db' !! 20%N = Some r
    ∧ pipeliner_present_count db' 20%N = Pipeliner.business_meetings_count r - 1.
Proof.
  eexists. eexists. split; [by vm_compute|]. split; [by vm_compute|].
  split; [reflexivity|]. split; [by vm_compute|].
  apply (row_taken_from_pipeliner_leaves_counter_stale 130%N 100%N
           (Ex.of_pipeliner 1%N present) (Ex.of_guest 1%N present)
           Ex2.db_bob_attends _ 20%N).
  - by vm_compute.
  - reflexivity.
  - reflexivity.
  - reflexivity.
  - by vm_compute.
  - apply pipeliner_counters_exact_decide, (bool_decide_unpack _). by vm_compute.
  - by vm_compute.
Defined.

(** ** usePipeliners: what a form stores *)

Lemma trim_or_null_clean v :
  clean_text (usePipeliners.trim_or_null v)
  ∧ (usePipeliners.trim_or_null v = None ↔ blank v).
Proof.
  unfold clean_text, blank, usePipeliners.trim_or_null, Js.or_null.
  destruct v as [s|]; simpl; [|split; [done|by split]].
  destruct (Js.trim s) as [|c t] eqn:Htrim; simpl.
  - split; [done|]. split; [intros _ ? [= <-]; exact Htrim|done].
  - split.
    + intros ? [= <-]. split; [done|]. by rewrite <- Htrim, trim_idempotent.
    + split; [done|]. intros Hblank. specialize (Hblank s eq_refl).
      by rewrite Htrim in Hblank.
Qed.

(** X17.  When [createPipeliner] succeeds the key was free, the sponsor (if
    any) is a member on record, and the new row is the normalised form:
    the name trimmed, each of email, phone and notes either [NULL] (exactly
    when the form's value is missing or blank) or a non-empty text without
    surrounding white space, and the counters the form supplies or else 3,
    0 and 0; no other table changes. *)
Theorem created_pipeliner_is_the_normalised_form values env db db' :
  usePipeliners.createPipeliner values env db = Ok db' →
  ∃ r,
    pipeliners db !! generated_id env = None
    ∧ db' = set_pipeliners (<[generated_id env := r]> (pipeliners db)) db
    ∧ references (Pipeliner.sponsored_by r) (members db) = true
    ∧ Pipeliner.full_name r = Js.trim (usePipeliners.full_name values)
    ∧ Js.trim (Pipeliner.full_name r) = Pipeliner.full_name r
    ∧ clean_text (Pipeliner.email r)
    ∧ clean_text (Pipeliner.phone r)
    ∧ clean_text (Pipeliner.notes r)
    ∧ (Pipeliner.email r = None ↔ blank (usePipeliners.email values))
    ∧ (Pipeliner.phone r = None ↔ blank (usePipeliners.phone values))
    ∧ (Pipeliner.notes r = None ↔ blank (usePipeliners.notes values))
    ∧ Pipeliner.guest_meetings_count r
      = default 3 (usePipeliners.guest_meetings_count values)
    ∧ Pipeliner.business_meetings_count r
      = default 0 (usePipeliners.business_meetings_count values)
    ∧ Pipeliner.charity_events_count r
      = default 0 (usePipeliners.charity_events_count values).
Proof.
  intros Hrun. unfold usePipeliners.createPipeliner in Hrun.
  apply supabase_Ok in Hrun as [_ Hrun].
  apply pipeliners_insert_Ok in Hrun as (Hfree & Hsponsor & ->).
  eexists. split; [done|]. split; [done|]. split; [done|]. simpl.
  split; [done|]. split; [apply trim_idempotent|].
  pose proof (trim_or_null_clean (usePipeliners.email values)) as [? ?].
  pose proof (trim_or_null_clean (usePipeliners.phone values)) as [? ?].
  pose proof (trim_or_null_clean (usePipeliners.notes values)) as [? ?].
  done.
Qed.

Lemma created_pipeliner_is_the_normalised_form_witness :
  ∃ db',
    usePipeliners.createPipeliner Ex.bare_form Ex.calm Ex.db = Ok db'
    ∧ (Pipeliner.full_name <$> pipeliners db' !! 50%N) = Some (Js.lit "Bob Pipeliner")
    ∧ ∃ r,
        db' = set_pipeliners (<[generated_id Ex.calm := r]> (pipeliners Ex.db)) Ex.db
        ∧ clean_text (Pipeliner.email r)
        ∧ (Pipeliner.notes r = None ↔ blank (usePipeliners.notes Ex.bare_form)).
Proof.
  eexists. split; [by vm_compute|]. split; [by vm_compute|].
  destruct (created_pipeliner_is_the_normalised_form Ex.bare_form Ex.calm Ex.db _
              ltac:(by vm_compute))
    as (r & _ & Hdb & _ & _ & _ & Hemail & _ & _ & _ & _ & Hnotes & _).
  exists r. split; [exact Hdb|]. split; [exact Hemail|exact Hnotes].
Defined.


(* ===================================================================== *)
(** * The monthly statistics *)
(* ===================================================================== *)

(** ** Doubles *)

Section doubles.
Import Binary64 JsNumber.

Lemma Z_lt_Q a b : a < b → (inject_Z a < inject_Z b)%Q.
Proof. intros. by rewrite <- Zlt_Qlt. Qed.

Lemma Z_le_Q a b : a ≤ b → (inject_Z a <= inject_Z b)%Q.
Proof. intros. by rewrite <- Zle_Qle. Qed.

Lemma pow2_pos k : (0 < pow2 k)%Q.
Proof. apply Qpower_0_lt. reflexivity. Qed.

Lemma pow2_plus a b : (pow2 (a + b) == pow2 a * pow2 b)%Q.
Proof. apply Qpower_plus. discriminate. Qed.

Lemma pow2_le a b : a ≤ b → (pow2 a <= pow2 b)%Q.
Proof. intros Hab. apply Qpower_le_compat_l; [done|discriminate]. Qed.

Lemma pow2_lt a b : a < b → (pow2 a < pow2 b)%Q.
Proof. intros Hab. apply Qpower_lt_compat_l; [done|reflexivity]. Qed.

Lemma pow2_Z k : 0 ≤ k → (pow2 k == inject_Z (2 ^ k))%Q.
Proof. intros Hk. unfold pow2. by rewrite Zpower_Qpower. Qed.

Lemma pow2_succ a : (pow2 (a + 1) == 2 * pow2 a)%Q.
Proof. rewrite pow2_plus. change (pow2 1) with (2 # 1)%Q. lra. Qed.

Lemma pow2_pred a : (pow2 a == 2 * pow2 (a - 1))%Q.
Proof. rewrite <- pow2_succ. by replace (a - 1 + 1) with a by lia. Qed.

Lemma ilog2_spec q :
  (0 < q)%Q → (pow2 (ilog2 q) <= q)%Q ∧ (q < pow2 (ilog2 q + 1))%Q.
Proof.
  intros Hq. destruct q as [n d]. unfold ilog2. cbn [Qnum Qden].
  assert (0 < n) as Hn by (unfold Qlt in Hq; simpl in Hq; lia).
  set (ln := Z.log2 n). set (ld := Z.log2 (Z.pos d)).
  destruct (Z.log2_spec n Hn) as [Hn1 Hn2]. fold ln in Hn1, Hn2.
  destruct (Z.log2_spec (Z.pos d) eq_refl) as [Hd1 Hd2]. fold ld in Hd1, Hd2.
  assert (0 ≤ ln) as Hln by apply Z.log2_nonneg.
  assert (0 ≤ ld) as Hld by apply Z.log2_nonneg.
  assert (n # d == inject_Z n / inject_Z (Z.pos d))%Q as Hq' by apply Qmake_Qdiv.
  assert (0 < inject_Z (Z.pos d))%Q as Hdpos by by apply (Z_lt_Q 0).
  (* the quotient lies strictly between 2^(e0-1) and 2^(e0+1) *)
  assert (pow2 (ln - ld - 1) < n # d)%Q as Hlow.
  { rewrite Hq'. apply Qlt_shift_div_l; [done|].
    apply Qlt_le_trans with (pow2 (ln - ld - 1) * pow2 (ld + 1))%Q.
    - apply Qmult_lt_l; [apply pow2_pos|].
      rewrite pow2_Z by lia. apply Z_lt_Q; lia.
    - rewrite <- pow2_plus. replace (ln - ld - 1 + (ld + 1)) with ln by lia.
      rewrite pow2_Z by lia. apply Z_le_Q; lia. }
  assert (n # d < pow2 (ln - ld + 1))%Q as Hhigh.
  { rewrite Hq'. apply Qlt_shift_div_r; [done|].
    apply Qlt_le_trans with (pow2 (ln + 1)).
    - rewrite pow2_Z by lia. apply Z_lt_Q. by replace (ln + 1) with (Z.succ ln) by lia.
    - replace (ln + 1) with (ln - ld + 1 + ld) by lia. rewrite pow2_plus.
      apply Qmult_le_l; [apply pow2_pos|].
      rewrite pow2_Z by lia. apply Z_le_Q; lia. }
  destruct (Qle_bool (pow2 (ln - ld)) (n # d)) eqn:Htest.
  - apply Qle_bool_iff in Htest. by split.
  - split; [by apply Qlt_le_weak|].
    replace (ln - ld - 1 + 1) with (ln - ld) by lia.
    apply Qnot_le_lt. intros Hle. apply Qle_bool_iff in Hle. congruence.
Qed.

Lemma nearest_even_le t n : (t <= inject_Z n)%Q → nearest_even t ≤ n.
Proof.
  intros Ht. unfold nearest_even.
  pose proof (Qfloor_le t) as Hfloor.
  pose proof (Qfloor_resp_le _ _ Ht) as Hmono. rewrite Qfloor_Z in Hmono.
  destruct (Qcompare_spec (t - inject_Z (Qfloor t)) (1 # 2)) as [Heq|Hlt|Hgt];
    [|done|].
  - destruct (Z.even (Qfloor t)); [done|].
    destruct (decide (Qfloor t = n)) as [Hn|Hn]; [|lia].
    rewrite Hn in Heq. lra.
  - destruct (decide (Qfloor t = n)) as [Hn|Hn]; [|lia].
    rewrite Hn in Hgt. lra.
Qed.

Lemma nearest_even_ge t n : (inject_Z n <= t)%Q → n ≤ nearest_even t.
Proof.
  intros Ht. unfold nearest_even.
  pose proof (Qfloor_resp_le _ _ Ht) as Hmono. rewrite Qfloor_Z in Hmono.
  destruct (_ ?= _)%Q; [destruct (Z.even _)|..]; lia.
Qed.

Lemma representable_Z z : 0 < z < 2 ^ 53 → representable (inject_Z z).
Proof.
  intros Hz. exists z, 0. split; [done|]. split; [done|].
  change (pow2 0) with 1%Q. lra.
Qed.

(** A double that is not below the binade of [q] is a multiple of the
    last place of that binade. *)
Lemma representable_on_grid q b :
  (0 < q)%Q → representable b → (pow2 (ilog2 q) <= b)%Q →
  ∃ N, (b == inject_Z N * pow2 (ulp_exponent q))%Q.
Proof.
  intros Hq (n & k & [Hn0 Hn] & Hk & Hb) Hle.
  unfold ulp_exponent. set (e := ilog2 q) in *.
  assert (e - 52 ≤ k) as Hek.
  { destruct (decide (e - 52 ≤ k)) as [|Hlt]; [done|]. exfalso.
    assert (pow2 (k + 53) <= pow2 e)%Q as Hpow by (apply pow2_le; lia).
    assert (b < pow2 (k + 53))%Q as Hbelow.
    { rewrite Hb, pow2_plus, Qmult_comm. apply Qmult_lt_l; [apply pow2_pos|].
      rewrite pow2_Z by lia. apply Z_lt_Q; lia. }
    lra. }
  set (c := Z.max (e - 52) (-1074)).
  assert (c ≤ k) as Hck by lia.
  exists (n * 2 ^ (k - c)).
  rewrite Hb, inject_Z_mult, <- pow2_Z by lia.
  rewrite <- Qmult_assoc, <- pow2_plus. by replace (k - c + c) with k by lia.
Qed.

Lemma round_pos_le q b :
  (0 < q)%Q → representable b → (q <= b)%Q → (round_pos q <= b)%Q.
Proof.
  intros Hq Hb Hqb. destruct (ilog2_spec q Hq) as [Hlow _].
  destruct (representable_on_grid q b Hq Hb) as [N HN]; [lra|].
  unfold round_pos. set (c := ulp_exponent q) in *.
  pose proof (pow2_pos c) as Hc.
  assert (nearest_even (q / pow2 c) ≤ N) as Hround.
  { apply nearest_even_le. apply Qle_shift_div_r; [done|]. lra. }
  rewrite HN. apply Qmult_le_r; [done|]. by apply Z_le_Q.
Qed.

Lemma round_pos_ge q a :
  (0 < q)%Q → representable a → (a <= q)%Q → (a <= round_pos q)%Q.
Proof.
  intros Hq Ha Haq. destruct (ilog2_spec q Hq) as [Hlow _].
  unfold round_pos. set (c := ulp_exponent q) in *.
  pose proof (pow2_pos c) as Hc.
  destruct (Qlt_le_dec a (pow2 (ilog2 q))) as [Hbelow|Habove].
  - (* the result is not below the binade of [q] *)
    destruct (decide (c ≤ ilog2 q)) as [Hce|Hce].
    + assert (2 ^ (ilog2 q - c) ≤ nearest_even (q / pow2 c)) as Hround.
      { apply nearest_even_ge. apply Qle_shift_div_l; [done|].
        rewrite <- pow2_Z, <- pow2_plus by lia.
        by replace (ilog2 q - c + c) with (ilog2 q) by lia. }
      apply Qle_trans with (pow2 (ilog2 q)); [lra|].
      replace (ilog2 q) with (ilog2 q - c + c) at 1 by lia.
      rewrite pow2_plus, pow2_Z by lia.
      apply Qmult_le_r; [done|]. by apply Z_le_Q.
    + exfalso. destruct Ha as (n & k & [Hn0 Hn] & Hk & Ha).
      assert (pow2 (ilog2 q) <= pow2 k)%Q as Hpow.
      { apply pow2_le. unfold c, ulp_exponent in Hce. lia. }
      assert (pow2 k <= a)%Q as Hka.
      { rewrite Ha. rewrite <- (Qmult_1_l (pow2 k)) at 1.
        apply Qmult_le_r; [apply pow2_pos|]. apply (Z_le_Q 1). lia. }
      lra.
  - destruct (representable_on_grid q a Hq Ha Habove) as [N HN].
    fold c in HN.
    assert (N ≤ nearest_even (q / pow2 c)) as Hround.
    { apply nearest_even_ge. apply Qle_shift_div_l; [done|]. lra. }
    rewrite HN. apply Qmult_le_r; [done|]. by apply Z_le_Q.
Qed.

Lemma round_pos_exact b : representable b → (round_pos b == b)%Q.
Proof.
  intros Hb.
  assert (0 < b)%Q as Hpos.
  { destruct Hb as (n & k & [Hn0 Hn] & Hk & ->).
    apply Qmult_lt_0_compat; [|apply pow2_pos]. by apply (Z_lt_Q 0). }
  apply Qle_antisym; [apply round_pos_le|apply round_pos_ge]; try done;
    apply Qle_refl.
Qed.

Lemma round_pos_nonneg q : (0 < q)%Q → (0 <= round_pos q)%Q.
Proof.
  intros Hq. unfold round_pos. pose proof (pow2_pos (ulp_exponent q)) as Hc.
  apply Qmult_le_0_compat; [|lra]. apply (Z_le_Q 0).
  apply nearest_even_ge. apply Qle_shift_div_l; [done|].
  change (inject_Z 0) with 0%Q. lra.
Qed.

Lemma pow2_1024_above z : z < 2 ^ 53 → (inject_Z z < pow2 1024)%Q.
Proof.
  intros Hz. apply Qlt_le_trans with (inject_Z (2 ^ 53)); [by apply Z_lt_Q|].
  rewrite <- pow2_Z by done. apply pow2_le. done.
Qed.

Lemma Qnum_pos q : (0 < q)%Q → ∃ p, Qnum q = Z.pos p.
Proof.
  destruct q as [[|p|p] d]; unfold Qlt; simpl; intros Hq; [lia|by exists p|lia].
Qed.

Lemma this_Q2Qc q : (this (Q2Qc q) == q)%Q.
Proof. apply Qred_correct. Qed.

(** Rounding keeps a number between two doubles between them. *)
Lemma round64_between q a b :
  (a == 0 ∨ representable a)%Q → representable b → (b < pow2 1024)%Q →
  (a <= q)%Q → (q <= b)%Q →
  ∃ r : Qc, round64 q = finite r ∧ (a <= r)%Q ∧ (r <= b)%Q.
Proof.
  intros Ha Hb Hmax Haq Hqb.
  assert (0 <= a)%Q as Ha0.
  { destruct Ha as [->|(n & k & [Hn _] & _ & ->)]; [apply Qle_refl|].
    apply Qmult_le_0_compat; [apply (Z_le_Q 0); lia|].
    apply Qlt_le_weak, pow2_pos. }
  destruct (Qlt_le_dec 0 q) as [Hpos|Hzero].
  - destruct (Qnum_pos q Hpos) as [p Hp]. unfold round64. rewrite Hp.
    assert (round_pos q <= b)%Q as Hhigh by by apply round_pos_le.
    assert (a <= round_pos q)%Q as Hlow.
    { destruct Ha as [Ha|Ha]; [|by apply round_pos_ge].
      rewrite Ha. by apply round_pos_nonneg. }
    destruct (Qle_bool (pow2 1024) (round_pos q)) eqn:Hover.
    + apply Qle_bool_iff in Hover. lra.
    + eexists. split; [done|]. rewrite this_Q2Qc. done.
  - assert (q == 0)%Q as Hq by lra.
    assert (Qnum q = 0) as Hnum.
    { destruct q as [n d]. unfold Qeq in Hq. simpl in Hq. simpl. lia. }
    unfold round64. rewrite Hnum. exists 0%Qc. split; [done|].
    change (this 0%Qc) with 0%Q.
    assert (0 < b)%Q.
    { destruct Hb as (n & k & [Hn _] & _ & ->).
      apply Qmult_lt_0_compat; [by apply (Z_lt_Q 0)|apply pow2_pos]. }
    lra.
Qed.

Lemma finite_eq (r : Qc) (q : Q) : (r == q)%Q → finite r = finite (Q2Qc q).
Proof. intros Hr. f_equal. apply Qc_is_canon. by rewrite this_Q2Qc. Qed.

(** Integers below [2^53] are doubles. *)
Lemma of_Z_exact z : 0 ≤ z < 2 ^ 53 → of_Z z = finite (Q2Qc (inject_Z z)).
Proof.
  intros [Hz0 Hz]. destruct (decide (z = 0)) as [->|Hnz]; [done|].
  destruct (round64_between (inject_Z z) (inject_Z z) (inject_Z z))
    as (r & Hr & Hlow & Hhigh).
  - right. apply representable_Z. lia.
  - apply representable_Z. lia.
  - by apply pow2_1024_above.
  - apply Qle_refl.
  - apply Qle_refl.
  - unfold of_Z. rewrite Hr. apply finite_eq. lra.
Qed.

Lemma of_nat_at_least_one n : (0 < n)%nat → at_least_one (of_nat n).
Proof.
  intros Hn. unfold of_nat, of_Z, round64.
  assert (0 < inject_Z (Z.of_nat n))%Q as Hpos by (apply (Z_lt_Q 0); lia).
  destruct (Qnum_pos _ Hpos) as [p ->].
  destruct (Qle_bool _ _); [by left|right].
  eexists. split; [done|]. rewrite this_Q2Qc.
  apply round_pos_ge; [done|apply (representable_Z 1); lia|].
  apply (Z_le_Q 1). lia.
Qed.

Lemma at_least_one_mul x y :
  at_least_one x → at_least_one y → at_least_one (mul x y).
Proof.
  assert (∀ r : Qc, (1 <= r)%Q → is_zero r = false ∧ is_negative r = false)
    as Hsign.
  { intros r Hr. unfold is_zero, is_negative. split.
    - apply bool_decide_eq_false. intros ->. by compute in Hr.
    - apply bool_decide_eq_false. unfold Qclt. change (this 0%Qc) with 0%Q. lra. }
  intros [->|(a & -> & Ha)] [->|(b & -> & Hb)]; simpl.
  - by left.
  - destruct (Hsign b Hb) as [-> ->]. by left.
  - destruct (Hsign a Ha) as [-> ->]. by left.
  - unfold round64.
    assert (1 <= a * b)%Q as Hab.
    { apply Qle_trans with (1 * b)%Q; [lra|]. apply Qmult_le_compat_r; lra. }
    destruct (Qnum_pos (a * b)%Q) as [p ->]; [lra|].
    destruct (Qle_bool _ _); [by left|right].
    eexists. split; [done|]. rewrite this_Q2Qc.
    apply round_pos_ge; [lra|apply (representable_Z 1); lia|done].
Qed.

(** A quotient of a count by a divisor that is at least 1. *)
Lemma div_between (a : Qc) d bound :
  0 < bound < 2 ^ 53 →
  (0 <= a)%Q → (a <= inject_Z bound)%Q → at_least_one d →
  ∃ r : Qc, div (finite a) d = finite r ∧ (0 <= r)%Q ∧ (r <= inject_Z bound)%Q.
Proof.
  intros Hbound Ha0 Ha [->|(b & -> & Hb)]; simpl.
  - exists 0%Qc. split; [done|]. change (this 0%Qc) with 0%Q.
    split; [lra|]. apply (Z_le_Q 0). lia.
  - unfold is_zero. rewrite bool_decide_eq_false_2.
    2: { intros ->. by compute in Hb. }
    apply round64_between.
    + by left.
    + by apply representable_Z.
    + apply pow2_1024_above. lia.
    + apply Qle_shift_div_l; lra.
    + apply Qle_shift_div_r; [lra|].
      apply Qle_trans with (inject_Z bound * 1)%Q; [lra|].
      apply Qmult_le_l; [apply (Z_lt_Q 0); lia|done].
Qed.

Lemma mul_between (a b : Qc) bound_a bound_b :
  0 < bound_a * bound_b < 2 ^ 53 → 0 ≤ bound_a →
  (0 <= a)%Q → (a <= inject_Z bound_a)%Q →
  (0 <= b)%Q → (b <= inject_Z bound_b)%Q →
  ∃ r : Qc, mul (finite a) (finite b) = finite r
            ∧ (0 <= r)%Q ∧ (r <= inject_Z (bound_a * bound_b))%Q.
Proof.
  intros Hbound Hpos Ha0 Ha Hb0 Hb. simpl. apply round64_between.
  - by left.
  - by apply representable_Z.
  - apply pow2_1024_above. lia.
  - by apply Qmult_le_0_compat.
  - rewrite inject_Z_mult.
    apply Qle_trans with (inject_Z bound_a * b)%Q.
    + by apply Qmult_le_compat_r.
    + apply Qmult_le_l; [|done]. apply (Z_lt_Q 0).
      destruct (decide (bound_a = 0)) as [->|]; lia.
Qed.

Lemma add_between (a b : Qc) bound_a bound_b :
  0 < bound_a + bound_b < 2 ^ 53 →
  (0 <= a)%Q → (a <= inject_Z bound_a)%Q →
  (0 <= b)%Q → (b <= inject_Z bound_b)%Q →
  ∃ r : Qc, add (finite a) (finite b) = finite r
            ∧ (0 <= r)%Q ∧ (r <= inject_Z (bound_a + bound_b))%Q.
Proof.
  intros Hbound Ha0 Ha Hb0 Hb. simpl. apply round64_between.
  - by left.
  - by apply representable_Z.
  - apply pow2_1024_above. lia.
  - lra.
  - rewrite inject_Z_plus. lra.
Qed.

Lemma round_between (p : Qc) bound :
  0 ≤ bound < 2 ^ 53 →
  (0 <= p)%Q → (p <= inject_Z bound)%Q →
  ∃ k, round (finite p) = finite (Q2Qc (inject_Z k))
       ∧ k = Qfloor (p + (1 # 2)) ∧ 0 ≤ k ≤ bound.
Proof.
  intros Hbound Hp0 Hp. simpl.
  set (k := Qfloor (p + (1 # 2))).
  assert (0 ≤ k ≤ bound) as Hk.
  { unfold k. split.
    - change 0 with (Qfloor (inject_Z 0)). apply Qfloor_resp_le.
      change (inject_Z 0) with 0%Q. lra.
    - destruct (decide (Qfloor (p + (1 # 2)) ≤ bound)) as [|Habove]; [done|].
      exfalso. pose proof (Qfloor_le (p + (1 # 2))) as Hfloor.
      assert (inject_Z (bound + 1) <= inject_Z (Qfloor (p + (1 # 2))))%Q as Hle
        by (apply Z_le_Q; lia).
      rewrite inject_Z_plus in Hle. change (inject_Z 1) with 1%Q in Hle. lra. }
  exists k. split; [|done]. apply of_Z_exact. lia.
Qed.

(** The operations agree with the Standard Library's specification of
    IEEE 754 arithmetic on the quotients and products of small counts,
    and [0.1 + 0.2] is the double it is known to be. *)
Lemma doubles_as_SpecFloat :
  div (of_nat 23) (of_nat 160)
  = of_spec_float (SpecFloat.SFdiv 53 1024 (SpecFloat.S754_finite false 23 0)
                                           (SpecFloat.S754_finite false 160 0))
  ∧ mul (div (of_nat 23) (of_nat 160)) (of_Z 100)
    = of_spec_float
        (SpecFloat.SFmul 53 1024
           (SpecFloat.SFdiv 53 1024 (SpecFloat.S754_finite false 23 0)
                                    (SpecFloat.S754_finite false 160 0))
           (SpecFloat.S754_finite false 100 0))
  ∧ div (of_nat 2) (of_nat 3)
    = of_spec_float (SpecFloat.SFdiv 53 1024 (SpecFloat.S754_finite false 2 0)
                                             (SpecFloat.S754_finite false 3 0))
  ∧ add (div (of_nat 1) (of_nat 10)) (div (of_nat 2) (of_nat 10))
    = finite (Q2Qc (1351079888211149 # 4503599627370496))
  ∧ div (of_nat 1) (of_nat 0) = infinity false
  ∧ div (of_nat 0) (of_nat 0) = NaN.
Proof. repeat split; apply (bool_decide_unpack _); by vm_compute. Qed.

End doubles.

(** ** What the loops collect *)

Section stats.
Import Binary64 JsNumber membershipStats.

(** What the variables are when [fetchMembershipStats] gets to its
    [return]. *)
Lemma fetchLocals_Ok f w db l :
  fetchLocals f w db = Ok l →
  let activeMemberIds := select_active_members db in
  let pipelinersCount :=
    if count_missing f then None else Some (count_active_pipeliners db) in
  let records := select_meetings (monthStart w) (monthEnd w) db in
  let yearMeetingIds :=
    (filteredYearMeetings w
       (select_meetings (yearStart w) (yearRangeEnd w) db)).*1 in
  l_activeMembers l = length activeMemberIds
  ∧ l_pipelinersCount l = pipelinersCount
  ∧ (l_meetingAttendanceCount l, l_meetingAttendancePercentage l,
     l_attendedLastMeeting l, l_pipelinerPresentTotal l, l_pipelinerAttendanceRate l)
    = (if (0 <? length records.*1)%nat
       then month_block (length activeMemberIds) pipelinersCount records
                        (select_month_attendance records.*1 db)
       else (0%nat, of_Z 0, 0%nat, 0%nat, of_Z 0))
  ∧ l_yearlyAverageAttendance l
    = (if (0 <? length yearMeetingIds)%nat
       then year_block (list_to_set activeMemberIds)
                       (select_year_attendance yearMeetingIds db)
       else of_Z 0).
Proof.
  unfold fetchLocals, supabase.
  destruct (activeMembersError f); [done|].
  destruct (pipelinersError f); [done|].
  destruct (monthMeetingsError f); [done|].
  destruct (yearMeetingsError f); [done|].
  cbn [mbind result_bind].
  destruct (0 <? length (select_meetings (monthStart w) (monthEnd w) db).*1)%nat.
  - destruct (monthAttendanceError f); [done|]. cbn [mbind result_bind].
    destruct (month_block _ _ _ _) as [[[[a b] c] d] e] eqn:Hblock.
    destruct (0 <? length _)%nat.
    + destruct (yearAttendanceError f); [done|]. cbn [mbind result_bind].
      by intros [= <-].
    + cbn [mbind result_bind]. by intros [= <-].
  - cbn [mbind result_bind].
    destruct (0 <? length _)%nat.
    + destruct (yearAttendanceError f); [done|]. cbn [mbind result_bind].
      by intros [= <-].
    + cbn [mbind result_bind]. by intros [= <-].
Qed.

Lemma sum_values_bump (m : gmap uuid nat) k :
  sum_values (<[k := (default 0 (m !! k) + 1)%nat]> m) = S (sum_values m).
Proof.
  unfold sum_values.
  assert (∀ (j1 j2 : uuid) (z1 z2 y : nat),
            (y + z2 + z1 = y + z1 + z2)%nat) as Hcomm by (intros; lia).
  destruct (m !! k) as [v|] eqn:Hk; simpl.
  - rewrite <- (insert_delete_id m k v) at 2 by done.
    rewrite <- (insert_delete_eq m).
    rewrite !(map_fold_insert_L (λ _ value sum, (sum + value)%nat));
      [lia|by intros; apply Hcomm|apply lookup_delete_eq
      |by intros; apply Hcomm|apply lookup_delete_eq].
  - rewrite (map_fold_insert_L (λ _ value sum, (sum + value)%nat));
      [lia|by intros; apply Hcomm|done].
Qed.

(** What the loop over [monthAttendance] has collected. *)
Lemma tally_collects (entries : list Attendance.Row) (t0 : MonthTally) :
  let t := foldl tally_entry t0 entries in
  (∀ meeting s, attendanceByMeeting t0 !! meeting = Some s →
                s ⊆ uniqueMonthlyAttendees t0) →
  uniqueMonthlyAttendees t
  = uniqueMonthlyAttendees t0 ∪ list_to_set (omap Attendance.member_id entries)
  ∧ (∀ meeting s, attendanceByMeeting t !! meeting = Some s →
                  s ⊆ uniqueMonthlyAttendees t)
  ∧ sum_values (pipelinerMonthlyAttendance t)
    = (sum_values (pipelinerMonthlyAttendance t0)
       + length (filter (λ entry, is_Some (Attendance.pipeliner_id entry)) entries))%nat.
Proof.
  revert t0. induction entries as [|entry entries IH]; intros t0; simpl.
  - intros Hsub. split; [set_solver|]. split; [done|lia].
  - intros Hsub.
    destruct (IH (tally_entry t0 entry)) as (Hunique & Hby & Hsum).
    { intros meeting s. unfold tally_entry.
      destruct (Attendance.member_id entry) as [member|] eqn:Hmember;
        destruct (Attendance.pipeliner_id entry); simpl;
        try (by apply Hsub);
        destruct (attendanceByMeeting t0 !! Attendance.meeting_id entry)
          as [existing|] eqn:Hexisting;
        (destruct (decide (Attendance.meeting_id entry = meeting)) as [<-|Hne];
         [rewrite lookup_insert_eq; intros [= <-]
         |rewrite lookup_insert_ne by done; intros Hs; apply Hsub in Hs]);
        try apply Hsub in Hexisting; set_solver. }
    split; [|split; [done|]].
    + rewrite Hunique. unfold tally_entry.
      destruct (Attendance.member_id entry) as [member|];
        destruct (Attendance.pipeliner_id entry); simpl; set_solver.
    + rewrite Hsum. rewrite filter_cons. unfold tally_entry.
      destruct (Attendance.pipeliner_id entry) as [pipeliner|]; simpl.
      * destruct (Attendance.member_id entry); simpl; rewrite sum_values_bump; lia.
      * destruct (Attendance.member_id entry); simpl; lia.
Qed.

Lemma select_meetings_ids from to db meeting_id :
  meeting_id ∈ (select_meetings from to db).*1
  ↔ ∃ meeting, meetings db !! meeting_id = Some meeting
               ∧ (from ≤ Meeting.meeting_date meeting)%N
               ∧ (Meeting.meeting_date meeting ≤ to)%N.
Proof.
  unfold select_meetings. rewrite list_elem_of_fmap. split.
  - intros ([i meeting] & -> & Hin). apply elem_of_map_to_list in Hin.
    apply map_lookup_filter_Some in Hin as [Hi Hwindow]. eauto.
  - intros (meeting & Hi & Hwindow). exists (meeting_id, meeting). split; [done|].
    apply elem_of_map_to_list, map_lookup_filter_Some. done.
Qed.

Lemma present_in_month_spec w db a :
  present_in_month w db a = true
  ↔ Attendance.meeting_id a ∈ (select_meetings (monthStart w) (monthEnd w) db).*1
    ∧ Attendance.status a = present.
Proof.
  unfold present_in_month. rewrite select_meetings_ids.
  destruct (meetings db !! Attendance.meeting_id a) as [meeting|].
  - rewrite andb_true_iff, !bool_decide_eq_true. split.
    + intros [Hwindow Hstatus]. split; [|done]. by exists meeting.
    + intros [(meeting' & [= <-] & Hwindow) Hstatus]. done.
  - split; [done|]. by intros [(? & ? & _) _].
Qed.

Lemma select_month_attendance_rows w db entry :
  entry ∈ select_month_attendance
            (select_meetings (monthStart w) (monthEnd w) db).*1 db
  ↔ ∃ i, attendance db !! i = Some entry ∧ present_in_month w db entry = true.
Proof.
  unfold select_month_attendance. rewrite list_elem_of_fmap. split.
  - intros ([i a] & -> & Hin). apply elem_of_map_to_list in Hin.
    apply map_lookup_filter_Some in Hin as [Hi Hrow].
    exists i. split; [done|]. by apply present_in_month_spec.
  - intros (i & Hi & Hrow). exists (i, entry). split; [done|].
    apply elem_of_map_to_list, map_lookup_filter_Some. split; [done|].
    by apply present_in_month_spec.
Qed.

Lemma select_month_attendance_pipeliners w db :
  Z.of_nat
    (length
       (filter (λ entry, is_Some (Attendance.pipeliner_id entry))
               (select_month_attendance
                  (select_meetings (monthStart w) (monthEnd w) db).*1 db)))
  = count_where
      (λ a, present_in_month w db a && bool_decide (is_Some (Attendance.pipeliner_id a)))
      (attendance db).
Proof.
  unfold select_month_attendance, count_where. f_equal.
  rewrite filtered_fmap_length.
  rewrite (filtered_list_size
             (λ kv : uuid * Attendance.Row, is_Some (Attendance.pipeliner_id kv.2))).
  rewrite map_filter_filter. f_equal. apply map_filter_ext.
  intros i a _. simpl.
  rewrite andb_true_iff, bool_decide_eq_true, present_in_month_spec. naive_solver.
Qed.

Lemma length_omap_le {A B} (f : A → option B) (l : list A) :
  (length (omap f l) ≤ length l)%nat.
Proof.
  induction l as [|x l IH]; [done|]. cbn. destruct (f x); cbn in *; lia.
Qed.

Lemma size_list_to_set_le (l : list uuid) :
  (size (list_to_set l : gset uuid) ≤ length l)%nat.
Proof.
  induction l as [|x l IH]; [by rewrite list_to_set_nil, size_empty|].
  rewrite list_to_set_cons, size_union_alt, size_singleton. cbn [length].
  assert (size ((list_to_set l : gset uuid) ∖ {[x]}) ≤ size (list_to_set l : gset uuid))%nat
    by (apply subseteq_size; set_solver).
  lia.
Qed.

(** The month's figures are counts of at most as many things as there are
    attendance rows. *)
Lemma month_tally_sizes (entries : list Attendance.Row) :
  (size (uniqueMonthlyAttendees (month_tally entries)) ≤ length entries)%nat
  ∧ (sum_values (pipelinerMonthlyAttendance (month_tally entries))
     ≤ length entries)%nat.
Proof.
  destruct (tally_collects entries
              {| uniqueMonthlyAttendees := ∅; attendanceByMeeting := ∅;
                 pipelinerMonthlyAttendance := ∅ |})
    as (Hunique & _ & Hsum); [done|].
  fold (month_tally entries) in Hunique, Hsum. simpl in Hunique, Hsum. split.
  - rewrite Hunique, (left_id_L ∅ (∪)).
    etrans; [apply size_list_to_set_le|apply length_omap_le].
  - rewrite Hsum. unfold sum_values at 1. rewrite map_fold_empty. simpl.
    apply length_filter.
Qed.

Lemma map_get_elem {V} (m : list (uuid * V)) k v :
  map_get m k = Some v → ∃ k', (k', v) ∈ m.
Proof.
  unfold map_get. destruct (List.find _ m) as [[k' v']|] eqn:Hfind; [|done].
  intros [= <-]. apply find_some in Hfind as [Hin _].
  exists k'. by apply list_elem_of_In.
Qed.

Lemma map_set_entries {V} (P : V → Prop) (m : list (uuid * V)) k v :
  Forall (λ kv, P kv.2) m → P v → Forall (λ kv, P kv.2) (map_set m k v).
Proof.
  intros Hm Hv. induction Hm as [|kv m Hkv Hm IH]; simpl.
  - by repeat constructor.
  - case_bool_decide; constructor; done.
Qed.

Lemma map_set_length {V} (m : list (uuid * V)) k v :
  (length (map_set m k v) ≤ S (length m))%nat.
Proof. induction m as [|kv m IH]; simpl; [lia|]. case_bool_decide; simpl; lia. Qed.

(** The loop over [yearAttendance] keeps, for every member, no more
    present rows than counted rows, no more counted rows than there were
    rows, and no more members than rows. *)
Lemma year_entry_counts activeMemberSet entries (m0 : list (uuid * (nat * nat))) c0 :
  Forall (λ kv, (kv.2.1 ≤ kv.2.2 ≤ c0)%nat) m0 →
  (length m0 ≤ c0)%nat →
  Forall (λ kv, (kv.2.1 ≤ kv.2.2 ≤ c0 + length entries)%nat)
         (foldl (year_entry activeMemberSet) m0 entries)
  ∧ (length (foldl (year_entry activeMemberSet) m0 entries)
     ≤ c0 + length entries)%nat.
Proof.
  revert m0 c0. induction entries as [|entry entries IH]; intros m0 c0 Hm0 Hsize.
  - simpl. split; [|lia]. eapply Forall_impl; [exact Hm0|]. simpl. lia.
  - simpl. replace (c0 + S (length entries))%nat with (S c0 + length entries)%nat
      by lia.
    assert (Forall (λ kv : uuid * (nat * nat), (kv.2.1 ≤ kv.2.2 ≤ S c0)%nat) m0)
      as Hm1.
    { eapply Forall_impl; [exact Hm0|]. simpl. lia. }
    apply IH.
    + unfold year_entry.
      destruct (Attendance.member_id entry) as [memberId|]; [|done].
      destruct (bool_decide (memberId ∈ activeMemberSet)); [|done].
      apply (map_set_entries (λ v : nat * nat, (v.1 ≤ v.2 ≤ S c0)%nat)); [done|].
      destruct (map_get m0 memberId) as [[p0 t0]|] eqn:Hget; simpl.
      * apply map_get_elem in Hget as [k' Hin].
        rewrite Forall_forall in Hm0. apply Hm0 in Hin. simpl in Hin.
        case_bool_decide; lia.
      * case_bool_decide; lia.
    + unfold year_entry.
      destruct (Attendance.member_id entry) as [memberId|]; [|lia].
      destruct (bool_decide (memberId ∈ activeMemberSet)); [|lia].
      etrans; [apply map_set_length|]. lia.
Qed.

Lemma memberAverages_length (m : list (uuid * (nat * nat))) :
  (length (memberAverages m) ≤ length m)%nat.
Proof. apply length_omap_le. Qed.

(** ** Quotients of counts *)

Lemma of_Z_100 : of_Z 100 = finite (Q2Qc (inject_Z 100)).
Proof. by apply of_Z_exact. Qed.

Lemma of_nat_exact n :
  Z.of_nat n < 2 ^ 53 → of_nat n = finite (Q2Qc (inject_Z (Z.of_nat n))).
Proof. intros Hn. apply of_Z_exact. lia. Qed.

Lemma up_to_zero bound : 0 ≤ bound → up_to bound (of_Z 0).
Proof.
  intros Hbound. exists 0%Qc. split; [done|]. change (this 0%Qc) with 0%Q.
  split; [lra|]. by apply (Z_le_Q 0).
Qed.

Lemma up_to_isFinite bound x : up_to bound x → isFinite x = true.
Proof. by intros (r & -> & _). Qed.

(** A count divided by a divisor made of positive counts, as a
    percentage. *)
Lemma ratio_up_to (n : nat) d bound :
  0 < bound → 100 * bound < 2 ^ 53 → Z.of_nat n ≤ bound → at_least_one d →
  up_to (bound * 100) (mul (div (of_nat n) d) (of_Z 100)).
Proof.
  intros Hpos Hbound Hn Hd. rewrite of_nat_exact, of_Z_100 by lia.
  destruct (div_between (Q2Qc (inject_Z (Z.of_nat n))) d bound)
    as (r & -> & Hr0 & Hr); [lia|..|done|].
  - rewrite this_Q2Qc. apply (Z_le_Q 0). lia.
  - rewrite this_Q2Qc. by apply Z_le_Q.
  - apply mul_between; [lia|lia|done|done|..]; rewrite this_Q2Qc.
    + by apply (Z_le_Q 0).
    + apply Qle_refl.
Qed.

(** A part of a whole, as a percentage. *)
Lemma share_up_to (part whole : nat) :
  (part ≤ whole)%nat → (0 < whole)%nat → Z.of_nat whole < 2 ^ 53 →
  up_to 100 (mul (div (of_nat part) (of_nat whole)) (of_Z 100)).
Proof.
  intros Hpart Hwhole Hbound. rewrite !of_nat_exact, of_Z_100 by lia.
  assert (∃ r : Qc,
            div (finite (Q2Qc (inject_Z (Z.of_nat part))))
                (finite (Q2Qc (inject_Z (Z.of_nat whole)))) = finite r
            ∧ (0 <= r)%Q ∧ (r <= inject_Z 1)%Q) as (r & -> & Hr0 & Hr).
  { cbn [div]. unfold is_zero. rewrite bool_decide_eq_false_2.
    2: { intros Hzero. apply Q2Qc_eq_iff in Hzero.
         unfold Qeq in Hzero. simpl in Hzero. lia. }
    assert (0 < inject_Z (Z.of_nat whole))%Q by (apply (Z_lt_Q 0); lia).
    assert (0 <= inject_Z (Z.of_nat part))%Q by (apply (Z_le_Q 0); lia).
    assert (inject_Z (Z.of_nat part) <= inject_Z (Z.of_nat whole))%Q
      by (apply Z_le_Q; lia).
    apply round64_between.
    - by left.
    - by apply representable_Z.
    - by apply pow2_1024_above.
    - rewrite !this_Q2Qc. apply Qle_shift_div_l; lra.
    - rewrite !this_Q2Qc. apply Qle_shift_div_r; [done|].
      change (inject_Z 1) with 1%Q. lra. }
  apply (mul_between r (Q2Qc (inject_Z 100)) 1 100); [lia|lia|done|done|..];
    rewrite this_Q2Qc.
  - by apply (Z_le_Q 0).
  - apply Qle_refl.
Qed.

(** A sum of percentages. *)
Lemma sum_up_to (terms : list number) (s0 : Qc) bound :
  0 ≤ bound → bound + 100 * Z.of_nat (length terms) < 2 ^ 53 →
  (0 <= s0)%Q → (s0 <= inject_Z bound)%Q →
  Forall (up_to 100) terms →
  up_to (bound + 100 * Z.of_nat (length terms)) (foldl add (finite s0) terms).
Proof.
  revert s0 bound. induction terms as [|x terms IH];
    intros s0 bound Hbound Hmax Hs0 Hs Hall.
  - exists s0. split; [done|]. split; [done|]. cbn [length].
    by replace (bound + 100 * Z.of_nat 0) with bound by lia.
  - apply Forall_cons in Hall as [(q & -> & Hq0 & Hq) Hall].
    cbn [foldl length] in *.
    destruct (add_between s0 q bound 100) as (s1 & -> & Hs10 & Hs1);
      [lia|done..|].
    replace (bound + 100 * Z.of_nat (S (length terms)))
      with (bound + 100 + 100 * Z.of_nat (length terms)) by lia.
    apply IH; [lia|lia|done|done|done].
Qed.

(** What [roundToTwoDecimals] makes of a number between 0 and [bound]. *)
Lemma roundToTwoDecimals_up_to raw bound :
  0 < bound → bound * 100 < 2 ^ 53 → up_to bound raw →
  rounded_to_two_decimals raw (roundToTwoDecimals raw)
  ∧ up_to bound (roundToTwoDecimals raw).
Proof.
  intros Hpos Hbound (q & -> & Hq0 & Hq). unfold roundToTwoDecimals.
  cbn [isFinite]. rewrite of_Z_100.
  destruct (mul_between q (Q2Qc (inject_Z 100)) bound 100)
    as (p & Hp & Hp0 & Hp1); [lia|lia|done|done|..].
  { rewrite this_Q2Qc. by apply (Z_le_Q 0). }
  { rewrite this_Q2Qc. apply Qle_refl. }
  rewrite Hp.
  destruct (round_between p (bound * 100)) as (k & Hk & Hfloor & Hk0 & Hk1);
    [lia|done|done|].
  rewrite Hk.
  assert (∃ r : Qc,
            div (finite (Q2Qc (inject_Z k))) (finite (Q2Qc (inject_Z 100)))
            = finite r
            ∧ (0 <= r)%Q ∧ (r <= inject_Z bound)%Q) as (r & Hr & Hr0 & Hr1).
  { cbn [div]. unfold is_zero. rewrite bool_decide_eq_false_2.
    2: { intros Hzero. apply Q2Qc_eq_iff in Hzero. by compute in Hzero. }
    assert (0 <= inject_Z k)%Q by by apply (Z_le_Q 0).
    assert (inject_Z k <= inject_Z (bound * 100))%Q as Hle by by apply Z_le_Q.
    rewrite inject_Z_mult in Hle.
    apply round64_between.
    - by left.
    - apply representable_Z. lia.
    - apply pow2_1024_above. lia.
    - rewrite !this_Q2Qc. apply Qle_shift_div_l; [reflexivity|].
      change (inject_Z 100) with (100 # 1)%Q. lra.
    - rewrite !this_Q2Qc. apply Qle_shift_div_r; [reflexivity|].
      change (inject_Z 100) with (100 # 1)%Q in *. lra. }
  split.
  - exists q, p, r, k. split; [done|]. split; [by rewrite of_Z_100|].
    split; [done|]. rewrite of_Z_100, of_Z_exact by lia. done.
  - by exists r.
Qed.

(** The yearly average lies between 0 and 100. *)
Lemma year_block_up_to activeMemberSet (yearAttendance : list Attendance.Row) :
  Z.of_nat (length yearAttendance) < 2 ^ 32 →
  up_to 100 (year_block activeMemberSet yearAttendance).
Proof.
  intros Hrows. unfold year_block.
  destruct (year_entry_counts activeMemberSet yearAttendance [] 0)
    as [Hcounts Hsize]; [done|done|].
  set (m := foldl (year_entry activeMemberSet) [] yearAttendance) in *.
  pose proof (memberAverages_length m) as Hlength.
  assert (Forall (up_to 100) (memberAverages m)) as Hall.
  { unfold memberAverages. apply Forall_forall. intros x Hx.
    apply list_elem_of_omap in Hx as ([k [present_ total]] & Hk & Hx).
    simpl in Hx. rewrite Forall_forall in Hcounts. apply Hcounts in Hk.
    simpl in Hk.
    destruct (0 <? total)%nat eqn:Htotal; [|done].
    injection Hx as <-. apply Nat.ltb_lt in Htotal.
    apply share_up_to; lia. }
  set (averages := memberAverages m) in *.
  destruct (0 <? length averages)%nat eqn:Hsome; [|by apply up_to_zero].
  apply Nat.ltb_lt in Hsome.
  destruct (sum_up_to averages 0%Qc 0) as (s & Hs & Hs0 & Hs1);
    [done|lia|apply Qle_refl|apply Qle_refl|done|].
  change (of_Z 0) with (finite 0%Qc). rewrite Hs, of_nat_exact by lia.
  cbn [div]. unfold is_zero. rewrite bool_decide_eq_false_2.
  2: { intros Hzero. apply Q2Qc_eq_iff in Hzero.
       unfold Qeq in Hzero. simpl in Hzero. lia. }
  assert (0 < inject_Z (Z.of_nat (length averages)))%Q by (apply (Z_lt_Q 0); lia).
  replace (0 + 100 * Z.of_nat (length averages))
    with (100 * Z.of_nat (length averages)) in Hs1 by lia.
  rewrite inject_Z_mult in Hs1.
  apply round64_between.
  - by left.
  - by apply representable_Z.
  - by apply pow2_1024_above.
  - rewrite this_Q2Qc. apply Qle_shift_div_l; lra.
  - rewrite this_Q2Qc. by apply Qle_shift_div_r.
Qed.

(** Inside the month block, which runs only when the month has a meeting,
    both quotients are finite: neither divisor is zero. *)
Lemma month_block_up_to activeMembers pipelinersCount records monthAttendance :
  (0 < length records)%nat →
  Z.of_nat (length monthAttendance) < 2 ^ 32 →
  up_to (2 ^ 32 * 100)
        (month_block activeMembers pipelinersCount records monthAttendance).1.1.1.2
  ∧ up_to (2 ^ 32 * 100)
          (month_block activeMembers pipelinersCount records monthAttendance).2.
Proof.
  intros Hmeetings Hrows. unfold month_block. simpl.
  destruct (month_tally_sizes monthAttendance) as [Hunique Hsum]. split.
  - destruct (0 <? activeMembers)%nat eqn:Hmembers; [|by apply up_to_zero].
    apply Nat.ltb_lt in Hmembers.
    apply ratio_up_to; [done|done|lia|by apply of_nat_at_least_one].
  - destruct pipelinersCount as [count|]; [|by apply up_to_zero].
    destruct (0 <? count)%nat eqn:Hcount; [|by apply up_to_zero].
    apply Nat.ltb_lt in Hcount.
    apply ratio_up_to; [done|done|lia|].
    apply at_least_one_mul; apply of_nat_at_least_one; [done|].
    by rewrite length_fmap.
Qed.

Lemma roundToTwoDecimals_zero : roundToTwoDecimals (of_Z 0) = of_Z 0.
Proof. apply (bool_decide_unpack _). by vm_compute. Qed.

(** The rounding follows the doubles: 23 present rows over 32 pipeliners
    and 5 meetings are 14.374999999999998 per cent and are returned as
    14.37, not as the 14.38 of the exact quotient. *)
Lemma rounding_follows_the_doubles :
  roundToTwoDecimals
    (mul (div (of_nat 23) (mul (of_nat 32) (of_nat 5))) (of_Z 100))
  = div (of_Z 1437) (of_Z 100)
  ∧ div (of_Z 1437) (of_Z 100) ≠ div (of_Z 1438) (of_Z 100).
Proof. split; apply (bool_decide_unpack _); by vm_compute. Qed.

(** C10.  Whenever [fetchMembershipStats] returns (the two arrays of
    attendance rows it was sent being arrays, of fewer than [2^32]
    elements), each of the three quotients it formed is a finite number
    (no divisor was zero) and each rate it returns is that number rounded
    to two decimals by [roundToTwoDecimals], again a finite number; with
    no active member, no active pipeliner, no meeting in the month or no
    member attendance row in the year window the corresponding rates are
    0. *)
Theorem membership_rates_never_divide_by_zero f w db stats :
  is_array (monthAttendance w db) →
  is_array (yearAttendance w db) →
  fetchMembershipStats f w db = Ok stats →
  ∃ locals,
    fetchLocals f w db = Ok locals
    ∧ stats = stats_of locals
    ∧ rounded_to_two_decimals (l_meetingAttendancePercentage locals)
                              (MembershipStats.attendanceRate stats)
    ∧ rounded_to_two_decimals (l_meetingAttendancePercentage locals)
                              (MembershipStats.meetingAttendancePercentage stats)
    ∧ rounded_to_two_decimals (l_pipelinerAttendanceRate locals)
                              (MembershipStats.pipelinerAttendanceRate stats)
    ∧ rounded_to_two_decimals (l_yearlyAverageAttendance locals)
                              (MembershipStats.yearlyAverage stats)
    ∧ (MembershipStats.activeMembers stats = 0%nat →
       MembershipStats.attendanceRate stats = of_Z 0
       ∧ MembershipStats.meetingAttendancePercentage stats = of_Z 0)
    ∧ (MembershipStats.pipeliners stats = 0%nat →
       MembershipStats.pipelinerAttendanceRate stats = of_Z 0)
    ∧ (select_meetings (monthStart w) (monthEnd w) db = [] →
       MembershipStats.attendanceRate stats = of_Z 0
       ∧ MembershipStats.meetingAttendancePercentage stats = of_Z 0
       ∧ MembershipStats.pipelinerAttendanceRate stats = of_Z 0)
    ∧ (select_year_attendance
         (filteredYearMeetings w
            (select_meetings (yearStart w) (yearRangeEnd w) db)).*1 db = [] →
       MembershipStats.yearlyAverage stats = of_Z 0).
Proof.
  unfold is_array, monthAttendance, yearAttendance. intros Hmonthly Hyearly.
  unfold fetchMembershipStats.
  destruct (fetchLocals f w db) as [locals|] eqn:Hlocals; [|done].
  cbn [mbind result_bind]. intros [= <-].
  exists locals. split; [done|]. split; [done|].
  apply fetchLocals_Ok in Hlocals as (Hmembers & Hcount & Hmonth & Hyear).
  cbn zeta in Hmonth, Hyear, Hcount, Hmembers.
  set (records := select_meetings (monthStart w) (monthEnd w) db) in *.
  assert (up_to (2 ^ 32 * 100) (l_meetingAttendancePercentage locals)
          ∧ up_to (2 ^ 32 * 100) (l_pipelinerAttendanceRate locals))
    as [Hpct Hrate].
  { destruct (0 <? length records.*1)%nat eqn:Hsome.
    - apply Nat.ltb_lt in Hsome. rewrite length_fmap in Hsome.
      pose proof (month_block_up_to (length (select_active_members db))
                    (if count_missing f then None
                     else Some (count_active_pipeliners db))
                    records (select_month_attendance records.*1 db) Hsome Hmonthly)
        as [Hp Hr].
      rewrite <- Hmonth in Hp, Hr. simpl in Hp, Hr. by split.
    - injection Hmonth as _ -> _ _ ->. by split; apply up_to_zero. }
  assert (up_to 100 (l_yearlyAverageAttendance locals)) as Havg.
  { rewrite Hyear.
    destruct (0 <? length (filteredYearMeetings _ _).*1)%nat;
      [|by apply up_to_zero].
    by apply year_block_up_to. }
  unfold stats_of. cbn [MembershipStats.attendanceRate
    MembershipStats.meetingAttendancePercentage MembershipStats.pipelinerAttendanceRate
    MembershipStats.yearlyAverage MembershipStats.activeMembers
    MembershipStats.pipeliners].
  destruct (roundToTwoDecimals_up_to _ (2 ^ 32 * 100) ltac:(done) ltac:(done) Hpct)
    as [Hpct' _].
  destruct (roundToTwoDecimals_up_to _ (2 ^ 32 * 100) ltac:(done) ltac:(done) Hrate)
    as [Hrate' _].
  destruct (roundToTwoDecimals_up_to _ 100 ltac:(done) ltac:(done) Havg)
    as [Havg' _].
  clear Hpct Hrate Havg.
  destruct (l_meetingAttendancePercentage locals) as [pct| |] eqn:Epct;
    [|by destruct Hpct' as (? & ? & ? & ? & ? & _)..].
  destruct (l_pipelinerAttendanceRate locals) as [rate| |] eqn:Erate;
    [|by destruct Hrate' as (? & ? & ? & ? & ? & _)..].
  destruct (l_yearlyAverageAttendance locals) as [avg| |] eqn:Eavg;
    [|by destruct Havg' as (? & ? & ? & ? & ? & _)..].
  split; [done|]. split; [done|]. split; [done|]. split; [done|].
  clear Hpct' Hrate' Havg'.
  split; [|split; [|split]].
  - intros Hnone. rewrite Hmembers in Hnone.
    assert (finite pct = of_Z 0) as ->; [|by rewrite roundToTwoDecimals_zero].
    destruct (0 <? length records.*1)%nat.
    + unfold month_block in Hmonth. rewrite Hnone in Hmonth.
      by injection Hmonth as _ -> _ _ _.
    + by injection Hmonth as _ -> _ _ _.
  - intros Hnone. rewrite Hcount in Hnone.
    assert (finite rate = of_Z 0) as ->; [|by rewrite roundToTwoDecimals_zero].
    destruct (0 <? length records.*1)%nat.
    + unfold month_block in Hmonth.
      destruct (count_missing f); [by injection Hmonth as _ _ _ _ ->|].
      simpl in Hnone. rewrite Hnone in Hmonth.
      by injection Hmonth as _ _ _ _ ->.
    + by injection Hmonth as _ _ _ _ ->.
  - intros Hnone. rewrite Hnone in Hmonth. simpl in Hmonth.
    assert (finite pct = of_Z 0 ∧ finite rate = of_Z 0) as [-> ->];
      [by inversion Hmonth|].
    by rewrite roundToTwoDecimals_zero.
  - intros Hnone. rewrite Hnone in Hyear.
    assert (finite avg = of_Z 0) as ->; [|by rewrite roundToTwoDecimals_zero].
    by destruct (0 <? length (filteredYearMeetings _ _).*1)%nat.
Qed.

(** Witness for C10: the club's month.  Both members attended, so the
    attendance rate is 100; the pipeliner was present at two of three
    meetings, 66.67; the yearly average of 50 and 100 is 75. *)
Lemma membership_rates_never_divide_by_zero_witness :
  ∃ stats,
    fetchMembershipStats Ex.no_faults Ex.this_month Ex.club = Ok stats
    ∧ MembershipStats.attendanceRate stats = of_Z 100
    ∧ MembershipStats.pipelinerAttendanceRate stats = div (of_Z 6667) (of_Z 100)
    ∧ MembershipStats.yearlyAverage stats = of_Z 75
    ∧ ∃ locals,
        rounded_to_two_decimals (l_pipelinerAttendanceRate locals)
                                (MembershipStats.pipelinerAttendanceRate stats).
Proof.
  eexists. split; [by vm_compute|].
  split; [apply (bool_decide_unpack _); by vm_compute|].
  split; [apply (bool_decide_unpack _); by vm_compute|].
  split; [apply (bool_decide_unpack _); by vm_compute|].
  destruct (membership_rates_never_divide_by_zero
              Ex.no_faults Ex.this_month Ex.club _ ltac:(by vm_compute)
              ltac:(by vm_compute) ltac:(by vm_compute))
    as (locals & _ & _ & _ & _ & Hrate & _).
  by exists locals.
Defined.

(** ** What the monthly figures count *)

(** X14.  What the monthly figures of [fetchMembershipStats] count:
    [activeMembers] the members with status active and a member number;
    [meetingAttendanceCount] the distinct members with a present row in a
    meeting of the month, whether they are active or not;
    [pipelinerPresentCount] the present rows of the month that name a
    pipeliner; [attendedLastMeeting] never exceeds
    [meetingAttendanceCount]; and [attendanceRate] is the same number as
    [meetingAttendancePercentage]. *)
Theorem monthly_figures_count_present_rows f w db stats :
  fetchMembershipStats f w db = Ok stats →
  Z.of_nat (MembershipStats.activeMembers stats)
  = count_where
      (λ r, bool_decide (Member.status r = Js.lit "active"
                         ∧ Member.member_number r ≠ None))
      (members db)
  ∧ (∃ attendees : gset uuid,
       MembershipStats.meetingAttendanceCount stats = size attendees
       ∧ ∀ m, m ∈ attendees
              ↔ ∃ i a, attendance db !! i = Some a
                       ∧ present_in_month w db a = true
                       ∧ Attendance.member_id a = Some m)
  ∧ Z.of_nat (MembershipStats.pipelinerPresentCount stats)
    = count_where
        (λ a, present_in_month w db a
              && bool_decide (is_Some (Attendance.pipeliner_id a)))
        (attendance db)
  ∧ (MembershipStats.attendedLastMeeting stats
     ≤ MembershipStats.meetingAttendanceCount stats)%nat
  ∧ MembershipStats.attendanceRate stats
    = MembershipStats.meetingAttendancePercentage stats.
Proof.
  unfold fetchMembershipStats. intros Hrun.
  destruct (fetchLocals f w db) as [l|] eqn:Hlocals; [|done].
  injection Hrun as <-.
  apply fetchLocals_Ok in Hlocals as (Hmembers & _ & Hmonth & _). simpl.
  split.
  { rewrite Hmembers. unfold select_active_members, count_where.
    rewrite length_fmap, length_map_to_list. do 2 f_equal.
    apply map_filter_ext. intros i r _. simpl. by rewrite bool_decide_eq_true. }
  set (records := select_meetings (monthStart w) (monthEnd w) db) in *.
  destruct (0 <? length records.*1)%nat eqn:Hsome.
  - unfold month_block in Hmonth. injection Hmonth as Hcount _ Hlast Hpipeliners _.
    destruct (tally_collects (select_month_attendance records.*1 db)
                {| uniqueMonthlyAttendees := ∅; attendanceByMeeting := ∅;
                   pipelinerMonthlyAttendance := ∅ |})
      as (Hunique & Hby & Hsum); [done|].
    fold (month_tally (select_month_attendance records.*1 db)) in Hunique, Hby, Hsum.
    simpl in Hunique, Hsum.
    split; [|split; [|split; [|done]]].
    + exists (uniqueMonthlyAttendees
                (month_tally (select_month_attendance records.*1 db))).
      split; [done|]. intros m. rewrite Hunique.
      rewrite elem_of_union, elem_of_list_to_set, list_elem_of_omap.
      split.
      * intros [?%elem_of_empty|(a & Ha & Hm)]; [done|].
        apply select_month_attendance_rows in Ha as (i & Hi & Hrow). eauto.
      * intros (i & a & Hi & Hrow & Hm). right. exists a. split; [|done].
        apply select_month_attendance_rows. eauto.
    + rewrite Hpipeliners, Hsum. unfold sum_values at 1.
      rewrite map_fold_empty. simpl.
      apply select_month_attendance_pipeliners.
    + rewrite Hlast, Hcount.
      destruct (lastMeeting records) as [meeting|]; [|lia].
      destruct (attendanceByMeeting _ !! meeting.1) as [s|] eqn:Hs; simpl; [|lia].
      apply subseteq_size. by eapply Hby.
  - injection Hmonth as -> _ -> -> _.
    assert (∀ a, present_in_month w db a = false) as Hnone.
    { intros a. apply not_true_is_false. intros [Hin _]%present_in_month_spec.
      fold records in Hin. destruct records.*1; [by apply elem_of_nil in Hin|done]. }
    split; [|split; [|split; [lia|done]]].
    + exists ∅. split; [done|]. intros m. split; [by intros ?%elem_of_empty|].
      intros (i & a & _ & Hrow & _). by rewrite Hnone in Hrow.
    + rewrite (count_where_agree _ (attendance db) ∅); [by rewrite count_where_empty|].
      intros i a Hrow. by rewrite Hnone in Hrow.
Qed.

(** ** The yearly average *)

(** X15.  The [yearlyAverage] that [fetchMembershipStats] returns (the
    year's attendance rows it was sent being an array, of fewer than
    [2^32] elements) is a finite number between 0 and 100: every averaged
    member has at least one counted row and no more present rows than
    counted rows, and neither the quotients of doubles, nor their sum and
    mean, nor the rounding leave the range. *)
Theorem yearly_average_is_a_percentage f w db stats :
  is_array (yearAttendance w db) →
  fetchMembershipStats f w db = Ok stats →
  up_to 100 (MembershipStats.yearlyAverage stats).
Proof.
  intros Hrows. unfold fetchMembershipStats. intros Hrun.
  destruct (fetchLocals f w db) as [l|] eqn:Hlocals; [|done].
  injection Hrun as <-.
  apply fetchLocals_Ok in Hlocals as (_ & _ & _ & Hyear). simpl.
  apply roundToTwoDecimals_up_to; [done|done|]. rewrite Hyear.
  destruct (0 <? length _)%nat; [|by apply up_to_zero].
  by apply year_block_up_to.
Qed.

End stats.

Lemma monthly_figures_count_present_rows_witness :
  ∃ stats,
    membershipStats.fetchMembershipStats Ex.no_faults Ex.this_month Ex.club = Ok stats
    ∧ membershipStats.MembershipStats.activeMembers stats = 2%nat
    ∧ membershipStats.MembershipStats.meetingAttendanceCount stats = 2%nat
    ∧ membershipStats.MembershipStats.pipelinerPresentCount stats = 2%nat
    ∧ Z.of_nat (membershipStats.MembershipStats.pipelinerPresentCount stats)
      = count_where
          (λ a, present_in_month Ex.this_month Ex.club a
                && bool_decide (is_Some (Attendance.pipeliner_id a)))
          (attendance Ex.club)
    ∧ (membershipStats.MembershipStats.attendedLastMeeting stats
       ≤ membershipStats.MembershipStats.meetingAttendanceCount stats)%nat.
Proof.
  eexists. split; [by vm_compute|].
  split; [by vm_compute|]. split; [by vm_compute|]. split; [by vm_compute|].
  destruct (monthly_figures_count_present_rows
              Ex.no_faults Ex.this_month Ex.club _ ltac:(by vm_compute))
    as (_ & _ & Hpipeliners & Hlast & _).
  split; [exact Hpipeliners|exact Hlast].
Defined.

Lemma yearly_average_is_a_percentage_witness :
  ∃ stats,
    membershipStats.fetchMembershipStats Ex.no_faults Ex.this_month Ex.club = Ok stats
    ∧ membershipStats.MembershipStats.yearlyAverage stats = JsNumber.of_Z 75
    ∧ up_to 100 (membershipStats.MembershipStats.yearlyAverage stats).
Proof.
  eexists. split; [by vm_compute|].
  split; [apply (bool_decide_unpack _); by vm_compute|].
  apply (yearly_average_is_a_percentage Ex.no_faults Ex.this_month Ex.club).
  - by vm_compute.
  - by vm_compute.
Defined.

(** ** lib/membershipStats: failing queries *)

Section stats_errors.
Import JsNumber membershipStats.

(** X18.  [fetchMembershipStats] throws the error of the first query that
    fails, in the order active members, pipeliners, the month's meetings,
    the year's meetings, the month's attendance, the year's attendance,
    and returns when none fails; the month's attendance is asked for only
    when the month has a meeting and the year's only when the year window
    has one up to today, so a failure of a query that is not issued is not
    seen. *)
Theorem first_failing_query_is_reported f w db :
  let month_asked :=
    (0 <? length (select_meetings (monthStart w) (monthEnd w) db).*1)%nat in
  let year_asked :=
    (0 <? length (filteredYearMeetings w
                    (select_meetings (yearStart w) (yearRangeEnd w) db)).*1)%nat in
  let issued :=
    [ activeMembersError f; pipelinersError f; monthMeetingsError f;
      yearMeetingsError f;
      if month_asked then monthAttendanceError f else None;
      if year_asked then yearAttendanceError f else None ] in
  match head (omap (λ error : option PgError, error) issued) with
  | Some e => fetchMembershipStats f w db = Err e
  | None => ∃ stats, fetchMembershipStats f w db = Ok stats
  end.
Proof.
  simpl. unfold fetchMembershipStats, fetchLocals, supabase.
  destruct (activeMembersError f); [done|].
  destruct (pipelinersError f); [done|].
  destruct (monthMeetingsError f); [done|].
  destruct (yearMeetingsError f); [done|].
  cbn [mbind result_bind omap list_omap head].
  destruct (0 <? length (select_meetings (monthStart w) (monthEnd w) db).*1)%nat.
  - destruct (monthAttendanceError f); [done|]. cbn [mbind result_bind].
    destruct (month_block _ _ _ _) as [[[[a b] c] d] e] eqn:Hblock.
    destruct (0 <? length _)%nat.
    + destruct (yearAttendanceError f); [done|]. cbn [mbind result_bind]. simpl. by eexists.
    + cbn [mbind result_bind]. simpl. by eexists.
  - cbn [mbind result_bind].
    destruct (0 <? length _)%nat.
    + destruct (yearAttendanceError f); [done|]. cbn [mbind result_bind]. simpl. by eexists.
    + cbn [mbind result_bind]. simpl. by eexists.
Qed.
End stats_errors.

(** ** lib/membershipStats: the last meeting *)

Section stats_last.
Import JsNumber membershipStats.

#[local] Instance not_later_total : Total not_later.
Proof. intros a b. unfold not_later. lia. Qed.

#[local] Instance not_later_trans : Transitive not_later.
Proof. intros a b c. unfold not_later. lia. Qed.

Lemma last_of_sorted (l : list (uuid * Meeting.Row)) x :
  StronglySorted not_later l → last l = Some x →
  x ∈ l ∧ ∀ y, y ∈ l → not_later y x.
Proof.
  induction 1 as [|a l Hsorted IH Hall]; [done|].
  destruct l as [|b l]; simpl.
  - intros [= <-]. split; [by left|]. intros y ->%list_elem_of_singleton.
    unfold not_later. lia.
  - intros Hlast. destruct (IH Hlast) as [Hin Hmax]. split; [by right|].
    intros y [->|Hy]%elem_of_cons; [|by apply Hmax].
    rewrite Forall_forall in Hall. by apply Hall.
Qed.

Lemma sorted_filter (P : uuid * Meeting.Row → Prop) `{!∀ x, Decision (P x)}
    (l : list (uuid * Meeting.Row)) :
  StronglySorted not_later l → StronglySorted not_later (filter P l).
Proof.
  induction 1 as [|a l Hsorted IH Hall]; [constructor|].
  rewrite filter_cons. destruct (decide (P a)); [|done].
  constructor; [done|]. apply Forall_forall. intros y [_ Hy]%list_elem_of_filter.
  rewrite Forall_forall in Hall. by apply Hall.
Qed.

(** The meeting [lastMeeting] picks: a business meeting that no business
    meeting of the list is later than or, when the list has no business
    meeting, a meeting that none is later than. *)
Lemma lastMeeting_latest (records : list (uuid * Meeting.Row)) :
  match lastMeeting records with
  | None => records = []
  | Some chosen =>
    chosen ∈ records
    ∧ (Meeting.meeting_type chosen.2 = Js.lit "business"
       ∧ (∀ other, other ∈ records →
                   Meeting.meeting_type other.2 = Js.lit "business" →
                   not_later other chosen)
       ∨ (∀ other, other ∈ records →
                   Meeting.meeting_type other.2 ≠ Js.lit "business")
         ∧ ∀ other, other ∈ records → not_later other chosen)
  end.
Proof.
  unfold lastMeeting.
  pose proof (StronglySorted_merge_sort not_later records) as Hsorted.
  pose proof (merge_sort_Permutation not_later records) as Hperm.
  set (sorted := merge_sort not_later records) in *. clearbody sorted.
  destruct (last (filter _ sorted)) as [chosen|] eqn:Hbusiness.
  - apply last_of_sorted in Hbusiness as [Hin Hmax]; [|by apply sorted_filter].
    apply list_elem_of_filter in Hin as [Htype Hin].
    split; [by rewrite <- Hperm|]. left. split; [done|].
    intros other Hother Hb. apply Hmax, list_elem_of_filter.
    split; [done|by rewrite Hperm].
  - apply last_None in Hbusiness.
    destruct (last sorted) as [chosen|] eqn:Hlast.
    + apply last_of_sorted in Hlast as [Hin Hmax]; [|done].
      split; [by rewrite <- Hperm|]. right. split.
      * intros other Hother Hb.
        assert (other ∈ filter (λ meeting : uuid * Meeting.Row,
                                  Meeting.meeting_type meeting.2 = Js.lit "business")
                               sorted) as Hin'.
        { apply list_elem_of_filter. split; [done|by rewrite Hperm]. }
        rewrite Hbusiness in Hin'. by apply elem_of_nil in Hin'.
      * intros other Hother. apply Hmax. by rewrite Hperm.
    + apply last_None in Hlast. subst sorted.
      by apply Permutation_nil_l in Hperm.
Qed.

(** The members the loop has collected for a meeting. *)
Lemma tally_by_meeting (entries : list Attendance.Row) (t0 : MonthTally) meeting m :
  m ∈ default ∅ (attendanceByMeeting (foldl tally_entry t0 entries) !! meeting)
  ↔ m ∈ default ∅ (attendanceByMeeting t0 !! meeting)
    ∨ ∃ entry, entry ∈ entries
               ∧ Attendance.meeting_id entry = meeting
               ∧ Attendance.member_id entry = Some m.
Proof.
  revert t0. induction entries as [|entry entries IH]; intros t0; simpl.
  - split; [by left|]. intros [?|(? & ?%elem_of_nil & _)]; done.
  - rewrite IH. clear IH.
    assert (m ∈ default ∅ (attendanceByMeeting (tally_entry t0 entry) !! meeting)
            ↔ m ∈ default ∅ (attendanceByMeeting t0 !! meeting)
              ∨ Attendance.meeting_id entry = meeting
                ∧ Attendance.member_id entry = Some m) as ->.
    { unfold tally_entry.
      destruct (Attendance.member_id entry) as [member|] eqn:Hmember;
        destruct (Attendance.pipeliner_id entry); simpl;
        try (split; [by left|by intros [?|[_ ?]]]);
        destruct (attendanceByMeeting t0 !! Attendance.meeting_id entry)
          as [existing|] eqn:Hexisting;
        (destruct (decide (Attendance.meeting_id entry = meeting)) as [<-|Hne];
         [rewrite lookup_insert_eq, ?Hexisting; simpl
         |rewrite lookup_insert_ne by done]);
        set_solver. }
    setoid_rewrite elem_of_cons. naive_solver.
Qed.

(** X19.  The [attendedLastMeeting] that [fetchMembershipStats] returns is
    0 when the month has no meeting; otherwise it is the number of
    distinct members with a present row at one meeting of the month: a
    business meeting that no business meeting of the month is later than
    or, when the month has no business meeting, a meeting that none of the
    month is later than. *)
Theorem attended_last_meeting_counts_the_latest_meeting f w db stats :
  fetchMembershipStats f w db = Ok stats →
  (MembershipStats.attendedLastMeeting stats = 0%nat
   ∧ ∀ i meeting, meetings db !! i = Some meeting → ¬ in_month w meeting)
  ∨ ∃ i meeting (attended : gset uuid),
      meetings db !! i = Some meeting
      ∧ in_month w meeting
      ∧ (Meeting.meeting_type meeting = Js.lit "business"
         ∧ (∀ j other, meetings db !! j = Some other → in_month w other →
                       Meeting.meeting_type other = Js.lit "business" →
                       (Meeting.meeting_date other ≤ Meeting.meeting_date meeting)%N)
         ∨ (∀ j other, meetings db !! j = Some other → in_month w other →
                       Meeting.meeting_type other ≠ Js.lit "business")
           ∧ ∀ j other, meetings db !! j = Some other → in_month w other →
                        (Meeting.meeting_date other ≤ Meeting.meeting_date meeting)%N)
      ∧ MembershipStats.attendedLastMeeting stats = size attended
      ∧ ∀ m, m ∈ attended
             ↔ ∃ j a, attendance db !! j = Some a
                      ∧ Attendance.meeting_id a = i
                      ∧ Attendance.status a = present
                      ∧ Attendance.member_id a = Some m.
Proof.
  unfold fetchMembershipStats. intros Hrun.
  destruct (fetchLocals f w db) as [l|] eqn:Hlocals; [|done].
  injection Hrun as <-.
  apply fetchLocals_Ok in Hlocals as (_ & _ & Hmonth & _). simpl.
  assert (∀ i meeting,
            (i, meeting) ∈ select_meetings (monthStart w) (monthEnd w) db
            ↔ meetings db !! i = Some meeting ∧ in_month w meeting) as Hrecords.
  { intros i meeting. unfold select_meetings.
    by rewrite elem_of_map_to_list, map_lookup_filter_Some. }
  set (records := select_meetings (monthStart w) (monthEnd w) db) in *.
  pose proof (lastMeeting_latest records) as Hlatest.
  destruct (0 <? length records.*1)%nat eqn:Hsome.
  - unfold month_block in Hmonth. injection Hmonth as _ _ Hlast _ _.
    destruct (lastMeeting records) as [[i meeting]|].
    + right. destruct Hlatest as [Hin Hlatest].
      apply Hrecords in Hin as [Hi Hwindow]. simpl in *.
      exists i, meeting,
        (default ∅ (attendanceByMeeting
                      (month_tally (select_month_attendance records.*1 db)) !! i)).
      split; [done|]. split; [done|]. split; [|split].
      * destruct Hlatest as [[Htype Hmax]|[Hnone Hmax]]; [left|right].
        -- split; [done|]. intros j other Hj Hother Hb.
           apply (Hmax (j, other)); [by apply Hrecords|done].
        -- split.
           ++ intros j other Hj Hother. apply (Hnone (j, other)). by apply Hrecords.
           ++ intros j other Hj Hother. apply (Hmax (j, other)). by apply Hrecords.
      * rewrite Hlast. by destruct (attendanceByMeeting _ !! i).
      * intros m. unfold month_tally. rewrite tally_by_meeting. simpl.
        split.
        -- intros [?%elem_of_empty|(a & Ha & Hmeeting & Hm)]; [done|].
           apply select_month_attendance_rows in Ha as (j & Hj & Hrow).
           apply present_in_month_spec in Hrow as [_ Hstatus]. eauto 10.
        -- intros (j & a & Hj & Hmeeting & Hstatus & Hm). right.
           exists a. split; [|done]. apply select_month_attendance_rows.
           exists j. split; [done|]. apply present_in_month_spec. split; [|done].
           rewrite Hmeeting. apply list_elem_of_fmap. exists (i, meeting).
           split; [done|]. by apply Hrecords.
    + subst records. rewrite Hlatest in Hsome. done.
  - left. injection Hmonth as _ _ -> _ _. split; [done|].
    intros i meeting Hi Hwindow.
    assert ((i, meeting) ∈ records) as Hin by by apply Hrecords.
    destruct records; [by apply elem_of_nil in Hin|done].
Qed.

End stats_last.

Lemma attended_last_meeting_counts_the_latest_meeting_witness :
  ∃ stats,
    membershipStats.fetchMembershipStats Ex.no_faults Ex.this_month Ex.club = Ok stats
    ∧ membershipStats.MembershipStats.attendedLastMeeting stats = 0%nat
    ∧ ∃ i meeting (attended : gset uuid),
        meetings Ex.club !! i = Some meeting
        ∧ in_month Ex.this_month meeting
        ∧ membershipStats.MembershipStats.attendedLastMeeting stats = size attended.
Proof.
  eexists. split; [by vm_compute|]. split; [by vm_compute|].
  destruct (attended_last_meeting_counts_the_latest_meeting
              Ex.no_faults Ex.this_month Ex.club _ ltac:(by vm_compute))
    as [[_ Hnone]|(i & meeting & attended & Hi & Hwindow & _ & Hsize & _)].
  - exfalso. apply (Hnone 1%N (Ex.meeting 100%N)); [by vm_compute|].
    split; by vm_compute.
  - exists i, meeting, attended. done.
Defined.
